(** * CafeDB: a shallow embedding of the query engine and the persistence
      protocol of [cafedb.py], and the properties its specification states.

    The store is the Python object [self._data]: a dictionary whose key
    ["_meta"] holds the metadata and whose other keys hold the tables, each
    a list of rows.  Python values are JSON trees; dictionaries keep their
    insertion order (association lists).  Numbers are Python integers;
    floating-point numbers are outside this model.

    Exceptions are explicit results, the mutable instance and the file
    system are threaded through a state monad, and the few functions of
    the Python runtime that the code calls but does not define (regular
    expressions, [str], [str.lower], the [json] codec) are the fields of
    the class [PyRuntime].  Three instances run the operations: one whose
    files hold the tree itself, one whose files hold JSON text, with a
    reader that is shown to return what the writer wrote, and one whose
    files may also hold bytes that are no text.  Where a property depends
    on which objects are shared, dictionaries and lists are objects in a
    heap.

    Every method of the class is modelled, [stats] by its row count only
    (its other figures are floating-point numbers), and of the scripts
    beside it the set-up of the gradebook, [setup_database].  The
    properties come in two parts: those the specification states (C1 to
    C10), then further properties of the operations (X1 to X30). *)

From stdpp Require Import base strings list gmap sorting.
From Stdlib Require Import ZArith String Ascii List Permutation Sorted Lia.
From Stdlib Require Decimal DecimalZ.
Import ListNotations.

Set Warnings "-register-all".
Local Open Scope Z_scope.
Local Open Scope list_scope.

(** ** Values *)

Inductive value : Type :=
  | VNull
  | VBool (b : bool)
  | VInt (z : Z)
  | VStr (s : string)
  | VList (l : list value)
  | VDict (d : list (string * value)).

(** A Python [dict] with string keys, in insertion order. *)
Abbreviation dict := (list (string * value)).

(** ** Exceptions and results *)

Inductive exn : Type :=
  | CafeDBError (msg : string)
  | TableNotFoundError (msg : string)
  | TableExistsError (msg : string)
  | QueryError (msg : string)
  | TypeError
  | KeyError (key : value)
  | ValueError
  | IndexError
  | JSONDecodeError
  | UnicodeDecodeError
  | AttributeError
  | ReError
  | RuntimeError
  | UserError (msg : string).

Inductive res (A : Type) : Type :=
  | Ok (a : A)
  | Raise (e : exn).
Arguments Ok {A} a.
Arguments Raise {A} e.

Definition res_bind {A B} (r : res A) (k : A -> res B) : res B :=
  match r with
  | Ok a => k a
  | Raise e => Raise e
  end.

Declare Scope res_scope.
Delimit Scope res_scope with res.
Notation "x <- r ;; k" := (res_bind r (fun x => k))
  (at level 100, r at next level, right associativity) : res_scope.
Notation "r ;;; k" := (res_bind r (fun _ => k))
  (at level 100, k at level 200, right associativity) : res_scope.

(** [try: r except TypeError: return False], the idiom of the ordered
    comparisons, where [None] stands for the [TypeError]. *)
Definition is_ok {A} (r : res A) : bool :=
  match r with Ok _ => true | Raise _ => false end.

(** ** Dictionaries *)

(** The operations of a [dict], on association lists in insertion
    order, whatever the values are. *)
Section Dict.
Context {V : Type}.

Fixpoint dict_get (d : list (string * V)) (k : string) : option V :=
  match d with
  | [] => None
  | (k', v) :: d' => if String.eqb k' k then Some v else dict_get d' k
  end.

(** [k in d] *)
Definition dict_mem (d : list (string * V)) (k : string) : bool :=
  match dict_get d k with Some _ => true | None => false end.

(** [d[k] = v]: an existing key keeps its position, a new one goes last. *)
Fixpoint dict_set (d : list (string * V)) (k : string) (v : V)
  : list (string * V) :=
  match d with
  | [] => [(k, v)]
  | (k', v') :: d' =>
      if String.eqb k' k then (k', v) :: d' else (k', v') :: dict_set d' k v
  end.

(** [del d[k]] *)
Fixpoint dict_del (d : list (string * V)) (k : string) : list (string * V) :=
  match d with
  | [] => []
  | (k', v') :: d' =>
      if String.eqb k' k then d' else (k', v') :: dict_del d' k
  end.

Definition dict_keys (d : list (string * V)) : list string := map fst d.

(** [{**d, **u}] *)
Definition dict_merge (d u : list (string * V)) : list (string * V) :=
  fold_left (fun acc kv => dict_set acc (fst kv) (snd kv)) u d.

End Dict.

(** ** Python's operators on values *)

(** Truth value of an object. *)
Definition truthy (v : value) : bool :=
  match v with
  | VNull => false
  | VBool b => b
  | VInt z => negb (z =? 0)
  | VStr s => negb (String.eqb s "")
  | VList l => match l with [] => false | _ => true end
  | VDict d => match d with [] => false | _ => true end
  end.

Definition Z_of_bool (b : bool) : Z := if b then 1 else 0.

(** [a == b].  [bool] is a subclass of [int] ([True == 1]); lists compare
    element by element, dictionaries key by key whatever the order. *)
Fixpoint py_eq (a b : value) {struct a} : bool :=
  match a, b with
  | VNull, VNull => true
  | VBool x, VBool y => Bool.eqb x y
  | VBool x, VInt y => Z_of_bool x =? y
  | VInt x, VBool y => x =? Z_of_bool y
  | VInt x, VInt y => x =? y
  | VStr s, VStr t => String.eqb s t
  | VList la, VList lb =>
      (fix go (la lb : list value) {struct la} : bool :=
         match la, lb with
         | [], [] => true
         | x :: la', y :: lb' => py_eq x y && go la' lb'
         | _, _ => false
         end) la lb
  | VDict da, VDict db =>
      Nat.eqb (length da) (length db) &&
      (fix go (da : dict) {struct da} : bool :=
         match da with
         | [] => true
         | (k, v) :: da' =>
             match dict_get db k with
             | Some v' => py_eq v v'
             | None => false
             end && go da'
         end) da
  | _, _ => false
  end.

Inductive cmpop : Type := Lt | Le | Gt | Ge.

Definition cmp_Z (op : cmpop) (x y : Z) : bool :=
  match op with
  | Lt => x <? y
  | Le => x <=? y
  | Gt => y <? x
  | Ge => y <=? x
  end.

Definition cmp_str (op : cmpop) (s t : string) : bool :=
  match op with
  | Lt => String.ltb s t
  | Le => String.leb s t
  | Gt => String.ltb t s
  | Ge => String.leb t s
  end.

(** [a < b], [a <= b], [a > b], [a >= b]; [None] is the [TypeError] of
    operands that have no order.  Two lists are ordered by their first
    pair of unequal items, or by length when one is a prefix of the other. *)
Fixpoint py_cmp (op : cmpop) (a b : value) {struct a} : option bool :=
  match a, b with
  | VBool x, VBool y => Some (cmp_Z op (Z_of_bool x) (Z_of_bool y))
  | VBool x, VInt y => Some (cmp_Z op (Z_of_bool x) y)
  | VInt x, VBool y => Some (cmp_Z op x (Z_of_bool y))
  | VInt x, VInt y => Some (cmp_Z op x y)
  | VStr s, VStr t => Some (cmp_str op s t)
  | VList la, VList lb =>
      (fix go (la lb : list value) {struct la} : option bool :=
         match la, lb with
         | x :: la', y :: lb' =>
             if py_eq x y then go la' lb' else py_cmp op x y
         | _, _ =>
             Some (cmp_Z op (Z.of_nat (length la)) (Z.of_nat (length lb)))
         end) la lb
  | _, _ => None
  end.

(** ** Strings *)

Fixpoint str_contains (needle hay : string) : bool :=
  String.prefix needle hay ||
  match hay with
  | EmptyString => false
  | String _ hay' => str_contains needle hay'
  end.

Definition str_startswith (s pre : string) : bool := String.prefix pre s.

Fixpoint str_drop (n : nat) (s : string) : string :=
  match n, s with
  | O, _ => s
  | S n', String _ s' => str_drop n' s'
  | S _, EmptyString => EmptyString
  end.

Definition str_endswith (s suf : string) : bool :=
  Nat.leb (String.length suf) (String.length s) &&
  String.eqb (str_drop (String.length s - String.length suf) s) suf.

(** [s.replace(c, by)] for a one-character [c]. *)
Fixpoint str_replace_char (c : ascii) (by_ : string) (s : string) : string :=
  match s with
  | EmptyString => EmptyString
  | String a s' =>
      if Ascii.eqb a c then by_ +:+ str_replace_char c by_ s'
      else String a (str_replace_char c by_ s')
  end.

(** [sep.join(l)] *)
Definition str_join (sep : string) (l : list string) : string :=
  String.concat sep l.

(** [item in container] *)
Definition py_in (item container : value) : res bool :=
  match container with
  | VList l => Ok (existsb (fun x => py_eq x item) l)
  | VStr s =>
      match item with
      | VStr t => Ok (str_contains t s)
      | _ => Raise TypeError
      end
  | VDict d =>
      match item with
      | VStr k => Ok (dict_mem d k)
      | VList _ | VDict _ => Raise TypeError
      | _ => Ok false
      end
  | _ => Raise TypeError
  end.

(** [container[key]] for a string key. *)
Definition py_getitem (container : value) (k : string) : res value :=
  match container with
  | VDict d =>
      match dict_get d k with
      | Some v => Ok v
      | None => Raise (KeyError (VStr k))
      end
  | _ => Raise TypeError
  end.

(** ** The runtime the code relies on *)

Class PyRuntime : Type := {
  (** [bool(re.match(pattern, text, re.IGNORECASE))]; [None] is [re.error]. *)
  re_match : string -> string -> option bool;
  (** [bool(re.search(pattern, text, re.IGNORECASE))]; [None] is [re.error]. *)
  re_search : string -> string -> option bool;
  (** [s.lower()] *)
  str_lower : string -> string;
  (** [str(v)] *)
  py_str : value -> string;
  (** What a file holds, [json.dump(v, f, indent=2, ensure_ascii=False)]
      and [json.load(f)]; [None] is the exception that [json.load] raises,
      which [is_utf8] tells. *)
  document : Type;
  json_dumps : value -> document;
  json_loads : document -> option value;
  (** The bytes of the file are UTF-8 text: reading a file opened with
      [encoding="utf-8"] returns, and [json.load] raises
      [json.JSONDecodeError] if it raises.  Where they are not, the read
      raises [UnicodeDecodeError], so [json.load] has no value either. *)
  is_utf8 : document -> bool
}.

(** ** The condition evaluator *)

Section Evaluator.
Context `{PyRuntime}.

Definition _match_wildcard (value pattern : value) : res bool :=
  let text := match value with VStr s => s | _ => py_str value end in
  match pattern with
  | VStr p =>
      let regex_pattern := str_replace_char "?" "." (str_replace_char "*" ".*" p) in
      let regex_pattern := "^" +:+ regex_pattern +:+ "$" in
      match re_match regex_pattern text with
      | Some b => Ok b
      | None => Raise ReError
      end
  | _ => Raise AttributeError
  end.

Definition unknown_operator_msg (op : string) : string :=
  "Unknown operator: " +:+ op +:+ ". " +:+
  "Valid operators: $eq, $ne, $gt, $gte, $lt, $lte, $in, $nin, " +:+
  "$like, $regex, $contains, $startswith, $endswith, $between, $exists".

(** [try: if not (a op b): return False / except TypeError: return False] *)
Definition holds (r : option bool) : bool :=
  match r with Some true => true | _ => false end.

(** The loop over [condition.items()] of [_match_condition].  The
    [$exists] branch returns the operand itself; its truth value is what
    the caller tests. *)
Fixpoint match_operators (value : value) (ops : dict) : res bool :=
  match ops with
  | [] => Ok true
  | (op, op_value) :: rest =>
      if String.eqb op "$eq" then
        if negb (py_eq value op_value) then Ok false
        else match_operators value rest
      else if String.eqb op "$ne" then
        if py_eq value op_value then Ok false
        else match_operators value rest
      else if String.eqb op "$gt" then
        if negb (holds (py_cmp Gt value op_value)) then Ok false
        else match_operators value rest
      else if String.eqb op "$gte" then
        if negb (holds (py_cmp Ge value op_value)) then Ok false
        else match_operators value rest
      else if String.eqb op "$lt" then
        if negb (holds (py_cmp Lt value op_value)) then Ok false
        else match_operators value rest
      else if String.eqb op "$lte" then
        if negb (holds (py_cmp Le value op_value)) then Ok false
        else match_operators value rest
      else if String.eqb op "$in" then
        (b <- py_in value op_value ;;
         if negb b then Ok false else match_operators value rest)%res
      else if String.eqb op "$nin" then
        (b <- py_in value op_value ;;
         if b then Ok false else match_operators value rest)%res
      else if String.eqb op "$like" then
        (b <- _match_wildcard value op_value ;;
         if negb b then Ok false else match_operators value rest)%res
      else if String.eqb op "$regex" then
        match op_value with
        | VStr p =>
            match re_search p (py_str value) with
            | Some b => if negb b then Ok false else match_operators value rest
            | None => Raise (QueryError ("Invalid regex pattern '" +:+ p +:+ "'"))
            end
        | _ => Raise TypeError
        end
      else if String.eqb op "$contains" then
        match value with
        | VStr s =>
            match op_value with
            | VStr t =>
                if negb (str_contains (str_lower t) (str_lower s)) then Ok false
                else match_operators value rest
            | _ => Raise AttributeError
            end
        | _ => Ok false
        end
      else if String.eqb op "$startswith" then
        match value with
        | VStr s =>
            match op_value with
            | VStr t =>
                if negb (str_startswith (str_lower s) (str_lower t)) then Ok false
                else match_operators value rest
            | _ => Raise AttributeError
            end
        | _ => Ok false
        end
      else if String.eqb op "$endswith" then
        match value with
        | VStr s =>
            match op_value with
            | VStr t =>
                if negb (str_endswith (str_lower s) (str_lower t)) then Ok false
                else match_operators value rest
            | _ => Raise AttributeError
            end
        | _ => Ok false
        end
      else if String.eqb op "$between" then
        match op_value with
        | VList [min_val; max_val] =>
            if negb (holds (py_cmp Le min_val value) &&
                     holds (py_cmp Le value max_val))
            then Ok false
            else match_operators value rest
        | _ => Raise (QueryError "$between requires array of exactly 2 values")
        end
      else if String.eqb op "$exists" then
        Ok (truthy op_value)
      else
        Raise (QueryError (unknown_operator_msg op))
  end.

Definition has_wildcard (s : string) : bool :=
  str_contains "*" s || str_contains "?" s.

Definition _match_condition (value condition : value) : res bool :=
  match condition with
  | VDict ops => match_operators value ops
  | VStr s =>
      if has_wildcard s then _match_wildcard value condition
      else Ok (py_eq value condition)
  | _ => Ok (py_eq value condition)
  end.

(** [isinstance(condition, dict) and '$exists' in condition], with the
    operand [condition['$exists']] when it holds. *)
Definition exists_operand (condition : value) : option value :=
  match condition with
  | VDict ops => dict_get ops "$exists"
  | _ => None
  end.

(** [condition_func], the closure that [_build_condition_function]
    returns. *)
Fixpoint condition_func (filters : dict) (row : value) : res bool :=
  match filters with
  | [] => Ok true
  | (field, condition) :: rest =>
      match exists_operand condition with
      | Some e =>
          (field_exists <- py_in (VStr field) row ;;
           if negb (py_eq e (VBool field_exists)) then Ok false
           else condition_func rest row)%res
      | None =>
          (present <- py_in (VStr field) row ;;
           if negb present then Ok false
           else
             v <- py_getitem row field ;;
             b <- _match_condition v condition ;;
             if negb b then Ok false else condition_func rest row)%res
      end
  end.

End Evaluator.

(** ** More of Python's operations on values *)

Definition str_chars (s : string) : list value :=
  map (fun c => VStr (String c EmptyString)) (list_ascii_of_string s).

(** [for x in v]: the items a loop over [v] visits. *)
Definition py_iter (v : value) : res (list value) :=
  match v with
  | VList l => Ok l
  | VDict d => Ok (map VStr (dict_keys d))
  | VStr s => Ok (str_chars s)
  | _ => Raise TypeError
  end.

(** [len(v)] *)
Definition py_len (v : value) : res nat :=
  match v with
  | VList l => Ok (length l)
  | VDict d => Ok (length d)
  | VStr s => Ok (String.length s)
  | _ => Raise TypeError
  end.

(** [container[k] = v] for a string key. *)
Definition py_setitem (container : value) (k : string) (v : value) : res value :=
  match container with
  | VDict d => Ok (VDict (dict_set d k v))
  | _ => Raise TypeError
  end.

(** [del container[k]] for a string key. *)
Definition py_delitem (container : value) (k : string) : res value :=
  match container with
  | VDict d =>
      if dict_mem d k then Ok (VDict (dict_del d k))
      else Raise (KeyError (VStr k))
  | _ => Raise TypeError
  end.

(** [v.append(x)] *)
Definition py_append (v x : value) : res value :=
  match v with
  | VList l => Ok (VList (l ++ [x]))
  | _ => Raise AttributeError
  end.

(** [v.extend(xs)] *)
Definition py_extend (v : value) (xs : list value) : res value :=
  match v with
  | VList l => Ok (VList (l ++ xs))
  | _ => Raise AttributeError
  end.

Fixpoint remove_first (x : value) (l : list value) : option (list value) :=
  match l with
  | [] => None
  | y :: l' =>
      if py_eq y x then Some l'
      else option_map (cons y) (remove_first x l')
  end.

(** [v.remove(x)] *)
Definition py_remove (v x : value) : res value :=
  match v with
  | VList l =>
      match remove_first x l with
      | Some l' => Ok (VList l')
      | None => Raise ValueError
      end
  | _ => Raise AttributeError
  end.

(** [v.copy()] *)
Definition py_copy (v : value) : res value :=
  match v with
  | VList _ | VDict _ => Ok v
  | _ => Raise AttributeError
  end.

(** [v.get(k, default)] *)
Definition py_get (v : value) (k : string) (default : value) : res value :=
  match v with
  | VDict d =>
      match dict_get d k with
      | Some x => Ok x
      | None => Ok default
      end
  | _ => Raise AttributeError
  end.

(** [v[0]], evaluated only on a [v] that is true. *)
Definition py_first (v : value) : res value :=
  match v with
  | VList (x :: _) => Ok x
  | VStr (String c _) => Ok (VStr (String c EmptyString))
  | VList [] | VStr EmptyString => Raise IndexError
  | VDict _ => Raise (KeyError (VInt 0))
  | _ => Raise TypeError
  end.

(** [v[n:]] for [n > 0].  Slicing a dictionary is modelled as the
    [TypeError] of Python up to 3.11. *)
Definition py_slice_from (v : value) (n : Z) : res value :=
  match v with
  | VList l => Ok (VList (skipn (Z.to_nat n) l))
  | VStr s => Ok (VStr (str_drop (Z.to_nat n) s))
  | _ => Raise TypeError
  end.

Definition slice_end (len : nat) (m : Z) : nat :=
  if m <? 0 then Z.to_nat (Z.of_nat len + m) else Z.to_nat m.

(** [v[:m]]; a negative [m] counts from the end. *)
Definition py_slice_to (v : value) (m : Z) : res value :=
  match v with
  | VList l => Ok (VList (firstn (slice_end (length l) m) l))
  | VStr s => Ok (VStr (String.substring 0 (slice_end (String.length s) m) s))
  | _ => Raise TypeError
  end.

Fixpoint map_res {A B} (f : A -> res B) (l : list A) : res (list B) :=
  match l with
  | [] => Ok []
  | x :: l' => (y <- f x ;; ys <- map_res f l' ;; Ok (y :: ys))%res
  end.

(** [[r for r in rows if f(r)]] *)
Fixpoint filter_res {A} (f : A -> res bool) (l : list A) : res (list A) :=
  match l with
  | [] => Ok []
  | x :: l' =>
      (b <- f x ;; rest <- filter_res f l' ;;
       Ok (if b then x :: rest else rest))%res
  end.

(** [sep.join(v)] *)
Definition py_join (sep : string) (v : value) : res string :=
  (items <- py_iter v ;;
   strs <- map_res (fun x => match x with
                             | VStr s => Ok s
                             | _ => Raise TypeError
                             end) items ;;
   Ok (str_join sep strs))%res.

(** *** [sorted]

    A stable sort that compares with [<] only: each item in turn is put
    into the sorted prefix after the items it is not less than.  A
    comparison that raises aborts the sort.  With [reverse=True] the list
    is reversed before and after, which keeps equal items in their
    original order.  CPython's sort makes its comparisons in another
    order: where [<] orders the keys totally the result is the same, and
    where some pairs of keys cannot be compared the two may differ in
    whether such a pair is met. *)

Section Sorting.
Context {A : Type} (lt : A -> A -> option bool).

Fixpoint insert_by (x : A) (l : list A) : option (list A) :=
  match l with
  | [] => Some [x]
  | y :: l' =>
      match lt x y with
      | None => None
      | Some true => Some (x :: y :: l')
      | Some false => option_map (cons y) (insert_by x l')
      end
  end.

Fixpoint sort_into (acc : list A) (l : list A) : option (list A) :=
  match l with
  | [] => Some acc
  | x :: l' =>
      match insert_by x acc with
      | None => None
      | Some acc' => sort_into acc' l'
      end
  end.

Definition sort_by (reverse : bool) (l : list A) : option (list A) :=
  if reverse then option_map (@rev A) (sort_into [] (rev l))
  else sort_into [] l.

End Sorting.

(** [sorted(v, key=key, reverse=reverse)]: the keys are computed first,
    then the items are ordered by them. *)
Definition py_sorted (key : value -> res value) (reverse : bool) (v : value)
  : res (list value) :=
  (items <- py_iter v ;;
   keys <- map_res key items ;;
   match sort_by (fun a b => py_cmp Lt (fst a) (fst b)) reverse
                 (combine keys items) with
   | Some sorted => Ok (map snd sorted)
   | None => Raise TypeError
   end)%res.

(** [try: r except TypeError: handler] *)
Definition except_TypeError {A} (r handler : res A) : res A :=
  match r with
  | Raise TypeError => handler
  | _ => r
  end.

(** [type(v).__name__] *)
Definition type_name (v : value) : string :=
  match v with
  | VNull => "NoneType"
  | VBool _ => "bool"
  | VInt _ => "int"
  | VStr _ => "str"
  | VList _ => "list"
  | VDict _ => "dict"
  end.

(** ** Paths and files *)

(** A [pathlib.Path], split where [Path.suffix] splits it: the suffix is
    the last dotted part of the file name (or empty). *)
Record Path : Type := {
  path_base : string;
  path_suffix : string
}.

Definition path_str (p : Path) : string := path_base p +:+ path_suffix p.

(** [p.with_suffix(s)] *)
Definition with_suffix (p : Path) (s : string) : Path :=
  {| path_base := path_base p; path_suffix := s |}.

(** ** The instance and its environment *)

Section Store.
Context `{PyRuntime}.

(** The attributes of a [CafeDB] instance that the operations read or
    write, with the file system and the clock they act on.  [clock]
    gives the successive readings of [datetime.now().isoformat()] and
    [ticks] counts the readings taken.  The [verbose] flag only prints
    and the lock is re-entrant for the one thread modelled here: both are
    left out. *)
Record State : Type := {
  db_path : Path;
  backup : bool;
  _data : value;
  files : gmap string document;
  clock : nat -> string;
  ticks : nat
}.

Definition with_data (v : value) (st : State) : State :=
  {| db_path := db_path st; backup := backup st; _data := v;
     files := files st; clock := clock st; ticks := ticks st |}.

Definition with_files (f : gmap string document) (st : State) : State :=
  {| db_path := db_path st; backup := backup st; _data := _data st;
     files := f; clock := clock st; ticks := ticks st |}.

Definition with_ticks (n : nat) (st : State) : State :=
  {| db_path := db_path st; backup := backup st; _data := _data st;
     files := files st; clock := clock st; ticks := n |}.

(** A method: it returns or raises, and leaves a state behind either way. *)
Definition M (A : Type) : Type := State -> res A * State.

Definition ret {A} (a : A) : M A := fun st => (Ok a, st).
Definition raise {A} (e : exn) : M A := fun st => (Raise e, st).
Definition bind {A B} (m : M A) (k : A -> M B) : M B :=
  fun st =>
    match m st with
    | (Ok a, st') => k a st'
    | (Raise e, st') => (Raise e, st')
    end.
Definition lift {A} (r : res A) : M A := fun st => (r, st).
Definition get : M State := fun st => (Ok st, st).
Definition get_data : M value := fun st => (Ok (_data st), st).
Definition set_data (v : value) : M unit := fun st => (Ok tt, with_data v st).
Definition set_files (f : gmap string document) : M unit :=
  fun st => (Ok tt, with_files f st).

(** [datetime.now().isoformat()] *)
Definition now : M string :=
  fun st => (Ok (clock st (ticks st)), with_ticks (S (ticks st)) st).

End Store.

Declare Scope M_scope.
Delimit Scope M_scope with M.
Notation "x <- m ;; k" := (bind m (fun x => k))
  (at level 100, m at next level, right associativity) : M_scope.
Notation "m ;;; k" := (bind m (fun _ => k))
  (at level 100, k at level 200, right associativity) : M_scope.

Section Persistence.
Context `{PyRuntime}.
Local Open Scope M_scope.

(** [src.replace(dst)]: a rename that overwrites [dst].  A missing [src]
    is an [IOError], which [_write_db] turns into a [CafeDBError]. *)
Definition file_replace (src dst : Path) : M unit :=
  st <- get ;;
  match files st !! path_str src with
  | Some doc => set_files (<[path_str dst := doc]> (delete (path_str src) (files st)))
  | None => raise (CafeDBError "Failed to write database")
  end.

Definition file_write (p : Path) (doc : document) : M unit :=
  st <- get ;;
  set_files (<[path_str p := doc]> (files st)).

Definition path_exists (p : Path) : M bool :=
  st <- get ;; ret (bool_decide (is_Some (files st !! path_str p))).

(** [json.load(f)] returns the value of the file or raises: a
    [JSONDecodeError] for text that is not JSON, which [_read_db] turns
    into a [CafeDBError], as it does an [IOError]; or, for bytes that are
    not UTF-8 text, the [UnicodeDecodeError] of the read, which is neither
    and leaves [_read_db] as it is.  The messages of the two errors end
    with the text of the exception caught, which is left out. *)
Definition _read_db : M value :=
  st <- get ;;
  match files st !! path_str (db_path st) with
  | None => raise (CafeDBError "Cannot read database file")
  | Some doc =>
      match json_loads doc with
      | Some v => ret v
      | None =>
          if is_utf8 doc then raise (CafeDBError "Corrupted database file")
          else raise UnicodeDecodeError
      end
  end.

(** [self._data["_meta"][k] = v] *)
Definition set_meta (k : string) (v : value) : M unit :=
  data <- get_data ;;
  meta <- lift (py_getitem data "_meta") ;;
  meta' <- lift (py_setitem meta k v) ;;
  data' <- lift (py_setitem data "_meta" meta') ;;
  set_data data'.

Definition _write_db : M unit :=
  st <- get ;;
  exists_ <- path_exists (db_path st) ;;
  (if backup st && exists_
   then file_replace (db_path st) (with_suffix (db_path st) ".backup")
   else ret tt) ;;;
  let tmp_path :=
    with_suffix (db_path st) (path_suffix (db_path st) +:+ ".tmp") in
  data <- get_data ;;
  file_write tmp_path (json_dumps data) ;;;
  file_replace tmp_path (db_path st) ;;;
  stamp <- now ;;
  set_meta "last_modified" (VStr stamp).

Definition fresh_meta (created : string) : value :=
  VDict [("tables", VList []); ("created", VStr created);
         ("version", VStr "1.0.0")].

(** [if "_meta" not in self._data: self._data["_meta"] = {...}] *)
Definition ensure_meta : M unit :=
  data <- get_data ;;
  present <- lift (py_in (VStr "_meta") data) ;;
  if negb present then
    created <- now ;;
    data' <- lift (py_setitem data "_meta" (fresh_meta created)) ;;
    set_data data'
  else ret tt.

(** [CafeDB(db_path, backup=backup)] in a world with the given files and
    clock: the new instance, or the exception the constructor raises. *)
Definition __init__ (path : Path) (backup_ : bool)
    (files_ : gmap string document) (clock_ : nat -> string) (ticks_ : nat)
  : res State * State :=
  let st0 := {| db_path := path; backup := backup_; _data := VNull;
                files := files_; clock := clock_; ticks := ticks_ |} in
  (exists_ <- path_exists path ;;
   (if exists_ then
      data <- _read_db ;; set_data data
    else
      created <- now ;;
      set_data (VDict [("_meta", fresh_meta created)]) ;;;
      _write_db) ;;;
   ensure_meta ;;;
   get) st0.

(** [with self.transaction(): body] *)
Definition transaction {A} (body : M A) : M unit :=
  data <- get_data ;;
  match json_loads (json_dumps data) with
  | None => raise JSONDecodeError
  | Some backup_data =>
      fun st =>
        match (body ;;; _write_db) st with
        | (Ok _, st') => (Ok tt, st')
        | (Raise e, st') => (Raise e, with_data backup_data st')
        end
  end.

End Persistence.

(** ** The public operations *)

Inductive filter_arg : Type :=
  | FNone
  | FDict (filters : dict)
  | FCallable (f : value -> res bool)
  | FOther.

Inductive updater_arg : Type :=
  | UDict (updater : dict)
  | UCallable (f : value -> res value)
  | UOther.

Section Operations.
Context `{PyRuntime}.
Local Open Scope M_scope.

(** [self._data["_meta"]["tables"].copy()] *)
Definition list_tables_of (data : value) : res value :=
  (meta <- py_getitem data "_meta" ;;
   tables <- py_getitem meta "tables" ;;
   py_copy tables)%res.

Definition list_tables : M value :=
  data <- get_data ;; lift (list_tables_of data).

(** [table_name in self._data] *)
Definition exists_table (table_name : string) : M bool :=
  data <- get_data ;; lift (py_in (VStr table_name) data).

(** [', '.join(self.list_tables()) or 'none'] *)
Definition available_tables (data : value) : res string :=
  (tables <- list_tables_of data ;;
   joined <- py_join ", " tables ;;
   Ok (if String.eqb joined "" then "none" else joined))%res.

Definition not_found_available (table_name available : string) : exn :=
  TableNotFoundError
    ("Table '" +:+ table_name +:+ "' does not exist. " +:+
     "Available tables: " +:+ available).

Definition not_found_create_first (table_name : string) : exn :=
  TableNotFoundError
    ("Table '" +:+ table_name +:+ "' does not exist. " +:+
     "Use create_table('" +:+ table_name +:+ "') first.").

Definition not_found_plain (table_name : string) : exn :=
  TableNotFoundError ("Table '" +:+ table_name +:+ "' does not exist").

(** [self._data["_meta"]["tables"]] *)
Definition meta_tables : M value :=
  data <- get_data ;;
  meta <- lift (py_getitem data "_meta") ;;
  lift (py_getitem meta "tables").

(** [self._data[table_name] = v] *)
Definition set_table (table_name : string) (v : value) : M unit :=
  data <- get_data ;;
  data' <- lift (py_setitem data table_name v) ;;
  set_data data'.

(** [self._data[table_name]] *)
Definition get_table (table_name : string) : M value :=
  data <- get_data ;; lift (py_getitem data table_name).

Definition create_table (table_name : string) : M unit :=
  present <- exists_table table_name ;;
  if present then
    raise (TableExistsError
             ("Table '" +:+ table_name +:+ "' already exists. " +:+
              "Use drop_table() first or choose a different name."))
  else if str_startswith table_name "_" then
    raise (QueryError
             "Table names cannot start with underscore (reserved for internal use)")
  else
    set_table table_name (VList []) ;;;
    tables <- meta_tables ;;
    tables' <- lift (py_append tables (VStr table_name)) ;;
    set_meta "tables" tables' ;;;
    tables <- meta_tables ;;
    sorted <- lift (py_sorted Ok false tables) ;;
    set_meta "tables" (VList sorted) ;;;
    _write_db.

Definition drop_table (table_name : string) : M unit :=
  data <- get_data ;;
  present <- exists_table table_name ;;
  if negb present then
    available <- lift (available_tables data) ;;
    raise (not_found_available table_name available)
  else
    table <- get_table table_name ;;
    lift (py_len table) ;;;
    data' <- lift (py_delitem data table_name) ;;
    set_data data' ;;;
    tables <- meta_tables ;;
    tables' <- lift (py_remove tables (VStr table_name)) ;;
    set_meta "tables" tables' ;;;
    _write_db.

Definition insert (table_name : string) (row : value) : M unit :=
  present <- exists_table table_name ;;
  if negb present then raise (not_found_create_first table_name)
  else
    match row with
    | VDict r =>
        stamp <- now ;;
        let row_with_meta := VDict (dict_set r "_inserted_at" (VStr stamp)) in
        table <- get_table table_name ;;
        table' <- lift (py_append table row_with_meta) ;;
        set_table table_name table' ;;;
        _write_db
    | _ =>
        raise (QueryError
                 ("Row must be a dictionary, got " +:+ type_name row))
    end.

Definition insert_many (table_name : string) (rows : value) : M nat :=
  present <- exists_table table_name ;;
  if negb present then raise (not_found_create_first table_name)
  else
    match rows with
    | VList l =>
        timestamp <- now ;;
        rows_with_meta <-
          lift (map_res (fun row =>
                  match row with
                  | VDict r => Ok (VDict (dict_set r "_inserted_at" (VStr timestamp)))
                  | _ => Raise TypeError
                  end) l) ;;
        table <- get_table table_name ;;
        table' <- lift (py_extend table rows_with_meta) ;;
        set_table table_name table' ;;;
        _write_db ;;;
        ret (length l)
    | _ =>
        raise (QueryError ("Rows must be a list, got " +:+ type_name rows))
    end.

(** *** [select] *)

Definition apply_filters (filters : filter_arg) (rows : value) : res value :=
  match filters with
  | FNone => Ok rows
  | FCallable f =>
      (items <- py_iter rows ;; kept <- filter_res f items ;; Ok (VList kept))%res
  | FDict d =>
      (items <- py_iter rows ;;
       kept <- filter_res (condition_func d) items ;; Ok (VList kept))%res
  | FOther => Raise (QueryError "Filters must be dict, callable, or None")
  end.

(** [if rows and order_by not in (rows[0].keys() if rows else [])]: the
    test only prints, but it evaluates [rows[0].keys()]. *)
Definition order_by_warning (rows : value) : res unit :=
  if truthy rows then
    (first <- py_first rows ;;
     match first with
     | VDict _ => Ok tt
     | _ => Raise AttributeError
     end)%res
  else Ok tt.

Definition sort_key (order_by : string) (x : value) : res value :=
  py_get x order_by (VStr "").

Definition sort_key_str (order_by : string) (x : value) : res value :=
  (k <- py_get x order_by (VStr "") ;; Ok (VStr (py_str k)))%res.

Definition apply_sorting (order_by : option string) (reverse : bool)
    (rows : value) : res value :=
  match order_by with
  | None => Ok rows
  | Some field =>
      if String.eqb field "" then Ok rows
      else
        (order_by_warning rows ;;;
         sorted <- except_TypeError
                     (py_sorted (sort_key field) reverse rows)
                     (py_sorted (sort_key_str field) reverse rows) ;;
         Ok (VList sorted))%res
  end.

Definition apply_pagination (offset : Z) (limit : option Z) (rows : value)
  : res value :=
  (rows <- (if 0 <? offset then py_slice_from rows offset else Ok rows) ;;
   match limit with
   | Some m => py_slice_to rows m
   | None => Ok rows
   end)%res.

(** [{k: row.get(k) for k in fields}] *)
Fixpoint project (fields : list string) (row : value) (acc : dict) : res value :=
  match fields with
  | [] => Ok (VDict acc)
  | k :: fields' =>
      (v <- py_get row k VNull ;; project fields' row (dict_set acc k v))%res
  end.

Definition apply_projection (fields : option (list string)) (rows : value)
  : res (list value) :=
  (items <- py_iter rows ;;
   match fields with
   | Some fs => map_res (fun row => project fs row []) items
   | None => map_res py_copy items
   end)%res.

Definition select_rows (data : value) (table_name : string)
    (filters : filter_arg) (fields : option (list string))
    (limit : option Z) (offset : Z) (order_by : option string)
    (reverse : bool) : res (list value) :=
  (present <- py_in (VStr table_name) data ;;
   if negb present then
     available <- available_tables data ;;
     Raise (not_found_available table_name available)
   else
     rows <- py_getitem data table_name ;;
     rows <- apply_filters filters rows ;;
     rows <- apply_sorting order_by reverse rows ;;
     rows <- apply_pagination offset limit rows ;;
     apply_projection fields rows)%res.

Definition select (table_name : string) (filters : filter_arg)
    (fields : option (list string)) (limit : option Z) (offset : Z)
    (order_by : option string) (reverse : bool) : M (list value) :=
  data <- get_data ;;
  lift (select_rows data table_name filters fields limit offset order_by reverse).

(** [len(self.select(table_name, filters))] *)
Definition count (table_name : string) (filters : filter_arg) : M nat :=
  rows <- select table_name filters None None 0 None false ;;
  ret (length rows).

(** *** [update], [delete], [clear_table], [stats] *)

(** The condition function that [update] and [delete] build. *)
Definition build_condition (filters : filter_arg)
  : res (value -> res bool) :=
  match filters with
  | FCallable f => Ok f
  | FDict d => Ok (condition_func d)
  | _ => Raise (QueryError "Filters must be dict or callable")
  end.

(** [update_func]: a dictionary updater merges its fields into the row
    and stamps it; a callable is applied as it is. *)
Definition update_func (updater : updater_arg) (row : value) : M value :=
  match updater with
  | UCallable f => lift (f row)
  | UDict u =>
      match row with
      | VDict r =>
          stamp <- now ;;
          ret (VDict (dict_set (dict_merge r u) "_updated_at" (VStr stamp)))
      | _ => raise TypeError
      end
  | UOther => raise (QueryError "Updater must be dict or callable")
  end.

(** [table[i] = v].  On a dictionary Python adds the integer key [i] and
    the loop over it then stops with a [RuntimeError]; the integer key is
    not represented. *)
Definition py_setitem_index (table : value) (i : nat) (v : value) : res value :=
  match table with
  | VList l =>
      if Nat.ltb i (length l) then Ok (VList (<[i := v]> l))
      else Raise IndexError
  | VDict _ => Raise RuntimeError
  | _ => Raise TypeError
  end.

(** [for i, row in enumerate(self._data[table_name])], from index [i]
    on, with [updated_count] updates made so far. *)
Fixpoint update_loop (condition : value -> res bool) (updater : updater_arg)
    (table_name : string) (i : nat) (items : list value)
    (updated_count : nat) : M nat :=
  match items with
  | [] => ret updated_count
  | row :: rest =>
      b <- lift (condition row) ;;
      if b then
        new_row <- update_func updater row ;;
        table <- get_table table_name ;;
        table' <- lift (py_setitem_index table i new_row) ;;
        set_table table_name table' ;;;
        update_loop condition updater table_name (S i) rest (S updated_count)
      else
        update_loop condition updater table_name (S i) rest updated_count
  end.

Definition update (table_name : string) (filters : filter_arg)
    (updater : updater_arg) : M nat :=
  present <- exists_table table_name ;;
  if negb present then raise (not_found_plain table_name)
  else
    condition <- lift (build_condition filters) ;;
    match updater with
    | UOther => raise (QueryError "Updater must be dict or callable")
    | _ =>
        table <- get_table table_name ;;
        items <- lift (py_iter table) ;;
        updated_count <- update_loop condition updater table_name 0 items 0 ;;
        (if Nat.ltb 0 updated_count then _write_db else ret tt) ;;;
        ret updated_count
    end.

Definition delete (table_name : string) (filters : filter_arg) : M nat :=
  present <- exists_table table_name ;;
  if negb present then raise (not_found_plain table_name)
  else
    table <- get_table table_name ;;
    original_len <- lift (py_len table) ;;
    condition <- lift (build_condition filters) ;;
    items <- lift (py_iter table) ;;
    kept <- lift (filter_res (fun r => b <- condition r ;; Ok (negb b))%res items) ;;
    set_table table_name (VList kept) ;;;
    let deleted_count := (original_len - length kept)%nat in
    (if Nat.ltb 0 deleted_count then _write_db else ret tt) ;;;
    ret deleted_count.

Definition clear_table (table_name : string) : M nat :=
  present <- exists_table table_name ;;
  if negb present then raise (not_found_plain table_name)
  else
    table <- get_table table_name ;;
    row_count <- lift (py_len table) ;;
    set_table table_name (VList []) ;;;
    _write_db ;;;
    ret row_count.

(** [stats(table_name)["total_rows"]].  The per-field statistics are
    percentages, averages and an encoded size: they are outside this
    model, and only the row count of the report is kept. *)
Definition stats (table_name : string) : M nat :=
  present <- exists_table table_name ;;
  if negb present then raise (not_found_plain table_name)
  else
    rows <- get_table table_name ;;
    lift (py_len rows).

End Operations.

(** ** A reference runtime

    A small, executable instance of [PyRuntime], used to run the
    operations on concrete stores: files hold the JSON tree itself,
    [lower] is the ASCII one, [str] writes integers in decimal and
    containers without escapes, and the regular expressions are the
    fragment that wildcard patterns translate to (literal characters, [.],
    a starred atom, [^] first and [$] last), matched without regard to
    case. *)

Module Reference.

Definition lower_ascii (c : ascii) : ascii :=
  let n := nat_of_ascii c in
  if Nat.leb 65 n && Nat.leb n 90 then ascii_of_nat (n + 32) else c.

Fixpoint lower (s : string) : string :=
  match s with
  | EmptyString => EmptyString
  | String c s' => String (lower_ascii c) (lower s')
  end.

Inductive atom : Type := AChar (c : ascii) | AAny.
Inductive rx : Type := ROne (a : atom) | RStar (a : atom) | REnd.

Definition atom_ok (a : atom) (c : ascii) : bool :=
  match a with
  | AAny => true
  | AChar c' => Ascii.eqb (lower_ascii c') (lower_ascii c)
  end.

Fixpoint parse (p : string) : list rx :=
  match p with
  | EmptyString => []
  | String c p' =>
      let a := if Ascii.eqb c "." then AAny else AChar c in
      match p' with
      | String "*" p'' => RStar a :: parse p''
      | _ => if Ascii.eqb c "$" && String.eqb p' "" then [REnd]
             else ROne a :: parse p'
      end
  end.

Fixpoint match_here (p : list rx) (s : string) : bool :=
  match p with
  | [] => true
  | REnd :: _ => String.eqb s ""
  | ROne a :: p' =>
      match s with
      | String c s' => atom_ok a c && match_here p' s'
      | EmptyString => false
      end
  | RStar a :: p' =>
      (fix star (s : string) : bool :=
         match_here p' s ||
         match s with
         | String c s' => atom_ok a c && star s'
         | EmptyString => false
         end) s
  end.

Fixpoint search_here (p : list rx) (s : string) : bool :=
  match_here p s ||
  match s with
  | String _ s' => search_here p s'
  | EmptyString => false
  end.

Definition strip_caret (p : string) : bool * string :=
  match p with
  | String "^" p' => (true, p')
  | _ => (false, p)
  end.

Definition ref_match (pattern text : string) : option bool :=
  Some (match_here (parse (snd (strip_caret pattern))) text).

Definition ref_search (pattern text : string) : option bool :=
  let '(anchored, p) := strip_caret pattern in
  Some (if anchored then match_here (parse p) text
        else search_here (parse p) text).

Definition digit (n : nat) : string :=
  String (ascii_of_nat (48 + n)) EmptyString.

Fixpoint decimal (fuel n : nat) : string :=
  match fuel with
  | O => ""
  | S fuel' =>
      if Nat.ltb n 10 then digit n
      else decimal fuel' (n / 10) +:+ digit (n mod 10)
  end.

Definition str_of_Z (z : Z) : string :=
  let n := Z.to_nat (Z.abs z) in
  (if z <? 0 then "-" else "") +:+ decimal (S n) n.

Fixpoint repr_of (v : value) : string :=
  match v with
  | VNull => "None"
  | VBool b => if b then "True" else "False"
  | VInt z => str_of_Z z
  | VStr s => "'" +:+ s +:+ "'"
  | VList l => "[" +:+ str_join ", " (map repr_of l) +:+ "]"
  | VDict d =>
      "{" +:+ str_join ", "
                (map (fun '(k, v) => "'" +:+ k +:+ "': " +:+ repr_of v) d)
          +:+ "}"
  end.

Definition str_of (v : value) : string :=
  match v with
  | VStr s => s
  | _ => repr_of v
  end.

#[global] Instance runtime : PyRuntime := {
  re_match := ref_match;
  re_search := ref_search;
  str_lower := lower;
  py_str := str_of;
  document := value;
  json_dumps := fun v => v;
  json_loads := Some;
  is_utf8 := fun _ => true
}.

End Reference.

(** ** JSON text

    The text that [json.dump(v, f, indent=2, ensure_ascii=False)] writes
    for a tree, and a reader of JSON text for [json.load].  Numbers with a
    fraction or an exponent and escapes of characters beyond ASCII are
    outside this model: the reader rejects them. *)

Module Json.
Import Decimal.

Definition quote : ascii := ascii_of_nat 34.
Definition backslash : ascii := ascii_of_nat 92.
Definition newline : ascii := ascii_of_nat 10.

Definition hex_digit (n : nat) : ascii :=
  if Nat.ltb n 10 then ascii_of_nat (48 + n) else ascii_of_nat (87 + n).

(** What the encoder writes for one character of a string. *)
Definition escape_char (c : ascii) : string :=
  let n := nat_of_ascii c in
  if Ascii.eqb c quote then String backslash (String quote "")
  else if Ascii.eqb c backslash then String backslash (String backslash "")
  else if Nat.eqb n 10 then String backslash "n"
  else if Nat.eqb n 13 then String backslash "r"
  else if Nat.eqb n 9 then String backslash "t"
  else if Nat.eqb n 8 then String backslash "b"
  else if Nat.eqb n 12 then String backslash "f"
  else if Nat.ltb n 32 then
    String backslash
      (String "u" (String "0" (String "0"
         (String (hex_digit (n / 16)) (String (hex_digit (n mod 16)) "")))))
  else String c "".

Fixpoint escape (s : string) : string :=
  match s with
  | EmptyString => EmptyString
  | String c s' => escape_char c +:+ escape s'
  end.

Definition dumps_str (s : string) : string :=
  String quote (escape s +:+ String quote "").

Fixpoint digits (d : uint) : string :=
  match d with
  | Nil => ""
  | D0 d' => String "0" (digits d')
  | D1 d' => String "1" (digits d')
  | D2 d' => String "2" (digits d')
  | D3 d' => String "3" (digits d')
  | D4 d' => String "4" (digits d')
  | D5 d' => String "5" (digits d')
  | D6 d' => String "6" (digits d')
  | D7 d' => String "7" (digits d')
  | D8 d' => String "8" (digits d')
  | D9 d' => String "9" (digits d')
  end.

Definition dumps_int (z : Z) : string :=
  match Z.to_int z with
  | Pos d => digits d
  | Neg d => String "-" (digits d)
  end.

Fixpoint spaces (n : nat) : string :=
  match n with
  | O => ""
  | S n' => String " " (spaces n')
  end.

(** A line break and the indentation of a nesting level. *)
Definition break (level : nat) : string :=
  String newline (spaces (2 * level)).

(** The items of a container, one per line at [level]. *)
Fixpoint lines (level : nat) (items : list string) : string :=
  match items with
  | [] => ""
  | [x] => x
  | x :: items' => x +:+ String "," (break level +:+ lines level items')
  end.

Fixpoint dumps_at (level : nat) (v : value) : string :=
  match v with
  | VNull => "null"
  | VBool true => "true"
  | VBool false => "false"
  | VInt z => dumps_int z
  | VStr s => dumps_str s
  | VList [] => "[]"
  | VList l =>
      String "[" (break (S level) +:+
                  lines (S level) (map (dumps_at (S level)) l) +:+
                  break level +:+ "]")
  | VDict [] => "{}"
  | VDict d =>
      String "{" (break (S level) +:+
                  lines (S level)
                    (map (fun kv => dumps_str (fst kv) +:+ ": " +:+
                                    dumps_at (S level) (snd kv)) d) +:+
                  break level +:+ "}")
  end.

Definition dumps (v : value) : string := dumps_at 0 v.

(** *** The reader *)

Definition is_ws (c : ascii) : bool :=
  let n := nat_of_ascii c in
  Nat.eqb n 32 || Nat.eqb n 10 || Nat.eqb n 13 || Nat.eqb n 9.

Fixpoint skip_ws (s : string) : string :=
  match s with
  | String c s' => if is_ws c then skip_ws s' else s
  | EmptyString => EmptyString
  end.

Definition digit_value (c : ascii) : option (uint -> uint) :=
  match nat_of_ascii c - 48 with
  | 0 => if Ascii.eqb c "0" then Some D0 else None
  | 1 => Some D1 | 2 => Some D2 | 3 => Some D3 | 4 => Some D4 | 5 => Some D5
  | 6 => Some D6 | 7 => Some D7 | 8 => Some D8 | 9 => Some D9
  | _ => None
  end%nat.

(** The longest run of digits at the head of the text. *)
Fixpoint read_digits (s : string) : uint * string :=
  match s with
  | String c s' =>
      match digit_value c with
      | Some d => let '(ds, rest) := read_digits s' in (d ds, rest)
      | None => (Nil, s)
      end
  | EmptyString => (Nil, EmptyString)
  end.

(** A fraction or an exponent follows: the number is not an integer. *)
Definition float_follows (s : string) : bool :=
  match s with
  | String c _ => Ascii.eqb c "." || Ascii.eqb c "e" || Ascii.eqb c "E"
  | EmptyString => false
  end.

(** An integer: an optional minus sign and digits without a leading
    zero. *)
Definition read_int (s : string) : option (Z * string) :=
  let '(negative, s') :=
    match s with
    | String c s' => if Ascii.eqb c "-" then (true, s') else (false, s)
    | EmptyString => (false, s)
    end in
  let '(ds, rest) := read_digits s' in
  if uint_beq (unorm ds) ds && negb (float_follows rest)
  then Some (Z.of_int (if negative then Neg ds else Pos ds), rest)
  else None.

Definition hex_value (c : ascii) : option nat :=
  let n := nat_of_ascii c in
  if Nat.leb 48 n && Nat.leb n 57 then Some (n - 48)%nat
  else if Nat.leb 97 n && Nat.leb n 102 then Some (n - 87)%nat
  else if Nat.leb 65 n && Nat.leb n 70 then Some (n - 55)%nat
  else None.

(** The characters of a string up to its closing quote. *)
Fixpoint read_str (fuel : nat) (s : string) : option (string * string) :=
  match fuel with
  | O => None
  | S fuel' =>
      match s with
      | EmptyString => None
      | String c s' =>
          if Ascii.eqb c quote then Some (EmptyString, s')
          else if Ascii.eqb c backslash then
            match s' with
            | String e s'' =>
                let continue (c' : ascii) (rest : string) :=
                  match read_str fuel' rest with
                  | Some (str, r) => Some (String c' str, r)
                  | None => None
                  end in
                if Ascii.eqb e quote then continue quote s''
                else if Ascii.eqb e backslash then continue backslash s''
                else if Ascii.eqb e "/" then continue "/"%char s''
                else if Ascii.eqb e "n" then continue (ascii_of_nat 10) s''
                else if Ascii.eqb e "r" then continue (ascii_of_nat 13) s''
                else if Ascii.eqb e "t" then continue (ascii_of_nat 9) s''
                else if Ascii.eqb e "b" then continue (ascii_of_nat 8) s''
                else if Ascii.eqb e "f" then continue (ascii_of_nat 12) s''
                else if Ascii.eqb e "u" then
                  match s'' with
                  | String h1 (String h2 (String h3 (String h4 rest))) =>
                      match hex_value h1, hex_value h2, hex_value h3,
                            hex_value h4 with
                      | Some 0%nat, Some 0%nat, Some a, Some b =>
                          if Nat.ltb (16 * a + b) 128
                          then continue (ascii_of_nat (16 * a + b)) rest
                          else None
                      | _, _, _, _ => None
                      end
                  | _ => None
                  end
                else None
            | EmptyString => None
            end
          else if Nat.ltb (nat_of_ascii c) 32 then None
          else
            match read_str fuel' s' with
            | Some (str, r) => Some (String c str, r)
            | None => None
            end
      end
  end.

Definition expect (word : string) (v : value) (s : string)
  : option (value * string) :=
  if String.prefix word s
  then Some (v, str_drop (String.length word) s)
  else None.

(** [dict(pairs)]: a key that comes again takes the later value. *)
Definition dict_of_pairs (pairs : dict) : dict :=
  fold_left (fun acc kv => dict_set acc (fst kv) (snd kv)) pairs [].

(** The text starts, after blanks, with the character [c]: what follows
    it. *)
Definition after (c : ascii) (s : string) : option string :=
  match skip_ws s with
  | String c' r => if Ascii.eqb c' c then Some r else None
  | EmptyString => None
  end.

Fixpoint read_value (fuel : nat) (s : string) : option (value * string) :=
  match fuel with
  | O => None
  | S fuel' =>
      match skip_ws s with
      | EmptyString => None
      | String c r =>
          if Ascii.eqb c "n" then expect "ull" VNull r
          else if Ascii.eqb c "t" then expect "rue" (VBool true) r
          else if Ascii.eqb c "f" then expect "alse" (VBool false) r
          else if Ascii.eqb c quote then
            match read_str (S (String.length r)) r with
            | Some (str, r') => Some (VStr str, r')
            | None => None
            end
          else if Ascii.eqb c "[" then
            match after "]" r with
            | Some r' => Some (VList [], r')
            | None =>
                match read_items fuel' r with
                | Some (items, r') => Some (VList items, r')
                | None => None
                end
            end
          else if Ascii.eqb c "{" then
            match after "}" r with
            | Some r' => Some (VDict [], r')
            | None =>
                match read_members fuel' r with
                | Some (pairs, r') => Some (VDict (dict_of_pairs pairs), r')
                | None => None
                end
            end
          else
            match read_int (String c r) with
            | Some (z, r') => Some (VInt z, r')
            | None => None
            end
      end
  end
with read_items (fuel : nat) (s : string) : option (list value * string) :=
  match fuel with
  | O => None
  | S fuel' =>
      match read_value fuel' s with
      | Some (v, r) =>
          match after "," r with
          | Some r' =>
              match read_items fuel' r' with
              | Some (vs, r'') => Some (v :: vs, r'')
              | None => None
              end
          | None =>
              match after "]" r with
              | Some r' => Some ([v], r')
              | None => None
              end
          end
      | None => None
      end
  end
with read_members (fuel : nat) (s : string) : option (dict * string) :=
  match fuel with
  | O => None
  | S fuel' =>
      match after quote s with
      | Some r =>
          match read_str (S (String.length r)) r with
          | Some (key, r1) =>
              match after ":" r1 with
              | Some r2 =>
                  match read_value fuel' r2 with
                  | Some (v, r3) =>
                      match after "," r3 with
                      | Some r4 =>
                          match read_members fuel' r4 with
                          | Some (pairs, r5) => Some ((key, v) :: pairs, r5)
                          | None => None
                          end
                      | None =>
                          match after "}" r3 with
                          | Some r4 => Some ([(key, v)], r4)
                          | None => None
                          end
                      end
                  | None => None
                  end
              | None => None
              end
          | None => None
          end
      | None => None
      end
  end.

(** [json.loads(s)]: one value, and nothing but blanks after it. *)
Definition loads (s : string) : option value :=
  match read_value (S (String.length s)) s with
  | Some (v, rest) =>
      match skip_ws rest with
      | EmptyString => Some v
      | _ => None
      end
  | None => None
  end.
(** *** What reading back is stated with *)

(** The text does not go on with a digit. *)
Definition no_digit (s : string) : Prop :=
  match s with
  | String c _ => digit_value c = None
  | EmptyString => True
  end.

(** What may follow a value in a text: neither a digit nor the start of a
    fraction or an exponent. *)
Definition terminated (s : string) : Prop :=
  no_digit s /\ float_follows s = false.

(** The characters a value can start with. *)
Definition value_head (c : ascii) : bool :=
  Ascii.eqb c "n" || Ascii.eqb c "t" || Ascii.eqb c "f" ||
  Ascii.eqb c quote || Ascii.eqb c "[" || Ascii.eqb c "{" ||
  Ascii.eqb c "-" ||
  match digit_value c with Some _ => true | None => false end.

Definition starts_value (s : string) : Prop :=
  exists c s', s = String c s' /\ value_head c = true.

(** The text of one member of a dict. *)
Definition member (level : nat) (kv : string * value) : string :=
  dumps_str (fst kv) +:+ ": " +:+ dumps_at level (snd kv).

(** Fuel that is enough to read a value back. *)
Fixpoint size (v : value) : nat :=
  match v with
  | VList l => S (list_sum (map (fun x => S (size x)) l))
  | VDict d => S (list_sum (map (fun kv => S (size (snd kv))) d))
  | _ => 1
  end.

(** Trees whose dicts hold each key once: the values of Python. *)
Inductive wf : value -> Prop :=
  | wf_null : wf VNull
  | wf_bool b : wf (VBool b)
  | wf_int z : wf (VInt z)
  | wf_str s : wf (VStr s)
  | wf_list l : Forall wf l -> wf (VList l)
  | wf_dict d :
      NoDup (dict_keys d) -> Forall (fun kv => wf (snd kv)) d -> wf (VDict d).

(** The reader returns [v] from its text at any nesting level, whatever
    follows the text. *)
Definition reads_back (v : value) : Prop :=
  forall (level fuel : nat) (rest : string),
    (size v <= fuel)%nat -> terminated rest ->
    read_value fuel (dumps_at level v +:+ rest) = Some (v, rest).

End Json.

(** ** A runtime whose files hold text

    The reference runtime with the JSON text codec: a file holds the
    characters that [json.dump] writes. *)

Module Text.

Definition runtime : PyRuntime := {|
  re_match := Reference.ref_match;
  re_search := Reference.ref_search;
  str_lower := Reference.lower;
  py_str := Reference.str_of;
  document := string;
  json_dumps := Json.dumps;
  json_loads := Json.loads;
  is_utf8 := fun _ => true
|}.

End Text.

(** ** A runtime whose files hold bytes

    A file holds text, as above, or bytes that are not UTF-8 text, of
    which no more is said. *)

Module Binary.

Inductive content : Type :=
  | Utf8 (text : string)
  | Undecodable.

Definition runtime : PyRuntime := {|
  re_match := Reference.ref_match;
  re_search := Reference.ref_search;
  str_lower := Reference.lower;
  py_str := Reference.str_of;
  document := content;
  json_dumps := fun v => Utf8 (Json.dumps v);
  json_loads := fun c =>
    match c with
    | Utf8 text => Json.loads text
    | Undecodable => None
    end;
  is_utf8 := fun c =>
    match c with
    | Utf8 _ => true
    | Undecodable => false
    end
|}.

End Binary.

(** ** Objects and references

    What [select] returns shares objects with the store or not: to tell,
    dictionaries and lists are objects in a heap, and a value is a scalar
    or a reference to an object.  An object is allocated at the end of
    the heap, so its address is the length of the heap before. *)

Module Heap.

Inductive pyval : Type :=
  | PNull
  | PBool (b : bool)
  | PInt (z : Z)
  | PStr (s : string)
  | PRef (l : nat).

Inductive obj : Type :=
  | ODict (items : list (string * pyval))
  | OList (items : list pyval).

Definition heap : Type := list obj.

Definition alloc (o : obj) (h : heap) : pyval * heap :=
  (PRef (length h), h ++ [o]).

(** The tree that a value denotes in a heap, read to the depth [fuel]. *)
Fixpoint reify (fuel : nat) (h : heap) (v : pyval) : value :=
  match v with
  | PNull => VNull
  | PBool b => VBool b
  | PInt z => VInt z
  | PStr s => VStr s
  | PRef l =>
      match fuel with
      | O => VNull
      | S fuel' =>
          match h !! l with
          | Some (ODict items) =>
              VDict (map (fun kv => (fst kv, reify fuel' h (snd kv))) items)
          | Some (OList items) => VList (map (reify fuel' h) items)
          | None => VNull
          end
      end
  end.

(** The tree of a value, read deep enough for a heap without cycles. *)
Definition view (h : heap) (v : pyval) : value := reify (S (length h)) h v.

(** [target[k]] *)
Definition getitem (h : heap) (target : pyval) (k : string) : res pyval :=
  match target with
  | PRef l =>
      match h !! l with
      | Some (ODict items) =>
          match dict_get items k with
          | Some v => Ok v
          | None => Raise (KeyError (VStr k))
          end
      | _ => Raise TypeError
      end
  | _ => Raise TypeError
  end.

(** [target[k] = v]: the dictionary object changes in place. *)
Definition setitem (h : heap) (target : pyval) (k : string) (v : pyval)
  : res heap :=
  match target with
  | PRef l =>
      match h !! l with
      | Some (ODict items) => Ok (<[l := ODict (dict_set items k v)]> h)
      | _ => Raise TypeError
      end
  | _ => Raise TypeError
  end.

(** [del target[k]] *)
Definition delitem (h : heap) (target : pyval) (k : string) : res heap :=
  match target with
  | PRef l =>
      match h !! l with
      | Some (ODict items) =>
          if dict_mem items k then Ok (<[l := ODict (dict_del items k)]> h)
          else Raise (KeyError (VStr k))
      | _ => Raise TypeError
      end
  | _ => Raise TypeError
  end.

(** [target.append(x)]: the list object changes in place. *)
Definition append (h : heap) (target x : pyval) : res heap :=
  match target with
  | PRef l =>
      match h !! l with
      | Some (OList items) => Ok (<[l := OList (items ++ [x])]> h)
      | _ => Raise AttributeError
      end
  | _ => Raise AttributeError
  end.

(** [row.copy()]: a new object with the items of the old one, the items
    themselves being shared. *)
Definition copy_row (h : heap) (row : pyval) : res (pyval * heap) :=
  match row with
  | PRef l =>
      match h !! l with
      | Some o => Ok (alloc o h)
      | None => Raise AttributeError
      end
  | _ => Raise AttributeError
  end.

(** [row.get(k)] *)
Definition get_or_null (h : heap) (row : pyval) (k : string) : res pyval :=
  match row with
  | PRef l =>
      match h !! l with
      | Some (ODict items) =>
          Ok (match dict_get items k with Some v => v | None => PNull end)
      | _ => Raise AttributeError
      end
  | _ => Raise AttributeError
  end.

(** The items of [{k: row.get(k) for k in fields}]. *)
Fixpoint project_items (h : heap) (fields : list string) (row : pyval)
    (acc : list (string * pyval)) : res (list (string * pyval)) :=
  match fields with
  | [] => Ok acc
  | k :: fields' =>
      (v <- get_or_null h row k ;;
       project_items h fields' row (dict_set acc k v))%res
  end.

Definition project_row (fields : list string) (h : heap) (row : pyval)
  : res (pyval * heap) :=
  (items <- project_items h fields row [] ;; Ok (alloc (ODict items) h))%res.

(** A list comprehension that allocates: the rows in turn, each in the
    heap the one before left. *)
Fixpoint map_heap (f : heap -> pyval -> res (pyval * heap)) (h : heap)
    (rows : list pyval) : res (list pyval * heap) :=
  match rows with
  | [] => Ok ([], h)
  | row :: rows' =>
      (r <- f h row ;;
       rs <- map_heap f (snd r) rows' ;;
       Ok (fst r :: fst rs, snd rs))%res
  end.

(** The last stage of [select]. *)
Definition apply_projection (fields : option (list string)) (h : heap)
    (rows : list pyval) : res (list pyval * heap) :=
  match fields with
  | Some fs => map_heap (project_row fs) h rows
  | None => map_heap copy_row h rows
  end.

Section Select.
Context `{PyRuntime}.

(** [sorted(rows, key=..., reverse=...)] on rows paired with their
    trees. *)
Definition sorted_rows (key : value -> res value) (reverse : bool)
    (rows : list (value * pyval)) : res (list (value * pyval)) :=
  (keys <- map_res (fun p => key (fst p)) rows ;;
   match sort_by (fun a b => py_cmp Lt (fst a) (fst b)) reverse
                 (combine keys rows) with
   | Some sorted => Ok (map snd sorted)
   | None => Raise TypeError
   end)%res.

(** The stages of [select] before the projection, on a table that is a
    list of rows: each row goes with the tree it denotes, on which the
    filter and the sort key are evaluated. *)
Definition select_refs (h : heap) (table : list pyval) (filters : filter_arg)
    (limit : option Z) (offset : Z) (order_by : option string)
    (reverse : bool) : res (list pyval) :=
  let rows := map (fun r => (view h r, r)) table in
  (rows <- match filters with
           | FNone => Ok rows
           | FCallable f => filter_res (fun p => f (fst p)) rows
           | FDict d => filter_res (fun p => condition_func d (fst p)) rows
           | FOther => Raise (QueryError "Filters must be dict, callable, or None")
           end ;;
   rows <- match order_by with
           | None => Ok rows
           | Some field =>
               if String.eqb field "" then Ok rows
               else
                 order_by_warning (VList (map fst rows)) ;;;
                 except_TypeError
                   (sorted_rows (sort_key field) reverse rows)
                   (sorted_rows (sort_key_str field) reverse rows)
           end ;;
   let rows := if 0 <? offset then skipn (Z.to_nat offset) rows else rows in
   let rows := match limit with
               | Some m => firstn (slice_end (length rows) m) rows
               | None => rows
               end in
   Ok (map snd rows))%res.

(** [select] on a table of rows in the heap: the rows it returns and the
    heap with the objects it allocated. *)
Definition select (h : heap) (table : list pyval) (filters : filter_arg)
    (fields : option (list string)) (limit : option Z) (offset : Z)
    (order_by : option string) (reverse : bool)
  : res (list pyval * heap) :=
  (rows <- select_refs h table filters limit offset order_by reverse ;;
   apply_projection fields h rows)%res.

End Select.

(** Every reference held by an object of the heap is to an object of the
    heap. *)
Definition refs_below (n : nat) (v : pyval) : Prop :=
  match v with PRef l => (l < n)%nat | _ => True end.

Definition obj_values (o : obj) : list pyval :=
  match o with
  | ODict items => map snd items
  | OList items => items
  end.

Definition closed (h : heap) : Prop :=
  Forall (fun o => Forall (refs_below (length h)) (obj_values o)) h.

(** A row goes with the tree it denotes. *)
Definition paired (h : heap) (p : value * pyval) : Prop :=
  fst p = view h (snd p).

(** A row of a table: a reference to a dictionary. *)
Definition dict_row (h : heap) (row : pyval) : Prop :=
  exists l items, row = PRef l /\ h !! l = Some (ODict items).

(** What [row.copy()] allocates: the object of the row. *)
Definition copy_of (h : heap) (row : pyval) (o : obj) : Prop :=
  exists l, row = PRef l /\ h !! l = Some o.

(** What the projection allocates: a dictionary whose keys are the fields
    asked for, each once, with the value the row has for the field, or
    null. *)
Definition projection_of (fields : list string) (h : heap) (row : pyval)
    (o : obj) : Prop :=
  exists items',
    o = ODict items' /\
    NoDup (dict_keys items') /\
    (forall k, In k (dict_keys items') <-> In k fields) /\
    (fields <> [] ->
     exists l items,
       row = PRef l /\ h !! l = Some (ODict items) /\
       forall k, In k fields ->
         dict_get items' k =
         Some (match dict_get items k with Some v => v | None => PNull end)).

(** A user whose tags are a list: the list is an object of its own. *)
Definition example_heap : heap :=
  [OList [PStr "a"];
   ODict [("name", PStr "Alice"); ("tags", PRef 0)]].

Definition example_table : list pyval := [PRef 1].

End Heap.

(** ** Notions the properties are stated with *)

(** The fifteen operators that [_match_condition] knows. *)
Definition known_operators : list string :=
  ["$eq"; "$ne"; "$gt"; "$gte"; "$lt"; "$lte"; "$in"; "$nin"; "$like";
   "$regex"; "$contains"; "$startswith"; "$endswith"; "$between"; "$exists"].

Definition is_known_operator (op : string) : bool :=
  existsb (String.eqb op) known_operators.

Definition is_dict (v : value) : Prop :=
  match v with VDict _ => True | _ => False end.

(** [v.copy()] is defined: [v] is a list or a dictionary. *)
Definition copyable (v : value) : Prop :=
  match v with VList _ | VDict _ => True | _ => False end.

(** The sort key of a record: the value of the field, or the empty
    string when the record has no such field. *)
Definition key_of (field : string) (row : value) : value :=
  match row with
  | VDict r =>
      match dict_get r field with
      | Some x => x
      | None => VStr ""
      end
  | _ => VNull
  end.

(** [a] may stand before [b] in ascending order: a comparison by [lt]
    put it there. *)
Definition placed {A} (lt : A -> A -> option bool) (a b : A) : Prop :=
  lt a b = Some true \/ lt b a = Some false.

Definition precedes : value -> value -> Prop := placed (py_cmp Lt).

Definition ascending (keys : list value) : Prop := Sorted precedes keys.

(** The condition that the filter argument of [select] stands for: a
    dictionary is evaluated by [condition_func], a callable is applied to
    the row, and without a filter every row passes. *)
Definition filter_condition `{PyRuntime} (filters : filter_arg)
  : option (value -> res bool) :=
  match filters with
  | FNone => Some (fun _ => Ok true)
  | FDict d => Some (condition_func d)
  | FCallable f => Some f
  | FOther => None
  end.

(** The rows are in the order of their keys under [field], ascending, or
    descending under [reverse]: of the keys themselves or, where some two
    of the keys do not compare, of their string forms. *)
Definition in_key_order `{PyRuntime} (field : string) (reverse : bool)
    (rows : list value) : Prop :=
  let in_order := if reverse then rev rows else rows in
  ascending (map (key_of field) in_order) \/
  ((exists a b, In a rows /\ In b rows /\
                py_cmp Lt (key_of field a) (key_of field b) = None) /\
   ascending (map (fun x => VStr (py_str (key_of field x))) in_order)).

(** [full] is the sequence that [order_by] asks for of the rows
    [matching]: a rearrangement of them in the order of their keys, or,
    without a sort field, the rows as they are. *)
Definition arranged `{PyRuntime} (order_by : option string) (reverse : bool)
    (matching full : list value) : Prop :=
  match order_by with
  | Some field =>
      if String.eqb field "" then full = matching
      else Permutation matching full /\ in_key_order field reverse full
  | None => full = matching
  end.

(** The keys of the rows under [field] are integers. *)
Definition int_keyed (field : string) (rows : list value) : Prop :=
  exists ks : list Z, map (key_of field) rows = map VInt ks.

(** The keys of the rows under [field] are integers, no two the same. *)
Definition distinct_int_keys (field : string) (rows : list value) : Prop :=
  exists ks : list Z, map (key_of field) rows = map VInt ks /\ NoDup ks.

(** The key of the row under [field] is the integer [z]. *)
Definition has_int_key (field : string) (z : Z) (row : value) : bool :=
  match key_of field row with
  | VInt k => k =? z
  | _ => false
  end.

(** The message an exception carries. *)
Definition message (e : exn) : string :=
  match e with
  | CafeDBError msg | TableNotFoundError msg | TableExistsError msg
  | QueryError msg | UserError msg => msg
  | _ => ""
  end.

(** The message names every one of the tables. *)
Definition enumerates (msg : string) (names : list string) : Prop :=
  Forall (fun t => str_contains t msg = true) names.

(** The invariant of the store: it is a dictionary without repeated keys
    whose metadata lists, once each, exactly the keys other than
    ["_meta"], none of which starts with an underscore. *)
Definition store_invariant (data : value) : Prop :=
  exists (d meta : dict) (names : list string),
    data = VDict d /\
    NoDup (dict_keys d) /\
    dict_get d "_meta" = Some (VDict meta) /\
    dict_get meta "tables" = Some (VList (map VStr names)) /\
    NoDup names /\
    (forall k, In k names <-> k <> "_meta" /\ dict_mem d k = true) /\
    Forall (fun k => str_startswith k "_" = false) names.

(** ** A store to run the operations on *)

Module Example.

Definition alice : value := VDict [("name", VStr "Alice"); ("age", VInt 28)].
Definition bob : value := VDict [("name", VStr "Bob"); ("age", VInt 34)].

Definition path : Path := {| path_base := "demo"; path_suffix := ".json" |}.

Definition stamps (n : nat) : string :=
  "T" +:+ Reference.str_of_Z (Z.of_nat n).

Definition users_data : value :=
  VDict [("_meta", VDict [("tables", VList [VStr "users"]);
                          ("created", VStr "T0");
                          ("version", VStr "1.0.0")]);
         ("users", VList [alice; bob])].

Definition store : State :=
  {| db_path := path; backup := false; _data := users_data;
     files := ∅; clock := stamps; ticks := 1 |}.

(** The same store with files that hold text. *)
Definition text_store : @State Text.runtime :=
  {| db_path := path; backup := false; _data := users_data;
     files := ∅; clock := stamps; ticks := 1 |}.

End Example.

(** ** [info] *)

Section Info.
Context `{PyRuntime}.
Local Open Scope M_scope.

(** [self._data[table]] for an item [table] of the list of tables.  The
    keys of the store are strings: another scalar is no key of it, and a
    list or a dictionary cannot be a key at all.  [info] evaluates this
    after [self._data["_meta"]], so on a store that is a dictionary. *)
Definition table_rows (data table : value) : res value :=
  match table with
  | VStr table_name => py_getitem data table_name
  | VList _ | VDict _ => Raise TypeError
  | _ =>
      match data with
      | VDict _ => Raise (KeyError table)
      | _ => Raise TypeError
      end
  end.

(** [for table in self.list_tables():
       tables_info[table] = {"row_count": len(self._data[table])}] *)
Fixpoint tables_info_loop (data : value) (tables : list value)
    (tables_info : dict) : res dict :=
  match tables with
  | [] => Ok tables_info
  | table :: rest =>
      (rows <- table_rows data table ;;
       row_count <- py_len rows ;;
       match table with
       | VStr table_name =>
           tables_info_loop data rest
             (dict_set tables_info table_name
                (VDict [("row_count", VInt (Z.of_nat row_count))]))
       | _ => Raise TypeError
       end)%res
  end.

(** [sum(len(self._data[t]) for t in self.list_tables())] *)
Fixpoint sum_rows (data : value) (tables : list value) (acc : Z) : res Z :=
  match tables with
  | [] => Ok acc
  | t :: rest =>
      (rows <- table_rows data t ;;
       n <- py_len rows ;;
       sum_rows data rest (acc + Z.of_nat n))%res
  end.

Definition info : M value :=
  st <- get ;;
  let data := _data st in
  tables <- lift (list_tables_of data) ;;
  names <- lift (py_iter tables) ;;
  tables_info <- lift (tables_info_loop data names []) ;;
  meta <- lift (py_getitem data "_meta") ;;
  created <- lift (py_get meta "created" VNull) ;;
  meta <- lift (py_getitem data "_meta") ;;
  last_modified <- lift (py_get meta "last_modified" VNull) ;;
  meta <- lift (py_getitem data "_meta") ;;
  version <- lift (py_get meta "version" VNull) ;;
  tables <- lift (list_tables_of data) ;;
  table_count <- lift (py_len tables) ;;
  tables <- lift (list_tables_of data) ;;
  names <- lift (py_iter tables) ;;
  total_rows <- lift (sum_rows data names 0) ;;
  ret (VDict [("path", VStr (path_str (db_path st)));
              ("created", created);
              ("last_modified", last_modified);
              ("version", version);
              ("tables", VDict tables_info);
              ("table_count", VInt (Z.of_nat table_count));
              ("total_rows", VInt total_rows)]).

End Info.

(** ** The gradebook script, [usage.py] *)

Section Usage.
Context `{PyRuntime}.
Local Open Scope M_scope.

(** [try: m except ValueError: pass].  [json.JSONDecodeError] and
    [UnicodeDecodeError] are subclasses of [ValueError]; the exceptions of
    CafeDB are not. *)
Definition except_ValueError_pass (m : M unit) : M unit :=
  fun st =>
    match m st with
    | (Raise ValueError, st') | (Raise JSONDecodeError, st')
    | (Raise UnicodeDecodeError, st') => (Ok tt, st')
    | r => r
    end.

Definition setup_database : M unit :=
  except_ValueError_pass (create_table "students") ;;;
  except_ValueError_pass (create_table "grades").

End Usage.

(** ** More notions the properties are stated with *)

(** A row as [insert] stores it: the fields given, with the time under
    [key]. *)
Definition stamped (key stamp : string) (r : dict) : value :=
  VDict (dict_set r key (VStr stamp)).

(** A row as [update] with a dictionary of fields leaves it: the fields
    of the row, then those of the updater, then the time. *)
Definition merged (u : dict) (stamp : string) (r : dict) : value :=
  VDict (dict_set (dict_merge r u) "_updated_at" (VStr stamp)).

(** What [update] makes of a row: a row on which the condition holds is
    a record, merged with the updater at some time; another row stays. *)
Definition updated_from (p : value -> bool) (u : dict) (row row' : value)
  : Prop :=
  if p row then exists r stamp, row = VDict r /\ row' = merged u stamp r
  else row' = row.

(** [meta.get(k)] *)
Definition field_or_null (meta : dict) (k : string) : value :=
  match dict_get meta k with
  | Some v => v
  | None => VNull
  end.

(** The entry of a table in the report of [info]. *)
Definition row_count_entry (p : string * nat) : string * value :=
  (fst p, VDict [("row_count", VInt (Z.of_nat (snd p)))]).

(** The row has the field, with a value equal to [c]. *)
Definition has_value (field : string) (c : value) (row : value) : bool :=
  match row with
  | VDict r =>
      match dict_get r field with
      | Some v => py_eq v c
      | None => false
      end
  | _ => false
  end.

(** A condition that is compared by equality: neither a mapping of
    operators nor a string with a wildcard. *)
Definition plain (c : value) : Prop :=
  match c with
  | VDict _ => False
  | VStr s => has_wildcard s = false
  | _ => True
  end.

(** The operators that compare two values. *)
Definition comparison_operators : list string :=
  ["$eq"; "$ne"; "$gt"; "$gte"; "$lt"; "$lte"].

(** ** Calls that change the store *)

(** A call of one of the operations that write, with its arguments. *)
Inductive call : Type :=
  | CreateTable (table_name : string)
  | DropTable (table_name : string)
  | Insert (table_name : string) (row : value)
  | InsertMany (table_name : string) (rows : value)
  | Update (table_name : string) (filters : filter_arg) (updater : updater_arg)
  | Delete (table_name : string) (filters : filter_arg)
  | ClearTable (table_name : string).

Definition call_table (c : call) : string :=
  match c with
  | CreateTable t | DropTable t | Insert t _ | InsertMany t _
  | Update t _ _ | Delete t _ | ClearTable t => t
  end.

Section Calls.
Context `{PyRuntime}.

(** The instance after the call, whether it returned or raised. *)
Definition after_call (c : call) (st : State) : State :=
  match c with
  | CreateTable t => snd (create_table t st)
  | DropTable t => snd (drop_table t st)
  | Insert t row => snd (insert t row st)
  | InsertMany t rows => snd (insert_many t rows st)
  | Update t filters updater => snd (update t filters updater st)
  | Delete t filters => snd (delete t filters st)
  | ClearTable t => snd (clear_table t st)
  end.

(** The instance after the calls, made in turn by a caller that goes on
    when one of them raises. *)
Definition after_calls (cs : list call) (st : State) : State :=
  fold_left (fun st c => after_call c st) cs st.

(** The method keeps a property of the store, whether it returns or
    raises. *)
Definition keeps (I : value -> Prop) {A} (m : M A) : Prop :=
  forall st, I (_data st) -> I (_data (snd (m st))).

End Calls.

(** The call does not take the metadata for its table: it names another
    key than ["_meta"], or it is [create_table], which checks the name. *)
Definition spares_meta (c : call) : Prop :=
  match c with
  | CreateTable _ => True
  | _ => call_table c <> "_meta"
  end.

(** The store has the key ["_meta"]. *)
Definition has_meta (data : value) : Prop :=
  py_in (VStr "_meta") data = Ok true.

(** The store meets its invariant and has the table. *)
Definition invariant_with (table_name : string) (data : value) : Prop :=
  store_invariant data /\ py_in (VStr table_name) data = Ok true.

(** ** More stores to run the operations on *)

Module Demo.

(** The file of a store that has no table yet. *)
Definition first_version : value := VDict [("_meta", fresh_meta "T0")].

(** The example store with backups on, over a database file of an
    earlier version and a file of somebody else. *)
Definition saved_store : State :=
  {| db_path := Example.path; backup := true; _data := Example.users_data;
     files := <["notes.txt" := VStr "keep"]> {["demo.json" := first_version]};
     clock := Example.stamps; ticks := 1 |}.

(** A database file that holds a table and no metadata. *)
Definition bare_files : gmap string value :=
  {["demo.json" := VDict [("users", VList [Example.alice])]]}.

(** A database file that is not JSON. *)
Definition broken_files : gmap string string := {["demo.json" := "{oops"]}.

(** A database file whose metadata lists its own key. *)
Definition odd_files : gmap string value :=
  {["demo.json" := VDict [("_meta", VDict [("tables", VList [VStr "_meta"])])]]}.

(** A database file that is not text. *)
Definition binary_files : gmap string Binary.content :=
  {["demo.json" := Binary.Undecodable]}.

(** The store of the gradebook once it has been set up. *)
Definition gradebook_data : value :=
  VDict [("_meta", VDict [("tables", VList [VStr "grades"; VStr "students"]);
                          ("created", VStr "T0");
                          ("version", VStr "1.0.0")]);
         ("students", VList []);
         ("grades", VList [])].

Definition gradebook : State :=
  {| db_path := {| path_base := "student_grades"; path_suffix := ".cdb" |};
     backup := true; _data := gradebook_data; files := ∅;
     clock := Example.stamps; ticks := 1 |}.

End Demo.

(** * Properties *)

(** ** Results, dictionaries and strings *)

Lemma res_bind_ok {A B} (r : res A) (k : A -> res B) (b : B) :
  res_bind r k = Ok b -> exists a, r = Ok a /\ k a = Ok b.
Proof. destruct r as [a|e]; simpl; [eauto | discriminate]. Qed.

Lemma dict_get_app_none (d1 d2 : dict) (k : string) :
  dict_get (d1 ++ d2) k = None ->
  dict_get d1 k = None /\ dict_get d2 k = None.
Proof.
  induction d1 as [|[k' v] d1 IH]; simpl; [auto|].
  destruct (String.eqb k' k); [discriminate | exact IH].
Qed.

(** ** The condition evaluator *)

Section EvaluatorFacts.
Context `{PyRuntime}.

Lemma condition_func_exists (field : string) (ops rest : dict) (e row : value) :
  dict_get ops "$exists" = Some e ->
  condition_func ((field, VDict ops) :: rest) row =
  (field_exists <- py_in (VStr field) row ;;
   if negb (py_eq e (VBool field_exists)) then Ok false
   else condition_func rest row)%res.
Proof. intros He. simpl. rewrite He. reflexivity. Qed.

Lemma condition_func_field (field : string) (condition : value)
    (rest r : dict) (v : value) :
  exists_operand condition = None ->
  dict_get r field = Some v ->
  condition_func ((field, condition) :: rest) (VDict r) =
  (b <- _match_condition v condition ;;
   if negb b then Ok false else condition_func rest (VDict r))%res.
Proof.
  intros He Hv. simpl. rewrite He. unfold dict_mem. rewrite Hv. reflexivity.
Qed.

Lemma condition_func_absent (field : string) (condition : value)
    (rest r : dict) :
  exists_operand condition = None ->
  dict_get r field = None ->
  condition_func ((field, condition) :: rest) (VDict r) = Ok false.
Proof.
  intros He Hv. simpl. rewrite He. unfold dict_mem. rewrite Hv. reflexivity.
Qed.

Lemma condition_func_app (f1 f2 : dict) (row : value) :
  condition_func f1 row = Ok true ->
  condition_func (f1 ++ f2) row = condition_func f2 row.
Proof.
  induction f1 as [|[field condition] f1 IH]; simpl; [reflexivity|].
  destruct (exists_operand condition) as [e|].
  - destruct (py_in (VStr field) row) as [b|]; simpl; [|discriminate].
    destruct (negb (py_eq e (VBool b))); [discriminate | exact IH].
  - destruct (py_in (VStr field) row) as [b|]; simpl; [|discriminate].
    destruct (negb b); [discriminate|].
    destruct (py_getitem row field) as [v|]; simpl; [|discriminate].
    destruct (_match_condition v condition) as [b'|]; simpl; [|discriminate].
    destruct (negb b'); [discriminate | exact IH].
Qed.

(** Fields that fail on a row decide the filter, whatever follows them. *)
Lemma condition_func_app_false (f1 f2 : dict) (row : value) :
  condition_func f1 row = Ok false ->
  condition_func (f1 ++ f2) row = Ok false.
Proof.
  induction f1 as [|[field condition] f1 IH]; simpl; [discriminate|].
  destruct (exists_operand condition) as [e|].
  - destruct (py_in (VStr field) row) as [b|]; simpl; [|discriminate].
    destruct (negb (py_eq e (VBool b))); [reflexivity | exact IH].
  - destruct (py_in (VStr field) row) as [b|]; simpl; [|discriminate].
    destruct (negb b); [reflexivity|].
    destruct (py_getitem row field) as [v|]; simpl; [|discriminate].
    destruct (_match_condition v condition) as [b'|]; simpl; [|discriminate].
    destruct (negb b'); [reflexivity | exact IH].
Qed.

(** An operator name outside the fifteen reaches the last branch. *)
Lemma match_operators_unknown (v operand : value) (op : string) (rest : dict) :
  is_known_operator op = false ->
  match_operators v ((op, operand) :: rest) =
  Raise (QueryError (unknown_operator_msg op)).
Proof.
  unfold is_known_operator, known_operators. cbn [existsb].
  intros Hk. repeat (apply orb_false_elim in Hk as [? Hk]).
  cbn [match_operators].
  repeat match goal with
         | E : String.eqb op ?s = false |- _ => rewrite E; clear E
         end.
  reflexivity.
Qed.

Ltac operator_branch IH :=
  lazymatch goal with
  | |- Ok false = Ok true -> _ => discriminate
  | |- Raise _ = Ok true -> _ => discriminate
  | |- match_operators _ _ = Ok true -> _ => exact IH
  | |- context [res_bind ?r _] =>
      destruct r eqn:?; cbn [res_bind]; operator_branch IH
  | |- context [if ?c then _ else _] =>
      destruct c eqn:?; operator_branch IH
  | |- context [match ?c with _ => _ end] =>
      destruct c eqn:?; operator_branch IH
  end.

(** Operators that all hold on the value hand over to what follows. *)
Lemma match_operators_app (v : value) (ops1 ops2 : dict) :
  match_operators v ops1 = Ok true ->
  dict_get ops1 "$exists" = None ->
  match_operators v (ops1 ++ ops2) = match_operators v ops2.
Proof.
  induction ops1 as [|[op operand] ops1 IH]; [reflexivity|].
  cbn [match_operators app dict_get].
  destruct (String.eqb op "$exists") eqn:Hex; [discriminate|].
  intros Hm Hget.
  assert (IH' : match_operators v ops1 = Ok true ->
                match_operators v (ops1 ++ ops2) = match_operators v ops2)
    by (intros Hm'; exact (IH Hm' Hget)).
  clear IH Hget. revert Hm.
  repeat match goal with
         | |- context [String.eqb op ?s] =>
             destruct (String.eqb op s) eqn:?;
             [ solve [operator_branch IH'] | ]
         end.
  discriminate.
Qed.

End EvaluatorFacts.

(** ** [select] reads the store *)

Section SelectFacts.
Context `{PyRuntime}.

Lemma select_frame table_name filters fields limit offset order_by reverse
    (st : State) :
  snd (select table_name filters fields limit offset order_by reverse st) = st.
Proof. reflexivity. Qed.

Lemma filter_res_raise {A} (f : A -> res bool) (before after kept : list A)
    (x : A) (e : exn) :
  filter_res f before = Ok kept ->
  f x = Raise e ->
  filter_res f (before ++ x :: after) = Raise e.
Proof.
  revert kept. induction before as [|y before IH]; simpl; intros kept Hb Hx.
  - rewrite Hx. reflexivity.
  - destruct (f y) as [b|]; simpl in *; [|discriminate].
    destruct (filter_res f before) as [k|]; simpl in *; [|discriminate].
    rewrite (IH k eq_refl Hx). reflexivity.
Qed.

(** A condition that returns on every row keeps the rows on which it
    holds. *)
Lemma filter_res_decided {A} (cond : A -> res bool) (p : A -> bool)
    (l : list A) :
  (forall x, In x l -> cond x = Ok (p x)) ->
  filter_res cond l = Ok (List.filter p l).
Proof.
  induction l as [|x l IH]; intros Hp; [reflexivity|].
  cbn [filter_res List.filter]. rewrite (Hp x (or_introl eq_refl)).
  cbn [res_bind]. rewrite IH by (intros y Hy; apply Hp; now right).
  reflexivity.
Qed.

(** A row on which the filter raises, after rows on which it does not,
    makes [select] raise the same exception. *)
Lemma select_filter_raises (st : State) (d filters : dict) (table_name : string)
    (before after kept : list value) (row : value) (e : exn)
    fields limit offset order_by reverse :
  _data st = VDict d ->
  dict_get d table_name = Some (VList (before ++ row :: after)) ->
  filter_res (condition_func filters) before = Ok kept ->
  condition_func filters row = Raise e ->
  select table_name (FDict filters) fields limit offset order_by reverse st =
  (Raise e, st).
Proof.
  intros Hd Ht Hb Hr.
  unfold select, bind, get_data, lift, select_rows. rewrite Hd.
  cbn [py_in res_bind]. unfold dict_mem. rewrite Ht. cbn [negb py_getitem].
  rewrite Ht. cbn [res_bind apply_filters py_iter].
  rewrite (filter_res_raise _ _ _ _ _ _ Hb Hr). reflexivity.
Qed.

End SelectFacts.

(** ** The [$exists] operator (C2) *)

(** C2.  When the condition mapping of a field holds ["$exists"] with a
    boolean [b], the field's condition passes exactly when [b] says
    whether the field is a key of the record: evaluation goes on with the
    remaining fields when it does and returns false when it does not.
    Nothing else of the mapping is read (any other mapping with the same
    operand gives the same result, whatever operators it holds), and the
    value of the field is never looked up. *)
Theorem exists_operator_decides `{PyRuntime} (field : string)
    (ops rest r : dict) (b : bool) :
  dict_get ops "$exists" = Some (VBool b) ->
  condition_func [(field, VDict ops)] (VDict r) =
    Ok (Bool.eqb b (dict_mem r field)) /\
  condition_func ((field, VDict ops) :: rest) (VDict r) =
    (if Bool.eqb b (dict_mem r field) then condition_func rest (VDict r)
     else Ok false) /\
  (forall ops' : dict,
     dict_get ops' "$exists" = Some (VBool b) ->
     condition_func ((field, VDict ops') :: rest) (VDict r) =
     condition_func ((field, VDict ops) :: rest) (VDict r)).
Proof.
  intros He.
  assert (Hstep : forall (o rest' : dict),
            dict_get o "$exists" = Some (VBool b) ->
            condition_func ((field, VDict o) :: rest') (VDict r) =
            if Bool.eqb b (dict_mem r field)
            then condition_func rest' (VDict r) else Ok false).
  { intros o rest' Ho. rewrite (condition_func_exists _ _ _ _ _ Ho).
    cbn [py_in res_bind py_eq].
    destruct (Bool.eqb b (dict_mem r field)); reflexivity. }
  split; [|split].
  - rewrite (Hstep ops [] He). cbn [condition_func].
    destruct (Bool.eqb b (dict_mem r field)); reflexivity.
  - exact (Hstep ops rest He).
  - intros ops' He'. rewrite (Hstep ops' rest He'), (Hstep ops rest He).
    reflexivity.
Qed.

(** A record without the field passes [{"$exists": false, "$bogus": 1}]:
    the unknown operator beside [$exists] is never reached. *)
Lemma exists_operator_decides_witness :
  condition_func
    [("email", VDict [("$exists", VBool false); ("$bogus", VInt 1)])]
    (VDict [("name", VStr "Alice")]) = Ok true.
Proof.
  pose proof (exists_operator_decides "email"
                [("$exists", VBool false); ("$bogus", VInt 1)] []
                [("name", VStr "Alice")] false eq_refl) as [Hone _].
  exact Hone.
Defined.

(** ** Unknown operators (C3) *)

(** A record without the filtered field does not match, and nothing is
    raised, although the operator is not a known one; [select] then
    returns normally. *)
Lemma unknown_operator_on_absent_field :
  condition_func [("age", VDict [("$bogus", VInt 1)])]
                 (VDict [("name", VStr "Alice")]) = Ok false /\
  select_rows (VDict [("_meta", VDict [("tables", VList [VStr "users"])]);
                      ("users", VList [VDict [("name", VStr "Alice")]])])
              "users" (FDict [("age", VDict [("$bogus", VInt 1)])])
              None None 0 None false = Ok [].
Proof. split; reflexivity. Qed.

(** C3, amended.  A record that holds the filtered field, under a filter
    whose earlier fields match it, and a condition mapping without
    [$exists] in which an operator outside the fifteen comes after
    operators that the field's value satisfies: evaluation raises the
    query error that names the operator.  [select] raises it as soon as
    it reaches such a record, the records before it having been evaluated
    without error, and leaves the state as it was. *)
Theorem unknown_operator_raises `{PyRuntime} (st : State)
    (table_name field op : string) (d r fields_before fields_after : dict)
    (ops_before ops_after : dict) (operand v : value)
    (rows_before rows_after kept : list value)
    fields limit offset order_by reverse :
  let ops := ops_before ++ (op, operand) :: ops_after in
  let filters := fields_before ++ (field, VDict ops) :: fields_after in
  is_known_operator op = false ->
  dict_get ops "$exists" = None ->
  dict_get r field = Some v ->
  match_operators v ops_before = Ok true ->
  condition_func fields_before (VDict r) = Ok true ->
  _data st = VDict d ->
  dict_get d table_name = Some (VList (rows_before ++ VDict r :: rows_after)) ->
  filter_res (condition_func filters) rows_before = Ok kept ->
  condition_func filters (VDict r) =
    Raise (QueryError (unknown_operator_msg op)) /\
  select table_name (FDict filters) fields limit offset order_by reverse st =
    (Raise (QueryError (unknown_operator_msg op)), st).
Proof.
  intros ops filters Hop Hex Hv Hpre Hfields Hd Ht Hrows.
  assert (Hrow : condition_func filters (VDict r) =
                 Raise (QueryError (unknown_operator_msg op))).
  { unfold filters. rewrite (condition_func_app _ _ _ Hfields).
    rewrite (condition_func_field field (VDict ops) fields_after r v Hex Hv).
    cbn [_match_condition]. unfold ops.
    destruct (dict_get_app_none _ _ _ Hex) as [Hex1 _].
    rewrite (match_operators_app _ _ _ Hpre Hex1).
    rewrite (match_operators_unknown _ _ _ _ Hop). reflexivity. }
  split; [exact Hrow|].
  exact (select_filter_raises st d filters table_name rows_before rows_after
           kept (VDict r) _ fields limit offset order_by reverse
           Hd Ht Hrows Hrow).
Qed.

Lemma unknown_operator_raises_witness :
  select "users"
         (FDict [("age", VDict [("$gte", VInt 18); ("$bogus", VInt 1)])])
         None None 0 None false Example.store =
  (Raise (QueryError (unknown_operator_msg "$bogus")), Example.store).
Proof.
  exact (proj2 (unknown_operator_raises Example.store "users" "age" "$bogus"
                  _ [("name", VStr "Alice"); ("age", VInt 28)] [] []
                  [("$gte", VInt 18)] [] (VInt 1) (VInt 28)
                  [] [Example.bob] [] None None 0 None false
                  eq_refl eq_refl eq_refl eq_refl eq_refl eq_refl eq_refl
                  eq_refl)).
Defined.

(** ** Sorting *)

Section SortingFacts.
Context {A : Type} (lt : A -> A -> option bool).

Lemma insert_by_perm (x : A) (l l' : list A) :
  insert_by lt x l = Some l' -> Permutation (x :: l) l'.
Proof.
  revert l'. induction l as [|y l IH]; simpl; intros l' Hi.
  - injection Hi as <-. reflexivity.
  - destruct (lt x y) as [[|]|]; [| |discriminate].
    + injection Hi as <-. reflexivity.
    + destruct (insert_by lt x l) as [l0|]; [|discriminate].
      injection Hi as <-. rewrite perm_swap. constructor. apply IH. reflexivity.
Qed.

Lemma sort_into_perm (l acc out : list A) :
  sort_into lt acc l = Some out -> Permutation (acc ++ l) out.
Proof.
  revert acc. induction l as [|x l IH]; simpl; intros acc Hs.
  - injection Hs as <-. rewrite app_nil_r. reflexivity.
  - destruct (insert_by lt x acc) as [acc'|] eqn:Hi; [|discriminate].
    rewrite <- (IH _ Hs). rewrite <- (insert_by_perm _ _ _ Hi).
    symmetry. apply Permutation_middle.
Qed.

Lemma sort_by_perm (reverse : bool) (l out : list A) :
  sort_by lt reverse l = Some out -> Permutation l out.
Proof.
  unfold sort_by. destruct reverse.
  - destruct (sort_into lt [] (rev l)) as [s|] eqn:Hs; [|discriminate].
    intros [= <-]. apply sort_into_perm in Hs. simpl in Hs.
    rewrite <- Permutation_rev. rewrite <- Hs. apply Permutation_rev.
  - intros Hs. apply sort_into_perm in Hs. exact Hs.
Qed.

Lemma insert_by_hd (x a : A) (l l' : list A) :
  insert_by lt x l = Some l' ->
  HdRel (placed lt) a l -> placed lt a x -> HdRel (placed lt) a l'.
Proof.
  destruct l as [|y l]; simpl.
  - intros [= <-] _ Hax. constructor. exact Hax.
  - destruct (lt x y) as [[|]|]; [| |discriminate].
    + intros [= <-] _ Hax. constructor. exact Hax.
    + destruct (insert_by lt x l); [|discriminate].
      intros [= <-] Hay _. inversion Hay; subst. constructor. assumption.
Qed.

Lemma insert_by_sorted (x : A) (l l' : list A) :
  insert_by lt x l = Some l' -> Sorted (placed lt) l -> Sorted (placed lt) l'.
Proof.
  revert l'. induction l as [|y l IH]; simpl; intros l' Hi Hs.
  - injection Hi as <-. repeat constructor.
  - destruct (lt x y) as [[|]|] eqn:Hxy; [| |discriminate].
    + injection Hi as <-. constructor; [exact Hs|].
      constructor. left. exact Hxy.
    + destruct (insert_by lt x l) as [l0|] eqn:Hi0; [|discriminate].
      injection Hi as <-. inversion Hs as [|? ? Hs' Hhd]; subst.
      constructor; [exact (IH _ eq_refl Hs')|].
      eapply insert_by_hd; [exact Hi0 | exact Hhd |]. right. exact Hxy.
Qed.

Lemma sort_into_sorted (l acc out : list A) :
  sort_into lt acc l = Some out ->
  Sorted (placed lt) acc -> Sorted (placed lt) out.
Proof.
  revert acc. induction l as [|x l IH]; simpl; intros acc Hs Hacc.
  - injection Hs as <-. exact Hacc.
  - destruct (insert_by lt x acc) as [acc'|] eqn:Hi; [|discriminate].
    exact (IH _ Hs (insert_by_sorted _ _ _ Hi Hacc)).
Qed.

(** The output is in ascending order, read backwards when [reverse] is
    set. *)
Lemma sort_by_sorted (reverse : bool) (l out : list A) :
  sort_by lt reverse l = Some out ->
  Sorted (placed lt) (if reverse then rev out else out).
Proof.
  unfold sort_by. destruct reverse.
  - destruct (sort_into lt [] (rev l)) as [s|] eqn:Hs; [|discriminate].
    intros [= <-]. rewrite rev_involutive.
    exact (sort_into_sorted _ _ _ Hs (Sorted_nil _)).
  - intros Hs. exact (sort_into_sorted _ _ _ Hs (Sorted_nil _)).
Qed.

(** The sort fails on a comparison that fails. *)
Lemma insert_by_none (x : A) (l : list A) :
  insert_by lt x l = None -> exists y, In y l /\ lt x y = None.
Proof.
  induction l as [|y l IH]; simpl; [discriminate|].
  destruct (lt x y) as [[|]|] eqn:Hxy; [discriminate| |eauto].
  destruct (insert_by lt x l); [discriminate|].
  intros _. destruct (IH eq_refl) as (z & Hz & Hxz). eauto.
Qed.

Lemma sort_into_none (l acc : list A) :
  sort_into lt acc l = None ->
  exists x y, In x (acc ++ l) /\ In y (acc ++ l) /\ lt x y = None.
Proof.
  revert acc. induction l as [|x l IH]; simpl; intros acc Hs; [discriminate|].
  destruct (insert_by lt x acc) as [acc'|] eqn:Hi.
  - destruct (IH _ Hs) as (a & b & Ha & Hb & Hab).
    assert (Hin : forall z, In z (acc' ++ l) -> In z (acc ++ x :: l)).
    { intros z Hz. apply (Permutation_in z (Permutation_middle acc l x)).
      apply in_app_iff in Hz as [Hz|Hz].
      - apply (Permutation_in z (Permutation_sym (insert_by_perm _ _ _ Hi)))
          in Hz.
        destruct Hz as [<-|Hz]; [now left|]. right. apply in_app_iff. now left.
      - right. apply in_app_iff. now right. }
    exists a, b. auto.
  - destruct (insert_by_none _ _ Hi) as (y & Hy & Hxy).
    exists x, y. split; [apply in_app_iff; right; now left|].
    split; [apply in_app_iff; now left | exact Hxy].
Qed.

Lemma sort_by_none (reverse : bool) (l : list A) :
  sort_by lt reverse l = None ->
  exists x y, In x l /\ In y l /\ lt x y = None.
Proof.
  unfold sort_by. destruct reverse.
  - destruct (sort_into lt [] (rev l)) as [s|] eqn:Hs; [discriminate|].
    intros _. destruct (sort_into_none _ _ Hs) as (x & y & Hx & Hy & Hxy).
    cbn [app] in Hx, Hy. apply in_rev in Hx, Hy. eauto.
  - intros Hs. exact (sort_into_none _ _ Hs).
Qed.

(** Where every two items compare, the sort returns. *)
Variable P : A -> Prop.
Hypothesis lt_defined : forall a b, P a -> P b -> is_Some (lt a b).

Lemma insert_by_total (x : A) (l : list A) :
  P x -> Forall P l -> is_Some (insert_by lt x l).
Proof.
  intros Hx. induction 1 as [|y l Hy Hl IH]; simpl; [eauto|].
  destruct (lt_defined x y Hx Hy) as [[|] ->]; [eauto|].
  destruct IH as [l' ->]. simpl. eauto.
Qed.

Lemma sort_into_total (l acc : list A) :
  Forall P l -> Forall P acc -> is_Some (sort_into lt acc l).
Proof.
  intros Hl. revert acc. induction Hl as [|x l Hx Hl IH]; simpl; intros acc Hacc.
  - eauto.
  - destruct (insert_by_total x acc Hx Hacc) as [acc' Hi]. rewrite Hi.
    apply IH. apply insert_by_perm in Hi.
    eapply Permutation_Forall; [exact Hi|]. constructor; assumption.
Qed.

Lemma sort_by_total (reverse : bool) (l : list A) :
  Forall P l -> is_Some (sort_by lt reverse l).
Proof.
  intros Hl. unfold sort_by. destruct reverse.
  - destruct (sort_into_total (rev l) []) as [s ->]; [|constructor|simpl; eauto].
    apply Forall_rev. exact Hl.
  - apply sort_into_total; [exact Hl | constructor].
Qed.

End SortingFacts.

Section SortedFacts.
Context `{PyRuntime}.

Lemma map_res_total {A B} (f : A -> res B) (g : A -> B) (l : list A) :
  Forall (fun x => f x = Ok (g x)) l -> map_res f l = Ok (map g l).
Proof.
  induction 1 as [|x l Hx _ IH]; simpl; [reflexivity|].
  rewrite Hx, IH. reflexivity.
Qed.

Lemma combine_map_self {A B} (g : A -> B) (l : list A) :
  combine (map g l) l = map (fun x => (g x, x)) l.
Proof. induction l as [|x l IH]; simpl; [reflexivity | now rewrite IH]. Qed.

Lemma Sorted_map_fst {A B} (lt : A -> A -> option bool) (l : list (A * B)) :
  Sorted (placed (fun a b => lt (fst a) (fst b))) l ->
  Sorted (placed lt) (map fst l).
Proof.
  induction 1 as [|p l _ IH Hhd]; simpl; constructor; [exact IH|].
  destruct Hhd; simpl; constructor. assumption.
Qed.

Lemma decorated_keys {A B} (g : B -> A) (l : list (A * B)) :
  Forall (fun p => fst p = g (snd p)) l -> map g (map snd l) = map fst l.
Proof.
  induction 1 as [|p l Hp _ IH]; simpl; [reflexivity|]. now rewrite Hp, IH.
Qed.

(** What [sorted] returns is a rearrangement of the rows whose keys are
    in ascending order, read backwards under [reverse=True]. *)
Lemma py_sorted_spec (key : value -> res value) (keyf : value -> value)
    (reverse : bool) (rows out : list value) :
  Forall (fun x => key x = Ok (keyf x)) rows ->
  py_sorted key reverse (VList rows) = Ok out ->
  Permutation rows out /\
  ascending (map keyf (if reverse then rev out else out)).
Proof.
  intros Hkey. unfold py_sorted. cbn [py_iter res_bind].
  rewrite (map_res_total _ _ _ Hkey). cbn [res_bind].
  rewrite combine_map_self.
  set (lt' := fun a b : value * value => py_cmp Lt (fst a) (fst b)).
  destruct (sort_by lt' reverse _) as [s|] eqn:Hs; [|discriminate].
  intros [= <-].
  pose proof (sort_by_perm _ _ _ _ Hs) as Hperm.
  pose proof (sort_by_sorted _ _ _ _ Hs) as Hsorted.
  assert (Hdec : Forall (fun p => fst p = keyf (snd p)) s).
  { eapply Permutation_Forall; [exact Hperm|].
    apply Forall_forall. intros p Hin. apply in_map_iff in Hin as (x & <- & _).
    reflexivity. }
  split.
  - apply (Permutation_map snd) in Hperm.
    rewrite map_map in Hperm. simpl in Hperm. rewrite map_id in Hperm.
    exact Hperm.
  - unfold ascending, precedes. destruct reverse.
    + rewrite <- map_rev.
      rewrite (decorated_keys keyf (rev s)); [|apply Forall_rev; exact Hdec].
      apply Sorted_map_fst. exact Hsorted.
    + rewrite (decorated_keys keyf s Hdec).
      apply Sorted_map_fst. exact Hsorted.
Qed.

(** With keys that can be computed, [sorted] returns or raises the
    [TypeError] of a comparison, nothing else. *)
Lemma py_sorted_cases (key : value -> res value) (keyf : value -> value)
    (reverse : bool) (rows : list value) :
  Forall (fun x => key x = Ok (keyf x)) rows ->
  (exists out, py_sorted key reverse (VList rows) = Ok out) \/
  py_sorted key reverse (VList rows) = Raise TypeError.
Proof.
  intros Hkey. unfold py_sorted. cbn [py_iter res_bind].
  rewrite (map_res_total _ _ _ Hkey). cbn [res_bind].
  destruct (sort_by _ reverse _); eauto.
Qed.

(** [sorted] raises only where two of the keys do not compare. *)
Lemma py_sorted_raises (key : value -> res value) (keyf : value -> value)
    (reverse : bool) (rows : list value) (e : exn) :
  Forall (fun x => key x = Ok (keyf x)) rows ->
  py_sorted key reverse (VList rows) = Raise e ->
  exists a b, In a rows /\ In b rows /\ py_cmp Lt (keyf a) (keyf b) = None.
Proof.
  intros Hkey. unfold py_sorted. cbn [py_iter res_bind].
  rewrite (map_res_total _ _ _ Hkey). cbn [res_bind].
  rewrite combine_map_self.
  destruct (sort_by _ reverse _) as [s|] eqn:Hs; [discriminate|]. intros _.
  destruct (sort_by_none _ _ _ Hs) as (x & y & Hx & Hy & Hxy).
  apply in_map_iff in Hx as (a & <- & Ha).
  apply in_map_iff in Hy as (b & <- & Hb). eauto.
Qed.

(** With keys of which every two compare, [sorted] returns. *)
Lemma py_sorted_total (key : value -> res value) (keyf : value -> value)
    (P : value -> Prop) (reverse : bool) (rows : list value) :
  (forall a b, P a -> P b -> is_Some (py_cmp Lt a b)) ->
  Forall (fun x => key x = Ok (keyf x)) rows ->
  Forall (fun x => P (keyf x)) rows ->
  exists out, py_sorted key reverse (VList rows) = Ok out.
Proof.
  intros Hlt Hkey HP. unfold py_sorted. cbn [py_iter res_bind].
  rewrite (map_res_total _ _ _ Hkey). cbn [res_bind].
  rewrite combine_map_self.
  destruct (sort_by_total (fun a b : value * value => py_cmp Lt (fst a) (fst b))
              (fun p => P (fst p))
              (fun a b Ha Hb => Hlt _ _ Ha Hb) reverse
              (map (fun x => (keyf x, x)) rows)) as [s ->]; [|eauto].
  apply Forall_map. exact HP.
Qed.

End SortedFacts.

(** *** The sort is stable *)

Section StableFacts.
Context {A : Type} (lt : A -> A -> option bool) (k : A -> Z).
Variable P : A -> Prop.
Hypothesis lt_k : forall a b, P a -> P b -> lt a b = Some (k a <? k b).

Let le (a b : A) : Prop := k a <= k b.
Let tied (z : Z) (a : A) : bool := k a =? z.

Lemma placed_le (l : list A) :
  Forall P l -> Sorted (placed lt) l -> Sorted le l.
Proof.
  intros HP Hs. induction Hs as [|a l _ IH Hhd]; [constructor|].
  apply Forall_cons_iff in HP as [Ha HP]. constructor; [exact (IH HP)|].
  destruct Hhd as [|b l Hab]; constructor.
  apply Forall_cons_iff in HP as [Hb _]. unfold le.
  destruct Hab as [Hab|Hab]; rewrite lt_k in Hab by assumption;
    injection Hab as Hab; lia.
Qed.

(** An item goes behind the items of its key that are there already. *)
Lemma insert_by_tied (x : A) (l l' : list A) (z : Z) :
  P x -> Forall P l -> Sorted le l ->
  insert_by lt x l = Some l' ->
  List.filter (tied z) l' = List.filter (tied z) l ++ List.filter (tied z) [x].
Proof.
  intros Hx HP Hs. revert l'.
  induction l as [|y l IH]; intros l' Hi; cbn [insert_by] in Hi.
  - now injection Hi as <-.
  - apply Forall_cons_iff in HP as [Hy HP].
    rewrite (lt_k x y Hx Hy) in Hi.
    destruct (Z.ltb_spec (k x) (k y)) as [Hlt|Hge].
    + injection Hi as <-.
      change (x :: y :: l) with ([x] ++ y :: l). rewrite filter_app.
      destruct (Z.eqb_spec (k x) z) as [Hz|Hz].
      * assert (Hnone : List.filter (tied z) (y :: l) = []).
        { apply Sorted_StronglySorted in Hs; [|intros a b c; unfold le; lia].
          apply StronglySorted_inv in Hs as [_ Hall].
          assert (Hall' : Forall (fun a => tied z a = false) (y :: l)).
          { constructor.
            - unfold tied. apply Z.eqb_neq. lia.
            - eapply Forall_impl; [|exact Hall]. intros a Ha.
              unfold tied, le in *. apply Z.eqb_neq. lia. }
          clear -Hall'. induction Hall' as [|a l0 Ha _ IH0]; [reflexivity|].
          cbn [List.filter]. now rewrite Ha. }
        rewrite Hnone. now rewrite List.app_nil_r.
      * assert (Hnone : List.filter (tied z) [x] = []).
        { cbn [List.filter]. unfold tied.
          now destruct (Z.eqb_spec (k x) z). }
        rewrite Hnone. now rewrite List.app_nil_r.
    + destruct (insert_by lt x l) as [l0|] eqn:Hi0; [|discriminate].
      injection Hi as <-. cbn [List.filter].
      apply Sorted_inv in Hs as [Hs _]. rewrite (IH HP Hs l0 eq_refl).
      destruct (tied z y); reflexivity.
Qed.

Lemma sort_into_tied (l acc out : list A) (z : Z) :
  Forall P l -> Forall P acc -> Sorted (placed lt) acc ->
  sort_into lt acc l = Some out ->
  List.filter (tied z) out = List.filter (tied z) acc ++ List.filter (tied z) l.
Proof.
  intros Hl. revert acc.
  induction Hl as [|x l Hx Hl IH]; intros acc Hacc Hs Hout;
    cbn [sort_into] in Hout.
  - injection Hout as <-. now rewrite List.app_nil_r.
  - destruct (insert_by lt x acc) as [acc'|] eqn:Hi; [|discriminate].
    assert (Hacc' : Forall P acc').
    { eapply Permutation_Forall; [exact (insert_by_perm _ _ _ _ Hi)|].
      now constructor. }
    rewrite (IH acc' Hacc' (insert_by_sorted _ _ _ _ Hi Hs) Hout).
    rewrite (insert_by_tied x acc acc' z Hx Hacc (placed_le _ Hacc Hs) Hi).
    change (x :: l) with ([x] ++ l). rewrite (filter_app _ [x] l).
    now rewrite <- List.app_assoc.
Qed.

(** Items of one key come out in the order they went in, also under
    [reverse]. *)
Lemma sort_by_tied (reverse : bool) (l out : list A) (z : Z) :
  Forall P l -> sort_by lt reverse l = Some out ->
  List.filter (tied z) out = List.filter (tied z) l.
Proof.
  intros Hl. unfold sort_by. destruct reverse.
  - destruct (sort_into lt [] (rev l)) as [s|] eqn:Hs; [|discriminate].
    intros [= <-]. rewrite filter_rev.
    rewrite (sort_into_tied (rev l) [] s z (Forall_rev Hl) (Forall_nil _)
               (Sorted_nil _) Hs).
    cbn [List.filter app]. rewrite filter_rev. apply rev_involutive.
  - intros Hs.
    exact (sort_into_tied l [] out z Hl (Forall_nil _) (Sorted_nil _) Hs).
Qed.

End StableFacts.

Section StableSorted.
Context `{PyRuntime}.

(** Records that have the same integer under the sort field keep the
    order they have in the table. *)
Lemma py_sorted_stable (key : value -> res value) (field : string)
    (reverse : bool) (rows out : list value) (ks : list Z) (z : Z) :
  Forall (fun x => key x = Ok (key_of field x)) rows ->
  map (key_of field) rows = map VInt ks ->
  py_sorted key reverse (VList rows) = Ok out ->
  List.filter (has_int_key field z) out = List.filter (has_int_key field z) rows.
Proof.
  intros Hkey Hks. unfold py_sorted. cbn [py_iter res_bind].
  rewrite (map_res_total _ _ _ Hkey). cbn [res_bind].
  rewrite combine_map_self.
  set (lt' := fun a b : value * value => py_cmp Lt (fst a) (fst b)).
  set (decorated := map (fun x => (key_of field x, x)) rows).
  destruct (sort_by lt' reverse decorated) as [s|] eqn:Hs; [|discriminate].
  intros [= <-].
  set (k := fun p : value * value =>
              match fst p with VInt i => i | _ => 0 end).
  set (P := fun p : value * value =>
              fst p = key_of field (snd p) /\ exists i, fst p = VInt i).
  assert (HP : Forall P decorated).
  { apply Forall_forall. intros p Hp.
    apply in_map_iff in Hp as (x & <- & Hx). split; [reflexivity|].
    apply (in_map (key_of field)) in Hx. rewrite Hks in Hx.
    apply in_map_iff in Hx as (i & <- & _). cbn. eauto. }
  assert (Hlt : forall a b, P a -> P b -> lt' a b = Some (k a <? k b)).
  { intros a b [_ [i Ha]] [_ [j Hb]]. unfold lt', k. rewrite Ha, Hb.
    reflexivity. }
  pose proof (sort_by_tied lt' k P Hlt reverse decorated s z HP Hs) as Htied.
  cbv beta in Htied.
  assert (Hsnd : forall l, Forall P l ->
            List.filter (has_int_key field z) (map snd l) =
            map snd (List.filter (fun a => k a =? z) l)).
  { induction 1 as [|p l [Hp [i Hi]] _ IH]; [reflexivity|].
    cbn [map List.filter]. rewrite IH.
    assert (Hk : has_int_key field z (snd p) = (k p =? z)).
    { unfold has_int_key, k. rewrite <- Hp, Hi. reflexivity. }
    rewrite Hk. destruct (k p =? z); reflexivity. }
  assert (HPs : Forall P s).
  { eapply Permutation_Forall; [exact (sort_by_perm _ _ _ _ Hs) | exact HP]. }
  rewrite (Hsnd s HPs), Htied, <- (Hsnd decorated HP).
  unfold decorated. rewrite map_map. cbn [snd]. now rewrite map_id.
Qed.

End StableSorted.

(** ** The stages of [select] *)

Section StageFacts.
Context `{PyRuntime}.

Lemma apply_pagination_list (offset m : Z) (rows : list value) :
  0 <= offset -> 0 <= m ->
  apply_pagination offset (Some m) (VList rows) =
  Ok (VList (firstn (Z.to_nat m) (skipn (Z.to_nat offset) rows))).
Proof.
  intros Ho Hm. unfold apply_pagination.
  assert (Hslice : forall l : list value,
            py_slice_to (VList l) m = Ok (VList (firstn (Z.to_nat m) l))).
  { intros l. unfold py_slice_to, slice_end.
    destruct (Z.ltb_spec m 0); [lia | reflexivity]. }
  destruct (Z.ltb_spec 0 offset) as [Hpos|Hzero]; cbn [py_slice_from res_bind].
  - apply Hslice.
  - replace offset with 0 by lia. apply Hslice.
Qed.

Lemma map_res_copy_inv (l l' : list value) :
  map_res py_copy l = Ok l' -> l' = l /\ Forall copyable l.
Proof.
  revert l'. induction l as [|x l IH]; simpl; intros l' Hm.
  - injection Hm as <-. split; [reflexivity | constructor].
  - destruct (py_copy x) as [y|] eqn:Hx; simpl in Hm; [|discriminate].
    destruct (map_res py_copy l) as [ys|]; simpl in Hm; [|discriminate].
    injection Hm as <-. destruct (IH ys eq_refl) as [-> Hall].
    destruct x; try discriminate; injection Hx as <-;
      (split; [reflexivity | constructor; [exact I | exact Hall]]).
Qed.

Lemma map_res_copy_ok (l : list value) :
  Forall copyable l -> map_res py_copy l = Ok l.
Proof.
  induction 1 as [|x l Hx _ IH]; simpl; [reflexivity|].
  rewrite IH. destruct x; try contradiction; reflexivity.
Qed.

Lemma is_dict_copyable (l : list value) : Forall is_dict l -> Forall copyable l.
Proof. apply Forall_impl. intros [] Hx; try contradiction; exact I. Qed.

Lemma order_by_warning_dicts (rows : list value) :
  Forall is_dict rows -> order_by_warning (VList rows) = Ok tt.
Proof.
  intros Hd. unfold order_by_warning. destruct Hd as [|x l Hx _]; [reflexivity|].
  cbn. destruct x; try contradiction. reflexivity.
Qed.

Lemma sort_key_dict (field : string) (rows : list value) :
  Forall is_dict rows ->
  Forall (fun x => sort_key field x = Ok (key_of field x)) rows.
Proof.
  apply Forall_impl. intros [] Hx; try contradiction.
  unfold sort_key, key_of, py_get. destruct (dict_get d field); reflexivity.
Qed.

Lemma sort_key_str_dict (field : string) (rows : list value) :
  Forall is_dict rows ->
  Forall (fun x => sort_key_str field x = Ok (VStr (py_str (key_of field x))))
         rows.
Proof.
  apply Forall_impl. intros [] Hx; try contradiction.
  unfold sort_key_str, key_of, py_get. destruct (dict_get d field); reflexivity.
Qed.

Lemma project_dict (fields : list string) (r acc : dict) :
  exists out, project fields (VDict r) acc = Ok (VDict out).
Proof.
  revert acc. induction fields as [|k fields IH]; simpl; intros acc; [eauto|].
  destruct (dict_get r k); simpl; apply IH.
Qed.

Lemma apply_projection_dicts (fields : option (list string)) (rows : list value) :
  Forall is_dict rows ->
  exists out, apply_projection fields (VList rows) = Ok out.
Proof.
  intros Hd. unfold apply_projection. cbn [py_iter res_bind].
  destruct fields as [fs|].
  - induction Hd as [|x l Hx _ [out IH]]; simpl; [eauto|].
    destruct x; try contradiction.
    destruct (project_dict fs d []) as [o ->]. simpl. rewrite IH. simpl. eauto.
  - rewrite (map_res_copy_ok _ (is_dict_copyable _ Hd)). eauto.
Qed.

End StageFacts.

(** ** Pagination follows filtering and sorting (C4) *)

Section PaginationFacts.
Context `{PyRuntime}.

Lemma filter_all {A} (p : A -> bool) (l : list A) :
  (forall x, In x l -> p x = true) -> List.filter p l = l.
Proof.
  induction l as [|x l IH]; intros Hp; [reflexivity|].
  cbn [List.filter]. rewrite (Hp x (or_introl eq_refl)).
  rewrite IH by (intros y Hy; apply Hp; now right). reflexivity.
Qed.

Lemma Permutation_filter_list {A} (p : A -> bool) (l l' : list A) :
  Permutation l l' -> Permutation (List.filter p l) (List.filter p l').
Proof.
  induction 1 as [|x l l' _ IH|x y l|l l' l'' _ IH1 _ IH2]; cbn [List.filter].
  - constructor.
  - destruct (p x); [constructor|]; exact IH.
  - destruct (p x), (p y); try reflexivity. apply perm_swap.
  - now transitivity (List.filter p l').
Qed.

(** The filtering stage keeps the rows on which the condition holds. *)
Lemma apply_filters_decided (filters : filter_arg) (cond : value -> res bool)
    (p : value -> bool) (rows : list value) :
  filter_condition filters = Some cond ->
  (forall row, In row rows -> cond row = Ok (p row)) ->
  apply_filters filters (VList rows) = Ok (VList (List.filter p rows)).
Proof.
  destruct filters as [|d|f|]; cbn [filter_condition]; [| | |discriminate];
    intros [= <-] Hp; cbn [apply_filters py_iter res_bind].
  - rewrite filter_all; [reflexivity|].
    intros row Hrow. specialize (Hp row Hrow). now injection Hp as <-.
  - now rewrite (filter_res_decided _ p rows Hp).
  - now rewrite (filter_res_decided _ p rows Hp).
Qed.

(** The sorting stage on records: a rearrangement in the order of the
    keys. *)
Lemma apply_sorting_records (field : string) (reverse : bool)
    (rows : list value) :
  Forall is_dict rows -> field <> "" ->
  exists sorted,
    apply_sorting (Some field) reverse (VList rows) = Ok (VList sorted) /\
    Permutation rows sorted /\ in_key_order field reverse sorted.
Proof.
  intros Hd Hne. unfold apply_sorting.
  destruct (String.eqb_spec field "") as [|_]; [contradiction|].
  rewrite (order_by_warning_dicts _ Hd). cbn [res_bind].
  pose proof (sort_key_dict field _ Hd) as Hkey.
  pose proof (sort_key_str_dict field _ Hd) as Hkeystr.
  destruct (py_sorted_cases _ _ reverse _ Hkey) as [[out Hout]|Hfail].
  - exists out. rewrite Hout. cbn [except_TypeError res_bind].
    destruct (py_sorted_spec _ _ _ _ _ Hkey Hout) as [Hperm Hasc].
    split; [reflexivity|]. split; [exact Hperm|]. left. exact Hasc.
  - destruct (py_sorted_total (sort_key_str field)
                (fun x => VStr (py_str (key_of field x)))
                (fun k => exists s, k = VStr s) reverse rows)
      as [out Hout].
    + intros a b [s ->] [t ->]. simpl. eauto.
    + exact Hkeystr.
    + apply Forall_forall. intros x _. eauto.
    + exists out. rewrite Hfail, Hout. cbn [except_TypeError res_bind].
      destruct (py_sorted_spec _ _ _ _ _ Hkeystr Hout) as [Hperm Hasc].
      split; [reflexivity|]. split; [exact Hperm|]. right.
      split; [|exact Hasc].
      destruct (py_sorted_raises _ _ _ _ _ Hkey Hfail)
        as (a & b & Ha & Hb & Hab).
      exists a, b. split; [exact (Permutation_in _ Hperm Ha)|].
      split; [exact (Permutation_in _ Hperm Hb) | exact Hab].
Qed.

Lemma apply_sorting_arranged (order_by : option string) (reverse : bool)
    (rows : list value) :
  Forall is_dict rows ->
  exists full,
    apply_sorting order_by reverse (VList rows) = Ok (VList full) /\
    Permutation rows full /\ arranged order_by reverse rows full.
Proof.
  intros Hd. destruct order_by as [field|]; [|exists rows; now repeat split].
  destruct (String.eqb_spec field "") as [->|Hne].
  - exists rows. now repeat split.
  - destruct (apply_sorting_records field reverse rows Hd Hne)
      as (sorted & Hs & Hperm & Hord).
    exists sorted. split; [exact Hs|]. split; [exact Hperm|].
    unfold arranged. destruct (String.eqb_spec field ""); [contradiction|].
    split; assumption.
Qed.

(** [select] on a table whose rows pass the first two stages: the page
    of the sorted rows, then its projection. *)
Lemma select_rows_stages (d : dict) (table_name : string)
    (rows matching full : list value) (filters : filter_arg)
    (fields : option (list string)) (limit : option Z) (offset : Z)
    (order_by : option string) (reverse : bool) :
  dict_get d table_name = Some (VList rows) ->
  apply_filters filters (VList rows) = Ok (VList matching) ->
  apply_sorting order_by reverse (VList matching) = Ok (VList full) ->
  select_rows (VDict d) table_name filters fields limit offset order_by reverse
  = (page <- apply_pagination offset limit (VList full) ;;
     apply_projection fields page)%res.
Proof.
  intros Ht Hf Hs. unfold select_rows. cbn [py_in res_bind].
  unfold dict_mem. rewrite Ht. cbn [negb py_getitem]. rewrite Ht.
  cbn [res_bind]. rewrite Hf. cbn [res_bind]. rewrite Hs. reflexivity.
Qed.

(** *** Integer keys without ties *)

Lemma ascending_ints (ks : list Z) : ascending (map VInt ks) -> Sorted Z.le ks.
Proof.
  unfold ascending. induction ks as [|a ks IH]; cbn [map]; intros Hs;
    [constructor|].
  apply Sorted_inv in Hs as [Hs Hhd]. constructor; [exact (IH Hs)|].
  destruct ks as [|b ks]; constructor. apply HdRel_inv in Hhd.
  destruct Hhd as [Hlt|Hge]; cbn in Hlt || cbn in Hge.
  - injection Hlt as Hlt. apply Z.ltb_lt in Hlt. lia.
  - injection Hge as Hge. apply Z.ltb_ge in Hge. exact Hge.
Qed.

(** Rows that are listed in two orders with the same keys, no two rows
    having the same key, are listed in the same order. *)
Lemma same_keys_same_rows {A B} (k : A -> B) (l l' : list A) :
  Permutation l l' -> map k l = map k l' -> NoDup (map k l) -> l = l'.
Proof.
  revert l'. induction l as [|a l IH]; intros l' Hperm Hmap Hnd.
  - apply Permutation_nil in Hperm. now subst.
  - destruct l' as [|b l']; [discriminate|].
    cbn [map] in Hmap, Hnd. injection Hmap as Hab Hmap.
    apply NoDup_cons_iff in Hnd as [Hnotin Hnd].
    assert (Heq : a = b).
    { assert (Hin : In a (b :: l'))
        by (apply (Permutation_in _ Hperm); now left).
      destruct Hin as [->|Hin]; [reflexivity|].
      exfalso. apply Hnotin. rewrite Hmap. now apply in_map. }
    subst b. f_equal. apply IH; [|exact Hmap|exact Hnd].
    exact (Permutation_cons_inv Hperm).
Qed.

(** Rows with integer keys, no two the same, have one ascending order. *)
Lemma distinct_keys_one_order (field : string) (rows l l' : list value) :
  distinct_int_keys field rows ->
  Permutation rows l -> Permutation rows l' ->
  ascending (map (key_of field) l) -> ascending (map (key_of field) l') ->
  l = l'.
Proof.
  intros (ks & Hks & Hnd) Hl Hl' Hasc Hasc'.
  assert (Hkeys : forall l0, Permutation rows l0 ->
            exists ks0, map (key_of field) l0 = map VInt ks0 /\
                        Permutation ks ks0).
  { intros l0 Hp. apply (Permutation_map (key_of field)) in Hp.
    rewrite Hks in Hp. apply Permutation_sym in Hp.
    apply Permutation_map_inv in Hp as (ks0 & Hk0 & Hp0).
    exists ks0. split; [exact Hk0 | now symmetry]. }
  destruct (Hkeys l Hl) as (k1 & Hk1 & Hp1).
  destruct (Hkeys l' Hl') as (k2 & Hk2 & Hp2).
  rewrite Hk1 in Hasc. rewrite Hk2 in Hasc'.
  assert (Heq : k1 = k2).
  { apply (Sorted_unique Z.le); [now apply ascending_ints..|].
    now rewrite <- Hp1, <- Hp2. }
  subst k2.
  apply (same_keys_same_rows (key_of field)).
  - now rewrite <- Hl, <- Hl'.
  - now rewrite Hk1, Hk2.
  - rewrite Hk1. apply Finite.Injective_map_NoDup.
    + intros x y [= ->]. reflexivity.
    + eapply Permutation_NoDup; eassumption.
Qed.

(** The sorting stage on records with integer keys orders them by the
    keys themselves, and leaves records of one key in their order. *)
Lemma apply_sorting_int_keys (field : string) (reverse : bool)
    (rows : list value) (ks : list Z) :
  Forall is_dict rows -> field <> "" ->
  map (key_of field) rows = map VInt ks ->
  exists sorted,
    apply_sorting (Some field) reverse (VList rows) = Ok (VList sorted) /\
    Permutation rows sorted /\
    ascending (map (key_of field) (if reverse then rev sorted else sorted)) /\
    forall z, List.filter (has_int_key field z) sorted =
              List.filter (has_int_key field z) rows.
Proof.
  intros Hd Hne Hks. unfold apply_sorting.
  destruct (String.eqb_spec field "") as [|_]; [contradiction|].
  rewrite (order_by_warning_dicts _ Hd). cbn [res_bind].
  pose proof (sort_key_dict field _ Hd) as Hkey.
  destruct (py_sorted_total (sort_key field) (key_of field)
              (fun k => exists z, k = VInt z) reverse rows) as [out Hout].
  - intros a b [x ->] [y ->]. cbn. eauto.
  - exact Hkey.
  - apply Forall_forall. intros x Hx.
    apply (in_map (key_of field)) in Hx. rewrite Hks in Hx.
    apply in_map_iff in Hx as (z & <- & _). eauto.
  - exists out. rewrite Hout. cbn [except_TypeError res_bind].
    destruct (py_sorted_spec _ _ _ _ _ Hkey Hout) as [Hperm Hasc].
    split; [reflexivity|]. split; [exact Hperm|]. split; [exact Hasc|].
    intros z. exact (py_sorted_stable _ field reverse rows out ks z Hkey Hks Hout).
Qed.

(** So the sorted rows do not depend on the order they were given in. *)
Lemma apply_sorting_one_order (field : string) (reverse : bool)
    (rows rows' sorted sorted' : list value) :
  Forall is_dict rows -> field <> "" ->
  distinct_int_keys field rows ->
  Permutation rows rows' ->
  apply_sorting (Some field) reverse (VList rows) = Ok (VList sorted) ->
  apply_sorting (Some field) reverse (VList rows') = Ok (VList sorted') ->
  sorted = sorted'.
Proof.
  intros Hd Hne Hdist Hperm Hs Hs'.
  pose proof Hdist as (ks & Hks & Hnd).
  assert (Hd' : Forall is_dict rows')
    by (eapply Permutation_Forall; eassumption).
  assert (Hks' : exists ks', map (key_of field) rows' = map VInt ks').
  { pose proof (Permutation_map (key_of field) Hperm) as Hp.
    rewrite Hks in Hp. apply Permutation_sym in Hp.
    apply Permutation_map_inv in Hp as (ks' & Hk' & _). eauto. }
  destruct Hks' as [ks' Hks'].
  destruct (apply_sorting_int_keys field reverse rows ks Hd Hne Hks)
    as (s & Hs0 & Hp & Hasc & _).
  destruct (apply_sorting_int_keys field reverse rows' ks' Hd' Hne Hks')
    as (s' & Hs0' & Hp' & Hasc' & _).
  rewrite Hs0 in Hs. injection Hs as ->.
  rewrite Hs0' in Hs'. injection Hs' as ->.
  assert (Hone : (if reverse then rev sorted else sorted) =
                 (if reverse then rev sorted' else sorted')).
  { apply (distinct_keys_one_order field rows); try assumption.
    - destruct reverse; [rewrite <- Permutation_rev|]; exact Hp.
    - rewrite Hperm.
      destruct reverse; [rewrite <- Permutation_rev|]; exact Hp'. }
  destruct reverse; [|exact Hone].
  rewrite <- (rev_involutive sorted), <- (rev_involutive sorted').
  now f_equal.
Qed.

End PaginationFacts.

(** C4 fails on rows with equal sort keys: the sort is stable, so such
    rows come out in the order they were inserted in.  Two tables hold
    the same two users of the same age, in the two orders: the first
    user by age is Ann in one and Bob in the other. *)
Lemma tied_keys_follow_insertion :
  let ann := VDict [("name", VStr "Ann"); ("age", VInt 30)] in
  let bob := VDict [("name", VStr "Bob"); ("age", VInt 30)] in
  Permutation [ann; bob] [bob; ann] /\
  select_rows (VDict [("users", VList [ann; bob])]) "users" FNone None
              (Some 1) 0 (Some "age") false = Ok [ann] /\
  select_rows (VDict [("users", VList [bob; ann])]) "users" FNone None
              (Some 1) 0 (Some "age") false = Ok [bob].
Proof.
  intros ann bob. split; [apply perm_swap|]. split; reflexivity.
Qed.

(** C4, amended.  On a table of records, with a filter that decides every
    record, [select] filters, then sorts, then cuts the page, then
    projects.  The sequence [full] that it returns without offset, limit
    and projection is made of the records on which the filter holds, and
    of nothing else: in the order of the table without a sort field, and
    otherwise rearranged in the order of their keys.  An offset [n] and a
    limit [m] (numbers of rows, so not negative) return the elements
    [n+1] to [n+m] of [full], and with a projection the projection of
    those.  Where the records on which the filter holds have integer
    keys, [full] is in the order of the keys themselves and records of
    one key are in the order they have in the table; where no two of
    them have the same key, the result is the same for every order of
    the rows in the table. *)
Theorem pagination_after_sort `{PyRuntime} (d : dict) (table_name : string)
    (rows : list value) (filters : filter_arg) (cond : value -> res bool)
    (p : value -> bool) (fields : option (list string))
    (order_by : option string) (reverse : bool) (n m : Z) :
  dict_get d table_name = Some (VList rows) ->
  Forall is_dict rows ->
  filter_condition filters = Some cond ->
  (forall row, In row rows -> cond row = Ok (p row)) ->
  0 <= n -> 0 <= m ->
  exists full,
    arranged order_by reverse (List.filter p rows) full /\
    select_rows (VDict d) table_name filters None None 0 order_by reverse
      = Ok full /\
    select_rows (VDict d) table_name filters None (Some m) n order_by reverse
      = Ok (firstn (Z.to_nat m) (skipn (Z.to_nat n) full)) /\
    select_rows (VDict d) table_name filters fields (Some m) n order_by reverse
      = apply_projection fields
          (VList (firstn (Z.to_nat m) (skipn (Z.to_nat n) full))) /\
    (forall field, order_by = Some field -> field <> "" ->
       int_keyed field (List.filter p rows) ->
       ascending (map (key_of field) (if reverse then rev full else full)) /\
       forall z, List.filter (has_int_key field z) full =
                 List.filter (has_int_key field z) (List.filter p rows)) /\
    (forall field, order_by = Some field -> field <> "" ->
       distinct_int_keys field (List.filter p rows) ->
       forall (d' : dict) (rows' : list value),
         dict_get d' table_name = Some (VList rows') ->
         Permutation rows rows' ->
         select_rows (VDict d') table_name filters fields (Some m) n
                     order_by reverse
         = select_rows (VDict d) table_name filters fields (Some m) n
                       order_by reverse).
Proof.
  intros Ht Hd Hcond Hp Hn Hm.
  pose proof (apply_filters_decided filters cond p rows Hcond Hp) as Hf.
  assert (Hdm : Forall is_dict (List.filter p rows)).
  { apply Forall_forall. intros x Hx. apply filter_In in Hx as [Hx _].
    rewrite Forall_forall in Hd. now apply Hd. }
  destruct (apply_sorting_arranged order_by reverse _ Hdm)
    as (full & Hs & Hperm & Harr).
  assert (Hdf : Forall is_dict full)
    by (eapply Permutation_Forall; eassumption).
  exists full. split; [exact Harr|].
  assert (Hcopy : forall l, Forall is_dict l ->
            apply_projection None (VList l) = Ok l).
  { intros l Hl. unfold apply_projection. cbn [py_iter res_bind].
    apply map_res_copy_ok, is_dict_copyable, Hl. }
  split; [|split; [|split; [|split]]].
  - rewrite (select_rows_stages d table_name rows _ full _ _ _ _ _ _ Ht Hf Hs).
    cbn [apply_pagination Z.ltb Z.compare res_bind]. now apply Hcopy.
  - rewrite (select_rows_stages d table_name rows _ full _ _ _ _ _ _ Ht Hf Hs).
    rewrite (apply_pagination_list n m full Hn Hm). cbn [res_bind].
    apply Hcopy. now apply Forall_take, Forall_drop.
  - rewrite (select_rows_stages d table_name rows _ full _ _ _ _ _ _ Ht Hf Hs).
    now rewrite (apply_pagination_list n m full Hn Hm).
  - intros field -> Hne [ks Hks].
    destruct (apply_sorting_int_keys field reverse _ ks Hdm Hne Hks)
      as (sorted & Hs0 & _ & Hasc & Hstable).
    rewrite Hs0 in Hs. injection Hs as <-. split; assumption.
  - intros field -> Hne Hdist d' rows' Ht' Hrows.
    assert (Hp' : forall row, In row rows' -> cond row = Ok (p row)).
    { intros row Hrow. apply Hp.
      exact (Permutation_in _ (Permutation_sym Hrows) Hrow). }
    pose proof (apply_filters_decided filters cond p rows' Hcond Hp') as Hf'.
    pose proof (Permutation_filter_list p _ _ Hrows) as Hpf.
    assert (Hdm' : Forall is_dict (List.filter p rows'))
      by (eapply Permutation_Forall; eassumption).
    destruct (apply_sorting_arranged (Some field) reverse _ Hdm')
      as (full' & Hs' & _ & _).
    rewrite (select_rows_stages d' table_name rows' _ full' _ _ _ _ _ _
               Ht' Hf' Hs').
    rewrite (select_rows_stages d table_name rows _ full _ _ _ _ _ _ Ht Hf Hs).
    now rewrite (apply_sorting_one_order field reverse _ _ full full'
                   Hdm Hne Hdist Hpf Hs Hs').
Qed.

(** Four users, of whom three are adults: the second and third of the
    adults by age, whatever order the four were inserted in. *)
Lemma pagination_after_sort_witness :
  let user (name : string) (age : Z) :=
    VDict [("name", VStr name); ("age", VInt age)] in
  let adults := FDict [("age", VDict [("$gte", VInt 18)])] in
  let page := [user "Cy" 34; user "Dan" 45] in
  select_rows (VDict [("users", VList [user "Dan" 45; user "Ann" 22;
                                       user "Eve" 9; user "Cy" 34])])
              "users" adults None (Some 2) 1 (Some "age") false = Ok page /\
  select_rows (VDict [("users", VList [user "Cy" 34; user "Eve" 9;
                                       user "Dan" 45; user "Ann" 22])])
              "users" adults None (Some 2) 1 (Some "age") false = Ok page.
Proof.
  intros user adults page.
  set (rows := [user "Dan" 45; user "Ann" 22; user "Eve" 9; user "Cy" 34]).
  set (rows' := [user "Cy" 34; user "Eve" 9; user "Dan" 45; user "Ann" 22]).
  destruct (pagination_after_sort [("users", VList rows)] "users" rows adults
              (condition_func [("age", VDict [("$gte", VInt 18)])])
              (fun row => match key_of "age" row with
                          | VInt age => 18 <=? age
                          | _ => false
                          end)
              None (Some "age") false 1 2)
    as (full & _ & Hfull & Hpage & _ & _ & Hany);
    [reflexivity | repeat constructor | reflexivity | | lia | lia |].
  { intros row [<-|[<-|[<-|[<-|[]]]]]; reflexivity. }
  assert (Hf : full = [user "Ann" 22; user "Cy" 34; user "Dan" 45]).
  { vm_compute in Hfull. now injection Hfull as <-. }
  subst full. split; [exact Hpage|].
  rewrite (Hany "age" eq_refl ltac:(discriminate)
             ltac:(exists [45; 22; 34]; split; [reflexivity|];
                   repeat constructor; cbn; lia)
             [("users", VList rows')] rows' eq_refl).
  - exact Hpage.
  - unfold rows, rows'.
    apply perm_trans with [user "Cy" 34; user "Dan" 45; user "Ann" 22;
                           user "Eve" 9].
    + exact (Permutation_sym
               (Permutation_cons_append
                  [user "Dan" 45; user "Ann" 22; user "Eve" 9] (user "Cy" 34))).
    + constructor.
      exact (Permutation_sym
               (Permutation_cons_append [user "Dan" 45; user "Ann" 22]
                  (user "Eve" 9))).
Defined.

(** ** Sorting never fails on mixed keys (C5) *)

(** C5.  On records, the sorting stage of [select] always returns, with a
    rearrangement of the rows.  A record without the sort field has the
    empty string as its key.  The rows are ordered by their keys; when
    comparing keys raises [TypeError] they are ordered by the string form
    of their keys instead, which always succeeds.  The order is ascending,
    and descending (ascending read backwards) under [reverse].  So a
    [select] over a table of records, whatever the sort field, offset,
    limit and projection, returns. *)
Theorem sort_never_raises `{PyRuntime} (rows : list value) (field : string)
    (reverse : bool) :
  Forall is_dict rows ->
  (forall r, dict_get r field = None ->
             sort_key field (VDict r) = Ok (VStr "")) /\
  (exists sorted,
     apply_sorting (Some field) reverse (VList rows) = Ok (VList sorted) /\
     Permutation rows sorted /\
     (field <> "" ->
      let in_order := if reverse then rev sorted else sorted in
      (py_sorted (sort_key field) reverse (VList rows) = Ok sorted /\
       ascending (map (key_of field) in_order)) \/
      (py_sorted (sort_key field) reverse (VList rows) = Raise TypeError /\
       py_sorted (sort_key_str field) reverse (VList rows) = Ok sorted /\
       ascending (map (fun x => VStr (py_str (key_of field x))) in_order)))) /\
  (forall (d : dict) (table_name : string) fields limit offset,
     dict_get d table_name = Some (VList rows) ->
     0 <= offset ->
     exists out,
       select_rows (VDict d) table_name FNone fields limit offset
                   (Some field) reverse = Ok out).
Proof.
  intros Hd.
  assert (Hsort : exists sorted,
     apply_sorting (Some field) reverse (VList rows) = Ok (VList sorted) /\
     Permutation rows sorted /\
     (field <> "" ->
      let in_order := if reverse then rev sorted else sorted in
      (py_sorted (sort_key field) reverse (VList rows) = Ok sorted /\
       ascending (map (key_of field) in_order)) \/
      (py_sorted (sort_key field) reverse (VList rows) = Raise TypeError /\
       py_sorted (sort_key_str field) reverse (VList rows) = Ok sorted /\
       ascending (map (fun x => VStr (py_str (key_of field x))) in_order)))).
  { unfold apply_sorting. destruct (String.eqb_spec field "") as [->|Hne].
    { exists rows. split; [reflexivity|]. split; [reflexivity|]. congruence. }
    rewrite (order_by_warning_dicts _ Hd). cbn [res_bind].
    pose proof (sort_key_dict field _ Hd) as Hkey.
    pose proof (sort_key_str_dict field _ Hd) as Hkeystr.
    destruct (py_sorted_cases _ _ reverse _ Hkey) as [[out Hout]|Hfail].
    - exists out. rewrite Hout. cbn [except_TypeError res_bind].
      destruct (py_sorted_spec _ _ _ _ _ Hkey Hout) as [Hperm Hasc].
      split; [reflexivity|]. split; [exact Hperm|]. intros _. left.
      split; [reflexivity | exact Hasc].
    - destruct (py_sorted_total (sort_key_str field)
                  (fun x => VStr (py_str (key_of field x)))
                  (fun k => exists s, k = VStr s) reverse rows)
        as [out Hout].
      + intros a b [s ->] [t ->]. simpl. eauto.
      + exact Hkeystr.
      + apply Forall_forall. intros x _. eauto.
      + exists out. rewrite Hfail, Hout. cbn [except_TypeError res_bind].
        destruct (py_sorted_spec _ _ _ _ _ Hkeystr Hout) as [Hperm Hasc].
        split; [reflexivity|]. split; [exact Hperm|]. intros _. right.
        split; [reflexivity|]. split; [reflexivity | exact Hasc]. }
  split; [|split; [exact Hsort|]].
  - intros r Hr. unfold sort_key, py_get. rewrite Hr. reflexivity.
  - intros d table_name fields limit offset Ht Ho.
    destruct Hsort as (sorted & Hs & Hperm & _).
    unfold select_rows. cbn [py_in res_bind]. unfold dict_mem. rewrite Ht.
    cbn [negb py_getitem]. rewrite Ht. cbn [res_bind apply_filters].
    rewrite Hs. cbn [res_bind].
    assert (Hds : Forall is_dict sorted)
      by (eapply Permutation_Forall; [exact Hperm | exact Hd]).
    assert (Hpage : exists page,
              apply_pagination offset limit (VList sorted) = Ok (VList page) /\
              Forall is_dict page).
    { unfold apply_pagination.
      destruct (0 <? offset); cbn [py_slice_from res_bind];
        destruct limit as [m|]; cbn [py_slice_to];
        eexists; (split; [reflexivity|]);
        repeat first [apply Forall_take | apply Forall_drop]; exact Hds. }
    destruct Hpage as (page & -> & Hdp). cbn [res_bind].
    apply apply_projection_dicts. exact Hdp.
Qed.

(** Ages that are a number, a string and missing: the integers and the
    strings do not compare, and the rows come out by the string form of
    their keys. *)
Example mixed_keys_sorted_by_str :
  apply_sorting (Some "age") false
    (VList [VDict [("age", VStr "old")]; VDict [("age", VInt 7)];
            VDict [("name", VStr "Cy")]]) =
  Ok (VList [VDict [("name", VStr "Cy")]; VDict [("age", VInt 7)];
             VDict [("age", VStr "old")]]).
Proof. reflexivity. Qed.

Lemma sort_never_raises_witness :
  let mixed := [VDict [("age", VStr "old")]; VDict [("age", VInt 7)];
                VDict [("name", VStr "Cy")]] in
  exists sorted,
    apply_sorting (Some "age") false (VList mixed) = Ok (VList sorted) /\
    Permutation mixed sorted.
Proof.
  intros mixed.
  destruct (sort_never_raises mixed "age" false)
    as (_ & (sorted & Hs & Hp & _) & _).
  - repeat constructor.
  - exists sorted. split; assumption.
Defined.

(** ** Dictionaries *)

Lemma dict_get_set {V} (d : list (string * V)) (k k' : string) (v : V) :
  dict_get (dict_set d k v) k' =
  if String.eqb k k' then Some v else dict_get d k'.
Proof.
  induction d as [|[k0 v0] d IH]; simpl.
  - reflexivity.
  - destruct (String.eqb_spec k0 k) as [->|Hne]; simpl.
    + destruct (String.eqb k k'); reflexivity.
    + rewrite IH. destruct (String.eqb_spec k0 k') as [->|_]; [|reflexivity].
      destruct (String.eqb_spec k k') as [->|_]; [contradiction | reflexivity].
Qed.

Lemma dict_get_set_eq {V} (d : list (string * V)) (k : string) (v : V) :
  dict_get (dict_set d k v) k = Some v.
Proof. rewrite dict_get_set, String.eqb_refl. reflexivity. Qed.

Lemma dict_get_set_ne {V} (d : list (string * V)) (k k' : string) (v : V) :
  k <> k' -> dict_get (dict_set d k v) k' = dict_get d k'.
Proof.
  intros Hne. rewrite dict_get_set.
  destruct (String.eqb_spec k k'); [contradiction | reflexivity].
Qed.

Lemma dict_get_del {V} (d : list (string * V)) (k k' : string) :
  k' <> k -> dict_get (dict_del d k) k' = dict_get d k'.
Proof.
  intros Hk. induction d as [|[k0 v0] d IH]; cbn; [reflexivity|].
  destruct (String.eqb_spec k0 k) as [->|Hne]; cbn.
  - destruct (String.eqb_spec k k'); [congruence | reflexivity].
  - now rewrite IH.
Qed.

(** ** The durable write and the reopening (C1) *)

Lemma length_append (a b : string) :
  String.length (a +:+ b) = (String.length a + String.length b)%nat.
Proof. induction a as [|c a IH]; simpl; [reflexivity | now rewrite IH]. Qed.

(** The temporary file is never the database file. *)
Lemma tmp_path_fresh (p : Path) :
  path_str (with_suffix p (path_suffix p +:+ ".tmp")) <> path_str p.
Proof.
  unfold path_str, with_suffix. simpl. intros Heq.
  apply String.app_inj in Heq.
  apply (f_equal String.length) in Heq. rewrite length_append in Heq.
  simpl in Heq. lia.
Qed.

Section PersistenceFacts.
Context `{PyRuntime}.

(** On a store that has its metadata, the durable write returns: the
    database file then holds the store as it was on entry, and the store
    in memory has a new [last_modified]. *)
Lemma _write_db_ok (st : State) (d meta : dict) :
  _data st = VDict d ->
  dict_get d "_meta" = Some (VDict meta) ->
  exists st',
    _write_db st = (Ok tt, st') /\
    files st' !! path_str (db_path st) = Some (json_dumps (_data st)) /\
    _data st' =
      VDict (dict_set d "_meta"
               (VDict (dict_set meta "last_modified"
                         (VStr (clock st (ticks st)))))) /\
    db_path st' = db_path st /\ backup st' = backup st /\
    clock st' = clock st /\ ticks st' = S (ticks st).
Proof.
  intros Hd Hm.
  pose proof (tmp_path_fresh (db_path st)) as Htmp.
  cbv [_write_db bind get path_exists ret get_data file_write file_replace
       now set_meta lift set_files set_data raise
       db_path backup _data files clock ticks with_files with_data with_ticks].
  destruct st as [dbp bk data fs clk tk]. simpl in Hd, Htmp. subst data.
  destruct (bk && bool_decide (is_Some (fs !! path_str dbp))) eqn:Hb.
  - apply andb_true_iff in Hb as [_ Hex]. apply bool_decide_eq_true in Hex.
    destruct Hex as [old Hold]. rewrite Hold. rewrite lookup_insert_eq.
    cbn [py_getitem]. rewrite Hm. cbn [py_setitem].
    eexists. split; [reflexivity|]. simpl. rewrite lookup_insert_eq.
    repeat split; reflexivity.
  - rewrite lookup_insert_eq. cbn [py_getitem]. rewrite Hm. cbn [py_setitem].
    eexists. split; [reflexivity|]. simpl. rewrite lookup_insert_eq.
    repeat split; reflexivity.
Qed.

(** Opening a path whose file holds a store with its metadata gives that
    store. *)
Lemma __init___existing (path : Path) (backup_ : bool)
    (files_ : gmap string document) (clock_ : nat -> string) (ticks_ : nat)
    (d : dict) :
  files_ !! path_str path = Some (json_dumps (VDict d)) ->
  json_loads (json_dumps (VDict d)) = Some (VDict d) ->
  dict_mem d "_meta" = true ->
  exists st,
    __init__ path backup_ files_ clock_ ticks_ = (Ok st, st) /\
    _data st = VDict d /\ files st = files_ /\ db_path st = path.
Proof.
  intros Hf Hj Hm.
  cbv [__init__ bind get path_exists ret _read_db set_data ensure_meta
       get_data lift raise
       db_path backup _data files clock ticks with_files with_data with_ticks].
  rewrite Hf. rewrite bool_decide_eq_true_2 by eauto. cbv iota beta.
  rewrite Hf. cbv iota beta.
  rewrite Hj. cbn [py_in]. rewrite Hm. cbn [negb].
  eexists. split; [reflexivity|]. repeat split; reflexivity.
Qed.

End PersistenceFacts.

(** The store in memory after a durable write is not the store that a
    reopening reads back: the write stamps [last_modified] in memory
    after the file is in place, so the file of the example store has no
    [last_modified] while the store in memory has one. *)
Lemma reopened_store_differs :
  let written := snd (_write_db Example.store) in
  let reopened :=
    snd (__init__ Example.path true (files written) Example.stamps
                  (ticks written)) in
  _write_db Example.store = (Ok tt, written) /\
  __init__ Example.path true (files written) Example.stamps (ticks written)
    = (Ok reopened, reopened) /\
  py_eq (_data reopened) (_data written) = false /\
  (meta <- py_getitem (_data written) "_meta" ;;
   py_getitem meta "last_modified")%res = Ok (VStr "T1") /\
  (meta <- py_getitem (_data reopened) "_meta" ;;
   py_getitem meta "last_modified")%res
    = Raise (KeyError (VStr "last_modified")).
Proof.
  intros written reopened.
  split; [reflexivity|]. split; [reflexivity|].
  repeat split; vm_compute; reflexivity.
Qed.

(** C1, amended.  A durable write of a store that has its metadata
    returns, and reopening the path then yields the store as it was
    serialized, the in-memory store on entry to the write, provided the
    JSON codec reads back what it wrote.  The store in memory after the
    write equals it in every table and in every metadata field except
    [last_modified], which the write sets in memory only. *)
Theorem write_then_reopen `{PyRuntime} (st : State) (d meta : dict) :
  _data st = VDict d ->
  dict_get d "_meta" = Some (VDict meta) ->
  json_loads (json_dumps (_data st)) = Some (_data st) ->
  exists st',
    _write_db st = (Ok tt, st') /\
    (forall backup' clock' ticks',
       exists reopened,
         __init__ (db_path st) backup' (files st') clock' ticks'
           = (Ok reopened, reopened) /\
         _data reopened = _data st) /\
    (forall table_name,
       table_name <> "_meta" ->
       py_getitem (_data st') table_name = py_getitem (_data st) table_name) /\
    (exists meta',
       py_getitem (_data st') "_meta" = Ok (VDict meta') /\
       forall field,
         field <> "last_modified" ->
         dict_get meta' field = dict_get meta field).
Proof.
  intros Hd Hm Hj.
  destruct (_write_db_ok st d meta Hd Hm) as (st' & Hw & Hf & Hd' & _).
  exists st'. split; [exact Hw|]. split; [|split].
  - intros backup' clock' ticks'. rewrite Hd in *.
    destruct (__init___existing (db_path st) backup' (files st') clock' ticks'
                d Hf Hj) as (reopened & Hi & Hdata & _).
    + unfold dict_mem. rewrite Hm. reflexivity.
    + exists reopened. split; assumption.
  - intros table_name Hne. rewrite Hd', Hd. cbn [py_getitem].
    rewrite dict_get_set_ne by congruence. reflexivity.
  - eexists. rewrite Hd'. cbn [py_getitem]. rewrite dict_get_set_eq.
    split; [reflexivity|]. intros field Hne.
    apply dict_get_set_ne. congruence.
Qed.

Lemma write_then_reopen_witness :
  exists st',
    _write_db Example.store = (Ok tt, st') /\
    exists reopened,
      __init__ Example.path false (files st') Example.stamps 7
        = (Ok reopened, reopened) /\
      _data reopened = Example.users_data.
Proof.
  destruct (write_then_reopen Example.store _ _ eq_refl eq_refl eq_refl)
    as (st' & Hw & Hr & _).
  exists st'. split; [exact Hw|]. exact (Hr false Example.stamps 7%nat).
Defined.

(** ** Transactions (C7) *)

(** C7 fails on the database file.  A transaction on the example store
    inserts a row into a table and then fails on a table that does not
    exist.  It raises, and the table in memory has its two rows again;
    but [insert] had written the file, the rollback writes nothing, and
    the store that a reopening of the path reads has the third row. *)
Lemma rolled_back_file_keeps_insert :
  let body := (insert "users" Example.alice ;;;
               insert "orders" Example.alice)%M in
  let st2 := snd (transaction body Example.store) in
  let reopened :=
    snd (__init__ Example.path false (files st2) Example.stamps (ticks st2)) in
  fst (transaction body Example.store)
    = Raise (not_found_create_first "orders") /\
  fst (count "users" FNone Example.store) = Ok 2%nat /\
  fst (count "users" FNone st2) = Ok 2%nat /\
  fst (__init__ Example.path false (files st2) Example.stamps (ticks st2))
    = Ok reopened /\
  fst (count "users" FNone reopened) = Ok 3%nat.
Proof. intros body st2 reopened. repeat split; vm_compute; reflexivity. Qed.

(** C7, amended.  When the body of a transaction raises, the transaction
    raises the same exception and the store in memory is the snapshot
    taken on entry, which is the store on entry when the JSON codec reads
    back what it wrote: every table is as it was, with the number of rows
    it had.  The same holds when the body returns and the commit's write
    raises.  The rollback leaves the files alone: they are as the body,
    or the failed write, left them. *)
Theorem transaction_rolls_back `{PyRuntime} {A} (body : M A)
    (st st1 : State) (e : exn) :
  json_loads (json_dumps (_data st)) = Some (_data st) ->
  body st = (Raise e, st1) \/
  (exists a st0, body st = (Ok a, st0) /\ _write_db st0 = (Raise e, st1)) ->
  exists st2,
    transaction body st = (Raise e, st2) /\
    _data st2 = _data st /\
    files st2 = files st1 /\
    (forall table_name,
       fst (get_table table_name st2) = fst (get_table table_name st) /\
       fst (stats table_name st2) = fst (stats table_name st)).
Proof.
  intros Hj Hbody.
  exists (with_data (_data st) st1).
  assert (Hrun : transaction body st = (Raise e, with_data (_data st) st1)).
  { cbv [transaction bind get_data]. rewrite Hj.
    destruct Hbody as [-> | (a & st0 & -> & ->)]; reflexivity. }
  split; [exact Hrun|]. split; [reflexivity|]. split; [reflexivity|].
  intros table_name. split; [reflexivity|].
  cbv [stats get_table exists_table bind get_data lift raise ret].
  change (_data (with_data (_data st) st1)) with (_data st).
  destruct (py_in (VStr table_name) (_data st)) as [[|]|]; cbn;
    try reflexivity.
  destruct (py_getitem (_data st) table_name); reflexivity.
Qed.

(** A transaction on the example store that inserts a row and then fails
    on a table that does not exist. *)
Lemma transaction_rolls_back_witness :
  exists st2,
    transaction (insert "users" Example.alice ;;;
                 insert "orders" Example.alice)%M Example.store
      = (Raise (not_found_create_first "orders"), st2) /\
    _data st2 = Example.users_data.
Proof.
  destruct (transaction_rolls_back
              (insert "users" Example.alice ;;;
               insert "orders" Example.alice)%M
              Example.store
              (snd ((insert "users" Example.alice ;;;
                     insert "orders" Example.alice)%M Example.store))
              (not_found_create_first "orders") eq_refl)
    as (st2 & Ht & Hd & _).
  - left. reflexivity.
  - exists st2. split; assumption.
Defined.

(** ** Unknown tables (C8) *)


Lemma append_cons (c : ascii) (a b : string) :
  String c a +:+ b = String c (a +:+ b).
Proof. reflexivity. Qed.

Lemma append_nil_r (a : string) : a +:+ "" = a.
Proof.
  induction a as [|c a IH]; [reflexivity|]. rewrite append_cons, IH. reflexivity.
Qed.

Lemma append_assoc (a b c : string) : (a +:+ b) +:+ c = a +:+ (b +:+ c).
Proof.
  induction a as [|x a IH]; [reflexivity|]. rewrite !append_cons, IH. reflexivity.
Qed.

Lemma prefix_append (t b : string) : String.prefix t (t +:+ b) = true.
Proof.
  induction t as [|c t IH]; [destruct b; reflexivity|].
  rewrite append_cons. cbn [String.prefix].
  destruct (ascii_dec c c); [exact IH | contradiction].
Qed.

Lemma str_contains_append (t pre s : string) :
  str_contains t s = true -> str_contains t (pre +:+ s) = true.
Proof.
  intros Hs. induction pre as [|c pre IH]; [exact Hs|].
  rewrite append_cons. cbn [str_contains]. rewrite IH. apply orb_true_r.
Qed.

Lemma str_contains_prefix (t s : string) :
  String.prefix t s = true -> str_contains t s = true.
Proof. intros Hp. destruct s; cbn [str_contains]; rewrite Hp; reflexivity. Qed.

Lemma str_contains_middle (t pre post : string) :
  str_contains t (pre +:+ t +:+ post) = true.
Proof.
  apply str_contains_append, str_contains_prefix, prefix_append.
Qed.

Lemma concat_cons (sep x y : string) (l : list string) :
  String.concat sep (x :: y :: l) = x +:+ sep +:+ String.concat sep (y :: l).
Proof. reflexivity. Qed.

Lemma str_join_contains (sep t pre : string) (names : list string) :
  In t names -> str_contains t (pre +:+ str_join sep names) = true.
Proof.
  unfold str_join. revert pre.
  induction names as [|x names IH]; intros pre Hin; [contradiction|].
  destruct names as [|y names].
  - destruct Hin as [->|[]]. cbn [String.concat].
    rewrite <- (append_nil_r t) at 2. apply str_contains_middle.
  - rewrite concat_cons. destruct Hin as [->|Hin].
    + apply str_contains_middle.
    + rewrite <- !append_assoc. apply IH. exact Hin.
Qed.

Lemma str_contains_empty (t : string) : str_contains t "" = true -> t = "".
Proof. destruct t; [reflexivity | discriminate]. Qed.

Section TableFacts.
Context `{PyRuntime}.

Lemma map_res_strs (names : list string) :
  map_res (fun x => match x with VStr s => Ok s | _ => Raise TypeError end)
          (map VStr names) = Ok names.
Proof. induction names as [|n names IH]; simpl; [|rewrite IH]; reflexivity. Qed.

(** On a store whose metadata lists [names], the text of the available
    tables names each of them. *)
Lemma available_tables_lists (d meta : dict) (names : list string) :
  dict_get d "_meta" = Some (VDict meta) ->
  dict_get meta "tables" = Some (VList (map VStr names)) ->
  exists available,
    available_tables (VDict d) = Ok available /\
    forall pre, enumerates (pre +:+ available) names.
Proof.
  intros Hm Ht. unfold available_tables, list_tables_of, py_join.
  cbn [py_getitem res_bind]. rewrite Hm. cbn [py_getitem res_bind].
  rewrite Ht. cbn [res_bind py_copy py_iter]. rewrite map_res_strs.
  cbn [res_bind]. eexists. split; [reflexivity|].
  intros pre. apply Forall_forall. intros t Hin.
  destruct (String.eqb_spec (str_join ", " names) "") as [Hempty|_].
  - pose proof (str_join_contains ", " t "" names Hin) as Hc.
    change ("" +:+ str_join ", " names) with (str_join ", " names) in Hc.
    rewrite Hempty in Hc. apply str_contains_empty in Hc. subst t.
    apply str_contains_prefix. destruct (pre +:+ "none"); reflexivity.
  - apply str_join_contains. exact Hin.
Qed.

Lemma exists_table_absent (st : State) (d : dict) (table_name : string) :
  _data st = VDict d -> dict_get d table_name = None ->
  exists_table table_name st = (Ok false, st).
Proof.
  intros Hd Hn. cbv [exists_table bind get_data lift]. rewrite Hd.
  cbn [py_in]. unfold dict_mem. rewrite Hn. reflexivity.
Qed.

End TableFacts.

(** [update] on a table that does not exist names that table only: the
    message does not mention the table [users] that exists. *)
Lemma update_message_names_no_table :
  exists msg,
    fst (update "ghost" (FDict []) (UDict []) Example.store)
      = Raise (TableNotFoundError msg) /\
    ~ enumerates msg ["users"].
Proof.
  eexists. split; [reflexivity|].
  intros Hen. apply Forall_inv in Hen. vm_compute in Hen. discriminate.
Qed.

(** C8, amended.  On a store whose metadata lists its tables, every
    operation that takes a table name raises the not-found error for a
    name that is not a key of the store, and leaves the state as it was.
    The message of [select] and of [drop_table] ends with the list of the
    existing tables; the message of [update], [delete], [clear_table] and
    [stats] names the missing table only. *)
Theorem unknown_table_raises `{PyRuntime} (st : State) (d meta : dict)
    (names : list string) (table_name : string) :
  _data st = VDict d ->
  dict_get d table_name = None ->
  dict_get d "_meta" = Some (VDict meta) ->
  dict_get meta "tables" = Some (VList (map VStr names)) ->
  (exists msg,
     enumerates msg names /\
     (forall filters fields limit offset order_by reverse,
        select table_name filters fields limit offset order_by reverse st
          = (Raise (TableNotFoundError msg), st)) /\
     drop_table table_name st = (Raise (TableNotFoundError msg), st)) /\
  (forall filters updater,
     update table_name filters updater st
       = (Raise (not_found_plain table_name), st)) /\
  (forall filters,
     delete table_name filters st = (Raise (not_found_plain table_name), st)) /\
  clear_table table_name st = (Raise (not_found_plain table_name), st) /\
  stats table_name st = (Raise (not_found_plain table_name), st).
Proof.
  intros Hd Hn Hm Ht.
  pose proof (exists_table_absent st d table_name Hd Hn) as Hex.
  destruct (available_tables_lists d meta names Hm Ht) as (avail & Hav & Hen).
  split.
  - eexists. split; [|split].
    + apply (Hen ("Table '" +:+ table_name +:+ "' does not exist. " +:+
                  "Available tables: ")).
    + intros. cbv [select bind get_data lift select_rows]. rewrite Hd.
      cbn [py_in res_bind]. unfold dict_mem. rewrite Hn. cbn [negb].
      rewrite Hav. cbn [res_bind]. unfold not_found_available.
      rewrite !append_assoc. reflexivity.
    + cbv [drop_table bind get_data lift raise exists_table]. rewrite Hd.
      cbn [py_in]. unfold dict_mem. rewrite Hn. cbn [negb].
      rewrite Hav. unfold not_found_available.
      rewrite !append_assoc. reflexivity.
  - repeat split; intros.
    + unfold update, bind. rewrite Hex. reflexivity.
    + unfold delete, bind. rewrite Hex. reflexivity.
    + unfold clear_table, bind. rewrite Hex. reflexivity.
    + unfold stats, bind. rewrite Hex. reflexivity.
Qed.

Lemma unknown_table_raises_witness :
  update "ghost" (FDict []) (UDict []) Example.store
    = (Raise (not_found_plain "ghost"), Example.store) /\
  exists msg,
    enumerates msg ["users"] /\
    select "ghost" FNone None None 0 None false Example.store
      = (Raise (TableNotFoundError msg), Example.store).
Proof.
  destruct (unknown_table_raises Example.store _ _ ["users"] "ghost"
              eq_refl eq_refl eq_refl eq_refl)
    as ((msg & Hen & Hsel & _) & Hupd & _).
  split; [apply Hupd|].
  exists msg. split; [exact Hen | apply Hsel].
Defined.

(** The two kinds of message, on the example store. *)
Example not_found_messages :
  fst (select "ghost" FNone None None 0 None false Example.store)
    = Raise (TableNotFoundError
               "Table 'ghost' does not exist. Available tables: users") /\
  fst (delete "ghost" (FDict []) Example.store)
    = Raise (TableNotFoundError "Table 'ghost' does not exist").
Proof. split; reflexivity. Qed.

(** ** The metadata key *)

Section MetaFacts.
Context `{PyRuntime}.

(** After [ensure_meta] the store has the key ["_meta"]. *)
Lemma ensure_meta_post (s s' : State) :
  ensure_meta s = (Ok tt, s') -> py_in (VStr "_meta") (_data s') = Ok true.
Proof.
  cbv [ensure_meta bind get_data lift now set_data ret].
  destruct (py_in (VStr "_meta") (_data s)) as [[|]|] eqn:Hin; cbn [negb].
  - intros [= <-]. exact Hin.
  - destruct (_data s) as [| | | | |d]; cbn [py_setitem with_ticks _data];
      try discriminate.
    intros [= <-]. cbn [_data with_data py_in]. unfold dict_mem.
    rewrite dict_get_set_eq. reflexivity.
  - discriminate.
Qed.

Lemma __init___post (path : Path) (backup_ : bool)
    (files_ : gmap string document) (clock_ : nat -> string) (ticks_ : nat)
    (st w : State) :
  __init__ path backup_ files_ clock_ ticks_ = (Ok st, w) ->
  py_in (VStr "_meta") (_data st) = Ok true.
Proof.
  unfold __init__.
  set (st0 := {| db_path := path; backup := backup_; _data := VNull;
                 files := files_; clock := clock_; ticks := ticks_ |}).
  set (load := fun exists_ : bool =>
                 if exists_ then (data <- _read_db ;; set_data data)%M
                 else (created <- now ;;
                       set_data (VDict [("_meta", fresh_meta created)]) ;;;
                       _write_db)%M).
  change ((exists_ <- path_exists path ;; load exists_ ;;; ensure_meta ;;; get)%M
            st0 = (Ok st, w) -> py_in (VStr "_meta") (_data st) = Ok true).
  unfold bind at 1. destruct (path_exists path st0) as [[ex|e] s0]; [|discriminate].
  unfold bind at 1. destruct (load ex s0) as [[[]|e] s1]; [|discriminate].
  unfold bind at 1. destruct (ensure_meta s1) as [[[]|e] s2] eqn:He; [|discriminate].
  unfold get. intros [= <- _]. exact (ensure_meta_post _ _ He).
Qed.

(** Opening a path that has no file creates the store with its metadata
    and writes it. *)
Lemma __init___fresh (path : Path) (backup_ : bool)
    (files_ : gmap string document) (clock_ : nat -> string) (ticks_ : nat) :
  files_ !! path_str path = None ->
  exists st,
    __init__ path backup_ files_ clock_ ticks_ = (Ok st, st) /\
    _data st =
      VDict [("_meta",
              VDict [("tables", VList []); ("created", VStr (clock_ ticks_));
                     ("version", VStr "1.0.0");
                     ("last_modified", VStr (clock_ (S ticks_)))])] /\
    files st !! path_str path =
      Some (json_dumps (VDict [("_meta", fresh_meta (clock_ ticks_))])).
Proof.
  intros Hf.
  pose (s1 := {| db_path := path; backup := backup_;
                 _data := VDict [("_meta", fresh_meta (clock_ ticks_))];
                 files := files_; clock := clock_; ticks := S ticks_ |}).
  destruct (_write_db_ok s1 [("_meta", fresh_meta (clock_ ticks_))] _
              eq_refl eq_refl) as (s2 & Hw & Hfile & Hdata & _).
  exists s2. split; [|split; [exact Hdata | exact Hfile]].
  unfold __init__.
  unfold bind at 1. cbv [path_exists bind get ret files].
  rewrite Hf. rewrite bool_decide_eq_false_2 by (intros [? ?]; discriminate).
  cbv [now set_data with_ticks with_data db_path backup _data files clock ticks].
  fold s1. rewrite Hw.
  cbv [ensure_meta bind get_data lift]. rewrite Hdata. reflexivity.
Qed.

Lemma create_table_meta (st : State) :
  exists e, create_table "_meta" st = (Raise e, st).
Proof.
  cbv [create_table bind exists_table get_data lift raise].
  destruct (py_in (VStr "_meta") (_data st)) as [[|]|]; eexists; reflexivity.
Qed.

Lemma list_tables_names (st : State) (d meta : dict) (names : list string) :
  _data st = VDict d ->
  dict_get d "_meta" = Some (VDict meta) ->
  dict_get meta "tables" = Some (VList (map VStr names)) ->
  list_tables st = (Ok (VList (map VStr names)), st).
Proof.
  intros Hd Hm Ht. cbv [list_tables bind get_data lift list_tables_of].
  rewrite Hd. cbn [py_getitem res_bind]. rewrite Hm. cbn [py_getitem res_bind].
  rewrite Ht. reflexivity.
Qed.

End MetaFacts.

(** ** The invariant and the name ["_meta"] (C9) *)

Lemma example_store_invariant : store_invariant Example.users_data.
Proof.
  exists [("_meta", VDict [("tables", VList [VStr "users"]);
                           ("created", VStr "T0"); ("version", VStr "1.0.0")]);
          ("users", VList [Example.alice; Example.bob])],
         [("tables", VList [VStr "users"]); ("created", VStr "T0");
          ("version", VStr "1.0.0")],
         ["users"].
  split; [reflexivity|]. split.
  { repeat constructor; simpl; intuition discriminate. }
  split; [reflexivity|]. split; [reflexivity|]. split.
  { repeat constructor. simpl. tauto. }
  split.
  - intros k. unfold dict_mem. cbn [dict_get In].
    destruct (String.eqb_spec "_meta" k) as [Hm|Hm];
      destruct (String.eqb_spec "users" k) as [Hu|Hu]; split;
      intuition congruence.
  - repeat constructor.
Qed.

(** C9 fails on the name ["_meta"]: [drop_table] takes the metadata key
    for a table, since it is a key of the store, deletes it and then
    fails on reading the metadata.  The store it leaves has no metadata:
    the invariant that held before is lost, and even [exists_table] no
    longer finds ["_meta"]. *)
Theorem drop_meta_breaks_invariant :
  let st' := snd (drop_table "_meta" Example.store) in
  store_invariant (_data Example.store) /\
  fst (drop_table "_meta" Example.store) = Raise (KeyError (VStr "_meta")) /\
  _data st' = VDict [("users", VList [Example.alice; Example.bob])] /\
  ~ store_invariant (_data st') /\
  fst (exists_table "_meta" st') = Ok false.
Proof.
  intros st'. split; [exact example_store_invariant|].
  split; [reflexivity|]. split; [reflexivity|]. split; [|reflexivity].
  intros (d & meta & names & Hd & _ & Hm & _).
  change (_data st') with (VDict [("users", VList [Example.alice; Example.bob])])
    in Hd.
  injection Hd as <-. discriminate Hm.
Qed.

(** [clear_table] and [delete] take ["_meta"] for a table as well: the
    metadata becomes an empty list, the file is written with it, and the
    write then fails on stamping it. *)
Example clear_meta_breaks_invariant :
  let st' := snd (clear_table "_meta" Example.store) in
  fst (clear_table "_meta" Example.store) = Raise TypeError /\
  py_getitem (_data st') "_meta" = Ok (VList []) /\
  (doc <- match files st' !! "demo.json" with
          | Some doc => Ok doc
          | None => Raise (CafeDBError "Cannot read database file")
          end ;;
   py_getitem doc "_meta")%res = Ok (VList []) /\
  fst (delete "_meta" (FDict []) Example.store) = Raise TypeError.
Proof. repeat split; vm_compute; reflexivity. Qed.

(** ** Copies and sharing (C6) *)

Lemma dict_keys_set {V} (d : list (string * V)) (k : string) (v : V) :
  dict_keys (dict_set d k v) =
  if dict_mem d k then dict_keys d else dict_keys d ++ [k].
Proof.
  unfold dict_mem. induction d as [|[k0 v0] d IH]; simpl; [reflexivity|].
  destruct (String.eqb_spec k0 k) as [->|Hne]; simpl; [reflexivity|].
  rewrite IH. destruct (dict_get d k); reflexivity.
Qed.

Lemma dict_mem_keys {V} (d : list (string * V)) (k : string) :
  dict_mem d k = true <-> In k (dict_keys d).
Proof.
  unfold dict_mem. induction d as [|[k0 v0] d IH]; simpl.
  - split; [discriminate | contradiction].
  - destruct (String.eqb_spec k0 k) as [->|Hne].
    + split; auto.
    + rewrite IH. split; [auto | intros [?|?]; [contradiction | assumption]].
Qed.

Lemma filter_res_incl {A} (f : A -> res bool) (l kept : list A) :
  filter_res f l = Ok kept -> incl kept l.
Proof.
  revert kept. induction l as [|x l IH]; simpl; intros kept Hf.
  - injection Hf as <-. apply incl_refl.
  - destruct (f x) as [b|]; simpl in Hf; [|discriminate].
    destruct (filter_res f l) as [rest|]; simpl in Hf; [|discriminate].
    injection Hf as <-. specialize (IH rest eq_refl).
    destruct b.
    + intros y [->|Hy]; [left; reflexivity | right; apply IH; exact Hy].
    + intros y Hy. right. apply IH. exact Hy.
Qed.

Lemma incl_firstn {A} (n : nat) (l : list A) : incl (firstn n l) l.
Proof.
  revert n. induction l as [|x l IH]; intros [|n]; cbn; intros y Hy;
    try contradiction.
  destruct Hy as [->|Hy]; [left; reflexivity | right; exact (IH n y Hy)].
Qed.

Lemma incl_skipn {A} (n : nat) (l : list A) : incl (skipn n l) l.
Proof.
  revert n. induction l as [|x l IH]; intros [|n]; cbn; intros y Hy;
    try contradiction; try exact Hy.
  right. exact (IH n y Hy).
Qed.

(** The sort and the filter commute with a map that keeps the order. *)

Lemma insert_by_map {A B} (g : A -> B) (lt1 : A -> A -> option bool)
    (lt2 : B -> B -> option bool) (x : A) (l : list A) :
  (forall a b, lt2 (g a) (g b) = lt1 a b) ->
  insert_by lt2 (g x) (map g l) = option_map (map g) (insert_by lt1 x l).
Proof.
  intros Hlt. induction l as [|y l IH]; cbn; [reflexivity|].
  rewrite Hlt. destruct (lt1 x y) as [[|]|]; [reflexivity| |reflexivity].
  rewrite IH. destruct (insert_by lt1 x l); reflexivity.
Qed.

Lemma sort_into_map {A B} (g : A -> B) (lt1 : A -> A -> option bool)
    (lt2 : B -> B -> option bool) (l acc : list A) :
  (forall a b, lt2 (g a) (g b) = lt1 a b) ->
  sort_into lt2 (map g acc) (map g l) = option_map (map g) (sort_into lt1 acc l).
Proof.
  intros Hlt. revert acc. induction l as [|x l IH]; intros acc; cbn;
    [reflexivity|].
  rewrite (insert_by_map g lt1 lt2 x acc Hlt).
  destruct (insert_by lt1 x acc) as [acc'|]; cbn; [apply IH | reflexivity].
Qed.

Lemma sort_by_map {A B} (g : A -> B) (lt1 : A -> A -> option bool)
    (lt2 : B -> B -> option bool) (reverse : bool) (l : list A) :
  (forall a b, lt2 (g a) (g b) = lt1 a b) ->
  sort_by lt2 reverse (map g l) = option_map (map g) (sort_by lt1 reverse l).
Proof.
  intros Hlt. unfold sort_by. destruct reverse.
  - rewrite <- map_rev.
    pose proof (sort_into_map g lt1 lt2 (rev l) [] Hlt) as E.
    change (map g []) with (@nil B) in E. rewrite E.
    destruct (sort_into lt1 [] (rev l)); cbn; [|reflexivity].
    rewrite map_rev. reflexivity.
  - exact (sort_into_map g lt1 lt2 l [] Hlt).
Qed.

Lemma filter_res_map {A B} (g : A -> B) (f : B -> res bool) (l : list A) :
  filter_res f (map g l) =
  (kept <- filter_res (fun a => f (g a)) l ;; Ok (map g kept))%res.
Proof.
  induction l as [|x l IH]; cbn; [reflexivity|].
  destruct (f (g x)) as [b|]; cbn; [|reflexivity].
  rewrite IH. destruct (filter_res _ l); cbn; [|reflexivity].
  destruct b; reflexivity.
Qed.

Lemma map_res_map {A B C} (g : A -> B) (f : B -> res C) (l : list A) :
  map_res f (map g l) = map_res (fun a => f (g a)) l.
Proof.
  induction l as [|x l IH]; cbn; [reflexivity|]. rewrite IH. reflexivity.
Qed.

Lemma map_res_length {A B} (f : A -> res B) (l : list A) (out : list B) :
  map_res f l = Ok out -> length out = length l.
Proof.
  revert out. induction l as [|x l IH]; cbn; intros out Hm.
  - injection Hm as <-. reflexivity.
  - destruct (f x); cbn in Hm; [|discriminate].
    destruct (map_res f l); cbn in Hm; [|discriminate].
    injection Hm as <-. cbn. f_equal. apply IH. reflexivity.
Qed.

Lemma combine_map_r {A B C} (g : B -> C) (keys : list A) (l : list B) :
  combine keys (map g l) = map (fun p => (fst p, g (snd p))) (combine keys l).
Proof.
  revert keys. induction l as [|x l IH]; intros [|k keys]; cbn;
    try reflexivity.
  rewrite IH. reflexivity.
Qed.

Module HeapFacts.
Import Heap.

Lemma alloc_old (h : heap) (o : obj) (l : nat) :
  (l < length h)%nat -> (h ++ [o]) !! l = h !! l.
Proof. intros Hl. apply lookup_app_l. exact Hl. Qed.

(** A write at an address leaves the other addresses alone. *)
Lemma frame_write (h : heap) (l l' : nat) (o : obj) :
  l <> l' -> <[l := o]> h !! l' = h !! l'.
Proof. intros Hne. apply list_lookup_insert_ne. exact Hne. Qed.

(** Two heaps that agree below [n], where the objects below [n] hold
    references below [n] only, denote the same trees below [n]. *)
Lemma reify_frame (n : nat) (h h' : heap) :
  (forall l, (l < n)%nat -> h' !! l = h !! l) ->
  (forall l o, (l < n)%nat -> h !! l = Some o ->
               Forall (refs_below n) (obj_values o)) ->
  forall fuel v, refs_below n v -> reify fuel h' v = reify fuel h v.
Proof.
  intros Hagree Hclosed fuel.
  induction fuel as [|fuel IH]; intros v Hv; destruct v as [| | | |l];
    try reflexivity.
  cbn [reify]. cbn [refs_below] in Hv. rewrite (Hagree l Hv).
  destruct (h !! l) as [[items|items]|] eqn:Hl; [| |reflexivity].
  - f_equal. pose proof (Hclosed l _ Hv Hl) as Hrefs. cbn [obj_values] in Hrefs.
    rewrite Forall_forall in Hrefs.
    apply map_ext_in. intros kv Hin. f_equal. apply IH. apply Hrefs.
    apply in_map. exact Hin.
  - f_equal. pose proof (Hclosed l _ Hv Hl) as Hrefs. cbn [obj_values] in Hrefs.
    rewrite Forall_forall in Hrefs.
    apply map_ext_in. intros x Hin. apply IH. apply Hrefs. exact Hin.
Qed.

Lemma closed_below (h : heap) :
  closed h ->
  forall l o, (l < length h)%nat -> h !! l = Some o ->
              Forall (refs_below (length h)) (obj_values o).
Proof.
  intros Hc l o _ Hl. unfold closed in Hc.
  rewrite Forall_forall in Hc. apply Hc.
  apply list_elem_of_In, list_elem_of_lookup. eauto.
Qed.

(** A comprehension whose body allocates one object per row returns the
    addresses that follow the heap, in order, and leaves the heap below
    them as it was. *)
Lemma map_heap_fresh (f : heap -> pyval -> res (pyval * heap))
    (P : heap -> pyval -> obj -> Prop) :
  (forall h row c h', f h row = Ok (c, h') ->
     exists o, c = PRef (length h) /\ h' = h ++ [o] /\ P h row o) ->
  (forall h o' row o, P (h ++ [o']) row o -> refs_below (length h) row ->
                      P h row o) ->
  forall rows h out h',
    Forall (refs_below (length h)) rows ->
    map_heap f h rows = Ok (out, h') ->
    exists new,
      h' = h ++ new /\
      out = map PRef (seq (length h) (length rows)) /\
      Forall2 (P h) rows new.
Proof.
  intros Hf Hmono rows.
  induction rows as [|row rows IH]; intros h out h' Hrefs Hm; cbn [map_heap] in Hm.
  - injection Hm as <- <-. exists []. rewrite app_nil_r.
    repeat split; constructor.
  - destruct (f h row) as [[c h1]|] eqn:Hrow; cbn [res_bind fst snd] in Hm;
      [|discriminate].
    destruct (map_heap f h1 rows) as [[cs h2]|] eqn:Hrows;
      cbn [res_bind fst snd] in Hm; [|discriminate].
    injection Hm as <- <-.
    destruct (Hf _ _ _ _ Hrow) as (o & -> & -> & HP).
    inversion Hrefs as [|? ? Hrow_below Hrows_below]; subst.
    destruct (IH (h ++ [o]) cs h2) as (new & -> & -> & Hall).
    { eapply Forall_impl; [|exact Hrows_below].
      intros [| | | |l] Hl; cbn in *; try exact I.
      rewrite length_app. simpl. lia. }
    { exact Hrows. }
    exists (o :: new). rewrite <- app_assoc. split; [reflexivity|]. split.
    + rewrite length_app. cbn [length map seq]. f_equal.
      replace (length h + 1)%nat with (S (length h)) by lia. reflexivity.
    + constructor; [exact HP|].
      clear -Hall Hmono Hrows_below.
      induction Hall as [|r o1 rs os Hr _ IHall]; constructor.
      * inversion Hrows_below; subst. eapply Hmono; eassumption.
      * inversion Hrows_below; subst. apply IHall. assumption.
Qed.

Lemma copy_row_spec (h : heap) (row c : pyval) (h' : heap) :
  copy_row h row = Ok (c, h') ->
  exists o, c = PRef (length h) /\ h' = h ++ [o] /\ copy_of h row o.
Proof.
  unfold copy_row, alloc, copy_of. destruct row as [| | | |l]; try discriminate.
  destruct (h !! l) as [o|] eqn:Hl; [|discriminate].
  intros [= <- <-]. eauto 6.
Qed.

Lemma copy_of_mono (h : heap) (o' : obj) (row : pyval) (o : obj) :
  copy_of (h ++ [o']) row o -> refs_below (length h) row -> copy_of h row o.
Proof.
  intros (l & -> & Hl) Hb. cbn in Hb. exists l. split; [reflexivity|].
  rewrite <- Hl. symmetry. apply alloc_old. exact Hb.
Qed.

Lemma project_items_keys (h : heap) (fields : list string) (row : pyval)
    (acc items' : list (string * pyval)) :
  project_items h fields row acc = Ok items' ->
  (forall k, In k (dict_keys items') <-> In k (dict_keys acc) \/ In k fields) /\
  (NoDup (dict_keys acc) -> NoDup (dict_keys items')).
Proof.
  revert acc. induction fields as [|f fields IH]; intros acc Hp; cbn in Hp.
  - injection Hp as <-. split; [|auto].
    intros k. split; [auto | intros [?|[]]; assumption].
  - destruct (get_or_null h row f) as [v|]; cbn in Hp; [|discriminate].
    destruct (IH _ Hp) as [Hkeys Hnodup]. split.
    + intros k. rewrite Hkeys, dict_keys_set.
      destruct (dict_mem acc f) eqn:Hm.
      * apply dict_mem_keys in Hm. cbn [In]. split.
        -- intros [?|?]; auto.
        -- intros [?|[<-|?]]; auto.
      * rewrite in_app_iff. cbn [In]. split.
        -- intros [[?|[?|[]]]|?]; auto.
        -- intros [?|[?|?]]; auto.
    + intros Hnd. apply Hnodup. rewrite dict_keys_set.
      destruct (dict_mem acc f) eqn:Hm; [exact Hnd|].
      apply NoDup_app; [exact Hnd | repeat constructor; intros [] |].
      intros k Hk [<-|[]]. apply dict_mem_keys in Hk. congruence.
Qed.

Lemma project_items_values (h : heap) (fields : list string) (l : nat)
    (items acc items' : list (string * pyval)) :
  h !! l = Some (ODict items) ->
  project_items h fields (PRef l) acc = Ok items' ->
  forall k,
    dict_get items' k =
    if existsb (String.eqb k) fields
    then Some (match dict_get items k with Some v => v | None => PNull end)
    else dict_get acc k.
Proof.
  intros Hl. revert acc. induction fields as [|f fields IH]; intros acc Hp k;
    cbn in Hp.
  - injection Hp as <-. reflexivity.
  - rewrite Hl in Hp. cbn in Hp. rewrite (IH _ Hp k). cbn [existsb].
    destruct (existsb (String.eqb k) fields);
      [rewrite orb_true_r; reflexivity|].
    rewrite orb_false_r. rewrite dict_get_set.
    rewrite (String.eqb_sym f k).
    destruct (String.eqb_spec k f) as [->|_]; reflexivity.
Qed.

Lemma project_row_spec (fields : list string) (h : heap) (row c : pyval)
    (h' : heap) :
  project_row fields h row = Ok (c, h') ->
  exists o, c = PRef (length h) /\ h' = h ++ [o] /\
            projection_of fields h row o.
Proof.
  unfold project_row, alloc.
  destruct (project_items h fields row []) as [items'|] eqn:Hp; cbn;
    [|discriminate].
  intros [= <- <-]. eexists. split; [reflexivity|]. split; [reflexivity|].
  exists items'. split; [reflexivity|].
  destruct (project_items_keys _ _ _ _ _ Hp) as [Hkeys Hnodup].
  split; [apply Hnodup; constructor|]. split.
  { intros k. rewrite Hkeys. split; [intros [[]|?]; assumption | auto]. }
  intros Hne. destruct fields as [|f fields]; [congruence|].
  assert (Hrow : exists l items, row = PRef l /\ h !! l = Some (ODict items)).
  { pose proof Hp as Hp0. cbn [project_items] in Hp0.
    unfold get_or_null in Hp0.
    destruct row as [| | | |l]; cbn [res_bind] in Hp0; try discriminate.
    destruct (h !! l) as [[items|items]|] eqn:Hl; cbn [res_bind] in Hp0;
      try discriminate.
    eauto. }
  destruct Hrow as (l & items & -> & Hl). exists l, items.
  split; [reflexivity|]. split; [exact Hl|].
  intros k Hk. rewrite (project_items_values _ _ _ _ _ _ Hl Hp k).
  assert (Hex : existsb (String.eqb k) (f :: fields) = true).
  { apply existsb_exists. exists k. split; [exact Hk | apply String.eqb_refl]. }
  rewrite Hex. reflexivity.
Qed.

Lemma projection_of_mono (fields : list string) (h : heap) (o' : obj)
    (row : pyval) (o : obj) :
  projection_of fields (h ++ [o']) row o -> refs_below (length h) row ->
  projection_of fields h row o.
Proof.
  intros (items' & -> & Hnd & Hkeys & Hvals) Hb.
  exists items'. repeat split; try assumption; try apply Hkeys.
  intros Hne. destruct (Hvals Hne) as (l & items & -> & Hl & Hget).
  exists l, items. split; [reflexivity|]. split; [|exact Hget].
  rewrite <- Hl. symmetry. apply alloc_old. exact Hb.
Qed.

Section SelectFacts.
Context `{PyRuntime}.

Lemma sorted_rows_perm (key : value -> res value) (reverse : bool)
    (rows out : list (value * pyval)) :
  sorted_rows key reverse rows = Ok out -> Permutation rows out.
Proof.
  unfold sorted_rows.
  destruct (map_res _ rows) as [keys|] eqn:Hk; cbn; [|discriminate].
  destruct (sort_by _ reverse _) as [s|] eqn:Hs; [|discriminate].
  intros [= <-]. apply sort_by_perm in Hs.
  apply (Permutation_map snd) in Hs. rewrite <- Hs.
  assert (Hlen : length keys = length rows).
  { clear Hs. revert keys Hk. induction rows as [|r rows IH]; cbn; intros keys Hk.
    - injection Hk as <-. reflexivity.
    - destruct (key (fst r)); cbn in Hk; [|discriminate].
      destruct (map_res _ rows) as [ks|]; cbn in Hk; [|discriminate].
      injection Hk as <-. cbn. f_equal. apply IH. reflexivity. }
  clear Hk Hs. revert keys Hlen.
  induction rows as [|r rows IH]; intros [|k keys] Hlen; try discriminate;
    cbn; [reflexivity|].
  constructor. apply IH. cbn in Hlen. lia.
Qed.

(** The rows that reach the projection are rows of the table. *)
Lemma select_refs_incl (h : heap) (table : list pyval) (filters : filter_arg)
    (limit : option Z) (offset : Z) (order_by : option string)
    (reverse : bool) (rows : list pyval) :
  select_refs h table filters limit offset order_by reverse = Ok rows ->
  incl rows table.
Proof.
  unfold select_refs.
  set (dec := map (fun r => (view h r, r)) table).
  assert (Hdec : incl (map snd dec) table).
  { unfold dec. rewrite map_map. cbn. rewrite map_id. apply incl_refl. }
  clearbody dec.
  destruct (match filters with
            | FNone => Ok dec
            | FDict d => filter_res (fun p => condition_func d (fst p)) dec
            | FCallable f => filter_res (fun p => f (fst p)) dec
            | FOther => Raise (QueryError "Filters must be dict, callable, or None")
            end) as [kept|] eqn:Hf; cbn [res_bind]; [|discriminate].
  assert (Hkept : incl kept dec).
  { destruct filters; try discriminate.
    - injection Hf as <-. apply incl_refl.
    - exact (filter_res_incl _ _ _ Hf).
    - exact (filter_res_incl _ _ _ Hf). }
  destruct (match order_by with
            | Some field =>
                if String.eqb field "" then Ok kept
                else
                  (order_by_warning (VList (map fst kept)) ;;;
                   except_TypeError
                     (sorted_rows (sort_key field) reverse kept)
                     (sorted_rows (sort_key_str field) reverse kept))%res
            | None => Ok kept
            end) as [sorted|] eqn:Hs; cbn [res_bind]; [|discriminate].
  assert (Hsorted : incl sorted kept).
  { destruct order_by as [field|]; [|injection Hs as <-; apply incl_refl].
    destruct (String.eqb field ""); [injection Hs as <-; apply incl_refl|].
    destruct (order_by_warning _); cbn in Hs; [|discriminate].
    unfold except_TypeError in Hs.
    destruct (sorted_rows (sort_key field) reverse kept) as [s|e] eqn:H1.
    - injection Hs as <-. apply sorted_rows_perm in H1.
      intros x Hx. eapply Permutation_in; [symmetry; exact H1 | exact Hx].
    - destruct e; try discriminate.
      apply sorted_rows_perm in Hs.
      intros x Hx. eapply Permutation_in; [symmetry; exact Hs | exact Hx]. }
  intros [= <-]. intros r Hr. apply Hdec.
  apply in_map_iff in Hr as (p & <- & Hp). apply in_map.
  apply Hkept, Hsorted.
  assert (Hpage : forall l : list (value * pyval),
            incl (if 0 <? offset then skipn (Z.to_nat offset) l else l) l).
  { intros l. destruct (0 <? offset); [apply incl_skipn | apply incl_refl]. }
  destruct limit as [m|].
  - apply Hpage. eapply incl_firstn. exact Hp.
  - apply Hpage. exact Hp.
Qed.

End SelectFacts.

Lemma dict_row_alloc (h : heap) (o : obj) (row : pyval) :
  dict_row h row -> dict_row (h ++ [o]) row.
Proof.
  intros (l & items & -> & Hl). exists l, items. split; [reflexivity|].
  rewrite alloc_old; [exact Hl|]. eapply lookup_lt_Some. exact Hl.
Qed.

Lemma project_items_total (h : heap) (fields : list string) (row : pyval)
    (acc : list (string * pyval)) :
  dict_row h row -> exists items', project_items h fields row acc = Ok items'.
Proof.
  intros (l & items & -> & Hl). revert acc.
  induction fields as [|f fields IH]; intros acc; cbn; [eauto|].
  rewrite Hl. cbn. apply IH.
Qed.

(** On rows that are dictionaries the last stage returns. *)
Lemma apply_projection_total (fields : option (list string)) (h : heap)
    (rows : list pyval) :
  Forall (dict_row h) rows ->
  exists out h', apply_projection fields h rows = Ok (out, h').
Proof.
  unfold apply_projection.
  set (f := match fields with
            | Some fs => project_row fs
            | None => copy_row
            end).
  assert (Hf : forall h row, dict_row h row ->
                 exists o, f h row = Ok (PRef (length h), h ++ [o])).
  { intros h0 row Hrow. unfold f. destruct fields as [fs|].
    - unfold project_row, alloc.
      destruct (project_items_total h0 fs row [] Hrow) as [items' ->].
      cbn. eauto.
    - destruct Hrow as (l & items & -> & Hl). unfold copy_row, alloc.
      rewrite Hl. eauto. }
  replace (match fields with
           | Some fs => map_heap (project_row fs) h rows
           | None => map_heap copy_row h rows
           end) with (map_heap f h rows) by (unfold f; destruct fields; reflexivity).
  clearbody f. revert h.
  induction rows as [|row rows IH]; intros h Hrows; cbn [map_heap]; [eauto|].
  inversion Hrows as [|? ? Hrow Hrest]; subst.
  destruct (Hf h row Hrow) as [o ->]. cbn [res_bind fst snd].
  destruct (IH (h ++ [o])) as (out & h' & ->).
  { eapply Forall_impl; [|exact Hrest]. intros r. apply dict_row_alloc. }
  cbn [res_bind fst snd]. eauto.
Qed.

(** A change of the keys of an object above [n] leaves the heap below
    [n] alone. *)
Lemma own_keys_frame (h h' : heap) (n l' : nat) :
  (n <= l')%nat ->
  (exists k v, setitem h (PRef l') k v = Ok h') \/
  (exists k, delitem h (PRef l') k = Ok h') ->
  forall l, (l < n)%nat -> h' !! l = h !! l.
Proof.
  intros Hl' Hmut l Hl.
  assert (Hw : exists o, h' = <[l' := o]> h).
  { destruct Hmut as [(k & v & Hs)|(k & Hd)].
    - unfold setitem in Hs. destruct (h !! l') as [[items|]|]; try discriminate.
      injection Hs as <-. eauto.
    - unfold delitem in Hd. destruct (h !! l') as [[items|]|]; try discriminate.
      destruct (dict_mem items k); [|discriminate]. injection Hd as <-. eauto. }
  destruct Hw as [o ->]. apply frame_write. lia.
Qed.

(** The record that [select] returns is not independent of the stored
    one: its nested list is the stored list, and appending to it through
    the result changes the stored record.  The same holds for the value
    of a projected field. *)
Lemma nested_mutation_reaches_store :
  let h0 := example_heap in
  let stored := PRef 1 in
  exists h1 returned tags h2,
    select h0 example_table FNone None None 0 None false
      = Ok ([returned], h1) /\
    getitem h1 returned "tags" = Ok tags /\
    append h1 tags (PStr "x") = Ok h2 /\
    view h0 stored =
      VDict [("name", VStr "Alice"); ("tags", VList [VStr "a"])] /\
    view h2 stored =
      VDict [("name", VStr "Alice"); ("tags", VList [VStr "a"; VStr "x"])] /\
    (exists h1' projected tags',
       select h0 example_table FNone (Some ["tags"]) None 0 None false
         = Ok ([projected], h1') /\
       getitem h1' projected "tags" = Ok tags' /\ tags' = tags).
Proof.
  intros h0 stored.
  exists (h0 ++ [ODict [("name", PStr "Alice"); ("tags", PRef 0)]]),
         (PRef 2), (PRef 0),
         [OList [PStr "a"; PStr "x"];
          ODict [("name", PStr "Alice"); ("tags", PRef 0)];
          ODict [("name", PStr "Alice"); ("tags", PRef 0)]].
  repeat split; try reflexivity.
  exists (h0 ++ [ODict [("tags", PRef 0)]]), (PRef 2), (PRef 0).
  repeat split; reflexivity.
Qed.

(** C6, amended.  On a table of records, [select] returns.  Without a
    projection list each returned record is a new object that holds the
    items of a stored record (a shallow copy): setting or deleting keys
    of a returned record leaves every object of the store, and so every
    stored record, as it was; the values of the items are shared with the
    stored record.  With a projection list each returned record is a new
    dictionary whose keys are exactly the listed fields, each with the
    value the stored record has for it, or null when it has none. *)
Theorem select_copies_are_shallow `{PyRuntime} (h : heap) (table : list pyval)
    (filters : filter_arg) (fields : option (list string))
    (limit : option Z) (offset : Z) (order_by : option string)
    (reverse : bool) :
  Forall (refs_below (length h)) table ->
  (forall rows,
     select_refs h table filters limit offset order_by reverse = Ok rows ->
     Forall (dict_row h) table ->
     exists out h',
       select h table filters fields limit offset order_by reverse
         = Ok (out, h')) /\
  (forall out h',
     select h table filters fields limit offset order_by reverse
       = Ok (out, h') ->
     exists rows new,
       select_refs h table filters limit offset order_by reverse = Ok rows /\
       incl rows table /\
       h' = h ++ new /\
       out = map PRef (seq (length h) (length rows)) /\
       match fields with
       | None => Forall2 (copy_of h) rows new
       | Some fs => Forall2 (projection_of fs h) rows new
       end /\
       (forall c h'',
          In c out ->
          (exists k v, setitem h' c k v = Ok h'') \/
          (exists k, delitem h' c k = Ok h'') ->
          (forall l, (l < length h)%nat -> h'' !! l = h !! l) /\
          (closed h ->
           forall fuel row, In row table ->
                            reify fuel h'' row = reify fuel h row))).
Proof.
  intros Hbelow. split.
  - intros rows Hrows Hdict. unfold select. rewrite Hrows. cbn [res_bind].
    apply apply_projection_total.
    rewrite Forall_forall in *. intros r Hr. apply Hdict.
    exact (select_refs_incl _ _ _ _ _ _ _ _ Hrows r Hr).
  - intros out h' Hsel. unfold select in Hsel.
    destruct (select_refs h table filters limit offset order_by reverse)
      as [rows|] eqn:Hrows; cbn [res_bind] in Hsel; [|discriminate].
    pose proof (select_refs_incl _ _ _ _ _ _ _ _ Hrows) as Hincl.
    assert (Hrows_below : Forall (refs_below (length h)) rows).
    { rewrite Forall_forall in *. intros r Hr. apply Hbelow, Hincl, Hr. }
    assert (Hfresh : exists new,
              h' = h ++ new /\
              out = map PRef (seq (length h) (length rows)) /\
              match fields with
              | None => Forall2 (copy_of h) rows new
              | Some fs => Forall2 (projection_of fs h) rows new
              end).
    { unfold apply_projection in Hsel. destruct fields as [fs|].
      - exact (map_heap_fresh (project_row fs) (projection_of fs)
                 (project_row_spec fs) (projection_of_mono fs)
                 rows h out h' Hrows_below Hsel).
      - exact (map_heap_fresh copy_row copy_of copy_row_spec copy_of_mono
                 rows h out h' Hrows_below Hsel). }
    destruct Hfresh as (new & -> & -> & Hobjs).
    exists rows, new. repeat (split; [assumption || reflexivity|]).
    intros c h'' Hc Hmut.
    apply in_map_iff in Hc as (l' & <- & Hl'). apply in_seq in Hl'.
    assert (Hframe : forall l, (l < length h)%nat -> h'' !! l = h !! l).
    { intros l Hl.
      rewrite (own_keys_frame (h ++ new) h'' (length h) l' ltac:(lia) Hmut l Hl).
      apply lookup_app_l. exact Hl. }
    split; [exact Hframe|].
    intros Hclosed fuel row Hrow.
    apply (reify_frame (length h) h h'' Hframe (closed_below h Hclosed)).
    rewrite Forall_forall in Hbelow. apply Hbelow. exact Hrow.
Qed.

(** On the example heap: the returned record is the new object at
    address 2, and giving it another name leaves the stored record as it
    was. *)
Lemma select_copies_are_shallow_witness :
  let h0 := example_heap in
  exists out h1,
    select h0 example_table FNone None None 0 None false = Ok (out, h1) /\
    forall h2,
      setitem h1 (PRef 2) "name" (PStr "Bob") = Ok h2 ->
      forall fuel, reify fuel h2 (PRef 1) = reify fuel h0 (PRef 1).
Proof.
  intros h0.
  assert (Hbelow : Forall (refs_below (length h0)) example_table)
    by (repeat constructor).
  assert (Hclosed : closed h0) by (repeat constructor).
  destruct (select_copies_are_shallow h0 example_table FNone None None 0
              None false Hbelow) as [_ Hspec].
  exists [PRef 2],
         (h0 ++ [ODict [("name", PStr "Alice"); ("tags", PRef 0)]]).
  split; [reflexivity|].
  intros h2 Hset fuel.
  destruct (Hspec _ _ eq_refl) as (rows & new & _ & _ & _ & _ & _ & Hmut).
  destruct (Hmut (PRef 2) h2) as [_ Hsame].
  - left. reflexivity.
  - left. eauto.
  - apply (Hsame Hclosed fuel (PRef 1)). left. reflexivity.
Defined.

(** *** The two readings of [select] agree *)

Section Refinement.
Context `{PyRuntime}.

(** Sorting the rows paired with their trees sorts the trees. *)
Lemma sorted_rows_views (key : value -> res value) (reverse : bool)
    (rows : list (value * pyval)) :
  (out <- sorted_rows key reverse rows ;; Ok (map fst out))%res =
  py_sorted key reverse (VList (map fst rows)).
Proof.
  unfold sorted_rows, py_sorted. cbn [py_iter res_bind].
  rewrite map_res_map.
  destruct (map_res (fun a => key (fst a)) rows) as [keys|]; cbn [res_bind];
    [|reflexivity].
  rewrite combine_map_r.
  rewrite (sort_by_map (fun p : value * (value * pyval) => (fst p, fst (snd p)))
             (fun a b => py_cmp Lt (fst a) (fst b))
             (fun a b => py_cmp Lt (fst a) (fst b)) reverse
             (combine keys rows)) by reflexivity.
  destruct (sort_by _ reverse (combine keys rows)) as [s|]; cbn; [|reflexivity].
  rewrite !map_map. reflexivity.
Qed.

Lemma except_TypeError_map {A B} (g : A -> B) (r1 r2 : res A) :
  except_TypeError (x <- r1 ;; Ok (g x))%res (x <- r2 ;; Ok (g x))%res =
  (x <- except_TypeError r1 r2 ;; Ok (g x))%res.
Proof. destruct r1 as [a|[]]; reflexivity. Qed.

Lemma paired_views (h : heap) (rows : list (value * pyval)) :
  Forall (paired h) rows -> map (view h) (map snd rows) = map fst rows.
Proof.
  induction 1 as [|p rows Hp _ IH]; cbn; [reflexivity|].
  rewrite <- Hp, IH. reflexivity.
Qed.

Lemma paired_incl (h : heap) (rows rows' : list (value * pyval)) :
  incl rows' rows -> Forall (paired h) rows -> Forall (paired h) rows'.
Proof.
  intros Hincl Hall. rewrite Forall_forall in *. intros p Hp.
  apply Hall, Hincl, Hp.
Qed.

(** The stages of [select] before the projection, read on rows in the
    heap, select the rows whose trees the stages of [select] on trees
    return. *)
Theorem select_refs_refines (h : heap) (table : list pyval)
    (filters : filter_arg) (limit : option Z) (offset : Z)
    (order_by : option string) (reverse : bool) :
  (rows <- select_refs h table filters limit offset order_by reverse ;;
   Ok (map (view h) rows))%res =
  (rows <- apply_filters filters (VList (map (view h) table)) ;;
   rows <- apply_sorting order_by reverse rows ;;
   rows <- apply_pagination offset limit rows ;;
   py_iter rows)%res.
Proof.
  unfold select_refs.
  set (dec := map (fun r => (view h r, r)) table).
  assert (Hdec : Forall (paired h) dec).
  { unfold dec. apply Forall_forall. intros p Hp.
    apply in_map_iff in Hp as (r & <- & _). reflexivity. }
  replace (map (view h) table) with (map fst dec)
    by (unfold dec; rewrite map_map; reflexivity).
  clearbody dec.
  (* the filter *)
  set (filtered := match filters with
                   | FNone => Ok dec
                   | FDict d => filter_res (fun p => condition_func d (fst p)) dec
                   | FCallable f => filter_res (fun p => f (fst p)) dec
                   | FOther => Raise (QueryError "Filters must be dict, callable, or None")
                   end).
  assert (Hfilter : apply_filters filters (VList (map fst dec)) =
                    (kept <- filtered ;; Ok (VList (map fst kept)))%res).
  { unfold filtered, apply_filters. destruct filters; cbn [py_iter res_bind];
      try reflexivity.
    - rewrite filter_res_map. destruct (filter_res _ dec); reflexivity.
    - rewrite filter_res_map. destruct (filter_res _ dec); reflexivity. }
  assert (Hkept : forall kept, filtered = Ok kept -> Forall (paired h) kept).
  { intros kept Hk. unfold filtered in Hk. destruct filters; try discriminate.
    - injection Hk as <-. exact Hdec.
    - exact (paired_incl _ _ _ (filter_res_incl _ _ _ Hk) Hdec).
    - exact (paired_incl _ _ _ (filter_res_incl _ _ _ Hk) Hdec). }
  rewrite Hfilter. clearbody filtered. clear Hfilter.
  destruct filtered as [kept|e]; cbn [res_bind]; [|reflexivity].
  specialize (Hkept kept eq_refl).
  (* the sort *)
  set (sorted := match order_by with
                 | Some field =>
                     if String.eqb field "" then Ok kept
                     else
                       (order_by_warning (VList (map fst kept)) ;;;
                        except_TypeError
                          (sorted_rows (sort_key field) reverse kept)
                          (sorted_rows (sort_key_str field) reverse kept))%res
                 | None => Ok kept
                 end).
  assert (Hsort : apply_sorting order_by reverse (VList (map fst kept)) =
                  (s <- sorted ;; Ok (VList (map fst s)))%res).
  { unfold sorted, apply_sorting. destruct order_by as [field|]; [|reflexivity].
    destruct (String.eqb field ""); [reflexivity|].
    destruct (order_by_warning _); cbn [res_bind]; [|reflexivity].
    rewrite <- !sorted_rows_views. rewrite except_TypeError_map.
    destruct (except_TypeError _ _); reflexivity. }
  assert (Hsorted : forall s, sorted = Ok s -> Forall (paired h) s).
  { intros s Hs. unfold sorted in Hs.
    destruct order_by as [field|]; [|injection Hs as <-; exact Hkept].
    destruct (String.eqb field ""); [injection Hs as <-; exact Hkept|].
    destruct (order_by_warning _); cbn in Hs; [|discriminate].
    unfold except_TypeError in Hs.
    destruct (sorted_rows (sort_key field) reverse kept) as [s1|e] eqn:H1.
    - injection Hs as <-. apply sorted_rows_perm in H1.
      eapply Permutation_Forall; eassumption.
    - destruct e; try discriminate.
      apply sorted_rows_perm in Hs.
      eapply Permutation_Forall; eassumption. }
  rewrite Hsort. clearbody sorted. clear Hsort.
  destruct sorted as [s|e]; cbn [res_bind]; [|reflexivity].
  specialize (Hsorted s eq_refl).
  (* the page *)
  unfold apply_pagination.
  assert (Hskip : (if 0 <? offset then py_slice_from (VList (map fst s)) offset
                   else Ok (VList (map fst s))) =
                  Ok (VList (map fst (if 0 <? offset
                                      then skipn (Z.to_nat offset) s else s)))).
  { destruct (0 <? offset); cbn [py_slice_from]; [|reflexivity].
    rewrite skipn_map. reflexivity. }
  rewrite Hskip. cbn [res_bind].
  set (skipped := if 0 <? offset then skipn (Z.to_nat offset) s else s).
  assert (Hskipped : Forall (paired h) skipped).
  { unfold skipped. destruct (0 <? offset); [|exact Hsorted].
    exact (paired_incl _ _ _ (incl_skipn _ _) Hsorted). }
  clearbody skipped.
  destruct limit as [m|]; cbn [py_slice_to py_iter res_bind].
  - rewrite length_map. f_equal. rewrite firstn_map.
    apply paired_views. exact (paired_incl _ _ _ (incl_firstn _ _) Hskipped).
  - f_equal. apply paired_views. exact Hskipped.
Qed.

End Refinement.

End HeapFacts.

(** ** The invariant on the guarded paths *)

Lemma dict_mem_set {V} (d : list (string * V)) (k k' : string) (v : V) :
  dict_mem (dict_set d k v) k' = String.eqb k k' || dict_mem d k'.
Proof.
  unfold dict_mem. rewrite dict_get_set.
  destruct (String.eqb k k'); reflexivity.
Qed.

Lemma dict_keys_set_present {V} (d : list (string * V)) (k : string) (v : V) :
  dict_mem d k = true -> dict_keys (dict_set d k v) = dict_keys d.
Proof. intros Hm. rewrite dict_keys_set, Hm. reflexivity. Qed.

Lemma dict_keys_del {V} (d : list (string * V)) (k : string) :
  NoDup (dict_keys d) ->
  NoDup (dict_keys (dict_del d k)) /\
  forall k', dict_mem (dict_del d k) k' = negb (String.eqb k k') && dict_mem d k'.
Proof.
  unfold dict_mem. induction d as [|[k0 v0] d IH]; cbn; intros Hnd.
  - split; [constructor|]. intros k'. rewrite andb_false_r. reflexivity.
  - inversion Hnd as [|? ? Hnotin Hnd']; subst.
    destruct (IH Hnd') as [IHnd IHmem].
    destruct (String.eqb_spec k0 k) as [->|Hne].
    + split; [exact Hnd'|]. intros k'.
      destruct (String.eqb_spec k k') as [<-|Hk]; cbn; [|reflexivity].
      destruct (dict_get d k) eqn:Hg; [|reflexivity].
      exfalso. apply Hnotin. apply dict_mem_keys. unfold dict_mem.
      rewrite Hg. reflexivity.
    + cbn. split.
      * constructor; [|exact IHnd]. intros Hin. apply Hnotin.
        apply dict_mem_keys. apply dict_mem_keys in Hin.
        unfold dict_mem in *. rewrite IHmem in Hin.
        apply andb_true_iff in Hin as [_ Hin]. exact Hin.
      * intros k'. destruct (String.eqb_spec k0 k') as [<-|Hk0].
        -- destruct (String.eqb_spec k k0); [congruence | reflexivity].
        -- apply IHmem.
Qed.

Lemma remove_first_names (name : string) (names : list string) :
  In name names ->
  exists names',
    remove_first (VStr name) (map VStr names) = Some (map VStr names') /\
    (NoDup names ->
     NoDup names' /\ forall k, In k names' <-> k <> name /\ In k names).
Proof.
  induction names as [|n names IH]; intros Hin; [contradiction|].
  cbn [map remove_first py_eq].
  destruct (String.eqb_spec n name) as [->|Hne].
  - exists names. split; [reflexivity|]. intros Hnd.
    inversion Hnd as [|? ? Hnotin Hnd']; subst. split; [exact Hnd'|].
    intros k. cbn. split.
    + intros Hk. split; [intros ->; contradiction | right; exact Hk].
    + intros [Hk [?|?]]; [congruence | assumption].
  - destruct Hin as [?|Hin]; [contradiction|].
    destruct (IH Hin) as (names' & Hr & Hspec). rewrite Hr. cbn.
    exists (n :: names'). split; [reflexivity|]. intros Hnd.
    inversion Hnd as [|? ? Hnotin Hnd']; subst.
    destruct (Hspec Hnd') as [Hnd'' Hiff]. split.
    + constructor; [|exact Hnd'']. intros Hn. apply Hiff in Hn as [_ Hn].
      contradiction.
    + intros k. cbn. rewrite Hiff. split.
      * intros [<-|[? ?]]; [split; [congruence | left; reflexivity] | tauto].
      * intros [Hk [<-|?]]; [left; reflexivity | right; tauto].
Qed.

Section InvariantFacts.
Context `{PyRuntime}.

(** Sorting names returns, with the same names. *)
Lemma sorted_names (names : list string) :
  exists names',
    py_sorted Ok false (VList (map VStr names)) = Ok (map VStr names') /\
    Permutation names names'.
Proof.
  destruct (py_sorted_total Ok (fun x => x) (fun k => exists s, k = VStr s)
              false (map VStr names)) as [out Hout].
  - intros a b [s ->] [t ->]. cbn. eauto.
  - apply Forall_forall. reflexivity.
  - apply Forall_forall. intros x Hx. apply in_map_iff in Hx as (s & <- & _).
    eauto.
  - destruct (py_sorted_spec Ok (fun x => x) false _ _
                ltac:(apply Forall_forall; reflexivity) Hout) as [Hperm _].
    apply Permutation_sym, Permutation_map_inv in Hperm
      as (names' & -> & Hperm').
    exists names'. split; [exact Hout | exact Hperm'].
Qed.

End InvariantFacts.

Section RunFacts.
Context `{PyRuntime}.

Lemma bind_ok {A B} (m : M A) (k : A -> M B) (st st' : State) (a : A) :
  m st = (Ok a, st') -> bind m k st = k a st'.
Proof. intros Hm. unfold bind. rewrite Hm. reflexivity. Qed.

Lemma bind_raise {A B} (m : M A) (k : A -> M B) (st st' : State) (e : exn) :
  m st = (Raise e, st') -> bind m k st = (Raise e, st').
Proof. intros Hm. unfold bind. rewrite Hm. reflexivity. Qed.

Lemma exists_table_run (st : State) (d : dict) (table_name : string) :
  _data st = VDict d ->
  exists_table table_name st = (Ok (dict_mem d table_name), st).
Proof.
  intros Hd. cbv [exists_table bind get_data lift]. rewrite Hd. reflexivity.
Qed.

Lemma set_table_run (st : State) (d : dict) (table_name : string) (v : value) :
  _data st = VDict d ->
  set_table table_name v st =
  (Ok tt, with_data (VDict (dict_set d table_name v)) st).
Proof.
  intros Hd. cbv [set_table bind get_data lift set_data]. rewrite Hd.
  reflexivity.
Qed.

Lemma get_table_run (st : State) (d : dict) (table_name : string) (v : value) :
  _data st = VDict d -> dict_get d table_name = Some v ->
  get_table table_name st = (Ok v, st).
Proof.
  intros Hd Hv. cbv [get_table bind get_data lift]. rewrite Hd.
  cbn [py_getitem]. rewrite Hv. reflexivity.
Qed.

Lemma meta_tables_run (st : State) (d meta : dict) (tables : value) :
  _data st = VDict d ->
  dict_get d "_meta" = Some (VDict meta) ->
  dict_get meta "tables" = Some tables ->
  meta_tables st = (Ok tables, st).
Proof.
  intros Hd Hm Ht. cbv [meta_tables bind get_data lift]. rewrite Hd.
  cbn [py_getitem]. rewrite Hm. cbn [py_getitem]. rewrite Ht. reflexivity.
Qed.

Lemma set_meta_run (st : State) (d meta : dict) (k : string) (v : value) :
  _data st = VDict d ->
  dict_get d "_meta" = Some (VDict meta) ->
  set_meta k v st =
  (Ok tt, with_data (VDict (dict_set d "_meta" (VDict (dict_set meta k v)))) st).
Proof.
  intros Hd Hm. cbv [set_meta bind get_data lift set_data]. rewrite Hd.
  cbn [py_getitem]. rewrite Hm. reflexivity.
Qed.

(** A durable write keeps the invariant: it only stamps the metadata. *)
Lemma _write_db_invariant (st : State) :
  store_invariant (_data st) ->
  exists st', _write_db st = (Ok tt, st') /\ store_invariant (_data st').
Proof.
  intros (d & meta & names & Hd & Hnd & Hm & Ht & Hnames & Hiff & Hpre).
  destruct (_write_db_ok st d meta Hd Hm) as (st' & Hw & _ & Hd' & _).
  exists st'. split; [exact Hw|].
  assert (Hmem : dict_mem d "_meta" = true)
    by (unfold dict_mem; rewrite Hm; reflexivity).
  eexists _, _, names. split; [exact Hd'|].
  split; [rewrite dict_keys_set_present; assumption|].
  split; [apply dict_get_set_eq|].
  split; [rewrite dict_get_set_ne by discriminate; exact Ht|].
  split; [exact Hnames|]. split; [|exact Hpre].
  intros k. rewrite Hiff, dict_mem_set.
  destruct (String.eqb_spec "_meta" k) as [<-|Hne]; cbn; [tauto|reflexivity].
Qed.

(** [create_table] keeps the invariant, whatever the name: it refuses a
    name that is a key of the store or starts with an underscore, and
    adds any other name to the store and to the metadata. *)
Lemma create_table_invariant (st : State) (table_name : string) :
  store_invariant (_data st) ->
  store_invariant (_data (snd (create_table table_name st))).
Proof.
  intros Hinv.
  pose proof Hinv as (d & meta & names & Hd & Hnd & Hm & Ht & Hnames & Hiff & Hpre).
  unfold create_table.
  rewrite (bind_ok _ _ _ _ _ (exists_table_run st d table_name Hd)).
  destruct (dict_mem d table_name) eqn:Hmem; [exact Hinv|].
  destruct (str_startswith table_name "_") eqn:Hunder; [exact Hinv|].
  assert (Hne : "_meta" <> table_name).
  { intros <-. unfold dict_mem in Hmem. rewrite Hm in Hmem. discriminate. }
  (* self._data[table_name] = [] *)
  rewrite (bind_ok _ _ _ _ _ (set_table_run st d table_name (VList []) Hd)).
  set (d1 := dict_set d table_name (VList [])).
  set (st1 := with_data (VDict d1) st).
  assert (Hm1 : dict_get d1 "_meta" = Some (VDict meta)).
  { unfold d1. rewrite dict_get_set_ne by congruence. exact Hm. }
  (* self._data["_meta"]["tables"].append(table_name) *)
  rewrite (bind_ok _ _ _ _ _
             (meta_tables_run st1 d1 meta _ eq_refl Hm1 Ht)).
  cbn [py_append lift]. unfold bind at 1. cbn [lift].
  rewrite (bind_ok _ _ _ _ _ (set_meta_run st1 d1 meta "tables" _ eq_refl Hm1)).
  set (meta2 := dict_set meta "tables" (VList (map VStr names ++ [VStr table_name]))).
  set (d2 := dict_set d1 "_meta" (VDict meta2)).
  set (st2 := with_data (VDict d2) st1).
  assert (Hm2 : dict_get d2 "_meta" = Some (VDict meta2))
    by apply dict_get_set_eq.
  assert (Ht2 : dict_get meta2 "tables" =
                Some (VList (map VStr (names ++ [table_name])))).
  { unfold meta2. rewrite dict_get_set_eq, map_app. reflexivity. }
  (* self._data["_meta"]["tables"] = sorted(...) *)
  rewrite (bind_ok _ _ _ _ _ (meta_tables_run st2 d2 meta2 _ eq_refl Hm2 Ht2)).
  destruct (sorted_names (names ++ [table_name])) as (names' & Hsorted & Hperm).
  unfold bind at 1. unfold lift at 1. rewrite Hsorted.
  rewrite (bind_ok _ _ _ _ _ (set_meta_run st2 d2 meta2 "tables" _ eq_refl Hm2)).
  set (meta3 := dict_set meta2 "tables" (VList (map VStr names'))).
  set (d3 := dict_set d2 "_meta" (VDict meta3)).
  set (st3 := with_data (VDict d3) st2).
  (* the store now meets the invariant, and the write keeps it *)
  assert (Hinv3 : store_invariant (_data st3)).
  { assert (Hmem_meta : dict_mem d1 "_meta" = true)
      by (unfold dict_mem; rewrite Hm1; reflexivity).
    assert (Hmem_meta2 : dict_mem d2 "_meta" = true)
      by (unfold dict_mem; rewrite Hm2; reflexivity).
    assert (Hnotin : ~ In table_name names).
    { intros Hin. apply Hiff in Hin as [_ Hin]. congruence. }
    exists d3, meta3, names'. split; [reflexivity|]. split.
    { unfold d3, d2. rewrite !dict_keys_set_present by assumption.
      unfold d1. rewrite dict_keys_set, Hmem.
      apply NoDup_app; [exact Hnd | repeat constructor; intros [] |].
      intros k Hk [<-|[]]. apply dict_mem_keys in Hk. congruence. }
    split; [apply dict_get_set_eq|]. split; [apply dict_get_set_eq|].
    assert (Hnd' : NoDup (names ++ [table_name])).
    { apply NoDup_app; [exact Hnames | repeat constructor; intros [] |].
      intros k Hk [<-|[]]. contradiction. }
    split; [eapply Permutation_NoDup; eassumption|]. split.
    - intros k.
      assert (Hk : In k names' <-> In k names \/ k = table_name).
      { split.
        - intros Hin. apply (Permutation_in _ (Permutation_sym Hperm)) in Hin.
          apply in_app_iff in Hin as [?|[<-|[]]]; auto.
        - intros Hin. apply (Permutation_in _ Hperm). apply in_app_iff.
          destruct Hin as [?| ->]; [left; assumption | right; left; reflexivity]. }
      rewrite Hk, Hiff. unfold d3, d2, d1. rewrite !dict_mem_set.
      destruct (String.eqb_spec "_meta" k) as [Hmk|Hmk];
        destruct (String.eqb_spec table_name k) as [Htk|Htk]; cbn;
        intuition congruence.
    - eapply Permutation_Forall; [exact Hperm|].
      apply Forall_app. split; [exact Hpre|]. repeat constructor.
      exact Hunder. }
  destruct (_write_db_invariant st3 Hinv3) as (st4 & Hw & Hinv4).
  rewrite Hw. exact Hinv4.
Qed.

(** [drop_table] keeps the invariant for every name but ["_meta"]: it
    removes the name from the store and from the metadata. *)
Lemma drop_table_invariant (st : State) (table_name : string) :
  table_name <> "_meta" ->
  store_invariant (_data st) ->
  store_invariant (_data (snd (drop_table table_name st))).
Proof.
  intros Hname Hinv.
  pose proof Hinv as (d & meta & names & Hd & Hnd & Hm & Ht & Hnames & Hiff & Hpre).
  unfold drop_table. unfold bind at 1. unfold get_data at 1.
  rewrite (bind_ok _ _ _ _ _ (exists_table_run st d table_name Hd)).
  destruct (dict_mem d table_name) eqn:Hmem; cbn [negb].
  2: { unfold bind, lift, raise. destruct (available_tables (_data st));
       exact Hinv. }
  assert (Htable : exists table, dict_get d table_name = Some table).
  { unfold dict_mem in Hmem. destruct (dict_get d table_name); [eauto|discriminate]. }
  destruct Htable as [table Htable].
  rewrite (bind_ok _ _ _ _ _ (get_table_run st d table_name table Hd Htable)).
  unfold bind at 1. unfold lift at 1.
  destruct (py_len table) as [n|e]; [|exact Hinv].
  unfold bind at 1. unfold lift at 1. rewrite Hd. cbn [py_delitem].
  rewrite Hmem.
  unfold bind at 1. unfold set_data at 1.
  set (d1 := dict_del d table_name).
  set (st1 := with_data (VDict d1) st).
  destruct (dict_keys_del d table_name Hnd) as [Hnd1 Hmem1].
  assert (Hget1 : forall k, k <> table_name -> dict_get d1 k = dict_get d k).
  { intros k Hk. unfold d1. clear -Hk.
    induction d as [|[k0 v0] d IH]; cbn; [reflexivity|].
    destruct (String.eqb_spec k0 table_name) as [->|Hne]; cbn.
    - destruct (String.eqb_spec table_name k); [congruence | reflexivity].
    - rewrite IH. reflexivity. }
  assert (Hm1 : dict_get d1 "_meta" = Some (VDict meta)).
  { rewrite Hget1 by congruence. exact Hm. }
  rewrite (bind_ok _ _ _ _ _ (meta_tables_run st1 d1 meta _ eq_refl Hm1 Ht)).
  assert (Hin : In table_name names) by (apply Hiff; split; assumption).
  destruct (remove_first_names table_name names Hin) as (names' & Hrm & Hspec).
  destruct (Hspec Hnames) as [Hnames' Hiff'].
  unfold bind at 1. unfold lift at 1. cbn [py_remove]. rewrite Hrm.
  rewrite (bind_ok _ _ _ _ _ (set_meta_run st1 d1 meta "tables" _ eq_refl Hm1)).
  set (meta2 := dict_set meta "tables" (VList (map VStr names'))).
  set (d2 := dict_set d1 "_meta" (VDict meta2)).
  set (st2 := with_data (VDict d2) st1).
  assert (Hinv2 : store_invariant (_data st2)).
  { exists d2, meta2, names'. split; [reflexivity|]. split.
    { unfold d2. rewrite dict_keys_set_present; [exact Hnd1|].
      unfold dict_mem. rewrite Hm1. reflexivity. }
    split; [apply dict_get_set_eq|]. split; [apply dict_get_set_eq|].
    split; [exact Hnames'|]. split.
    - intros k. rewrite Hiff', Hiff. unfold d2. rewrite dict_mem_set.
      unfold d1. rewrite Hmem1.
      destruct (String.eqb_spec "_meta" k) as [Hmk|Hmk];
        destruct (String.eqb_spec table_name k) as [Htk|Htk]; cbn;
        intuition congruence.
    - rewrite Forall_forall in *. intros k Hk. apply Hpre.
      apply Hiff' in Hk as [_ Hk]. exact Hk. }
  destruct (_write_db_invariant st2 Hinv2) as (st3 & Hw & Hinv3).
  rewrite Hw. exact Hinv3.
Qed.

End RunFacts.

(** ** The metadata key on the stores that calls lead to (C10) *)

Section KeepsSteps.
Context `{PyRuntime}.
Variable I : value -> Prop.

Lemma keeps_bind {A B} (m : M A) (k : A -> M B) :
  keeps I m -> (forall a, keeps I (k a)) -> keeps I (bind m k).
Proof.
  intros Hm Hk st Hst. unfold bind. specialize (Hm st Hst).
  destruct (m st) as [[a|e] st']; cbn [snd] in *; [now apply Hk | exact Hm].
Qed.

(** A step that leaves the store as it is keeps every property of it. *)
Lemma keeps_same {A} (m : M A) :
  (forall st, _data (snd (m st)) = _data st) -> keeps I m.
Proof. intros Hm st Hst. now rewrite Hm. Qed.

Lemma file_replace_keeps (src dst : Path) : keeps I (file_replace src dst).
Proof.
  apply keeps_same. intros st. unfold file_replace, bind, get.
  destruct (files st !! path_str src); reflexivity.
Qed.

End KeepsSteps.

(** The steps of an operation, taken in turn; [step] is for those that
    change the store. *)
Ltac keeps_steps step :=
  repeat first
    [ step
    | apply file_replace_keeps
    | apply keeps_same; intros ?; reflexivity
    | apply keeps_bind; [|intros ?]
    | match goal with
      | |- keeps _ (if ?b then _ else _) => destruct b
      | |- keeps _ (match ?x with _ => _ end) => destruct x
      end ].

Section KeepsFacts.
Context `{PyRuntime}.
Variable I : value -> Prop.

(** A durable write changes the store by [set_meta] only. *)
Lemma _write_db_keeps :
  (forall stamp, keeps I (set_meta "last_modified" (VStr stamp))) ->
  keeps I _write_db.
Proof.
  intros Hmeta. unfold _write_db, path_exists, file_write.
  keeps_steps ltac:(apply Hmeta).
Qed.

Section Table.
Variable table_name : string.
Hypothesis set_table_keeps : forall v, keeps I (set_table table_name v).
Hypothesis write_keeps : keeps I _write_db.

Ltac table_steps :=
  keeps_steps ltac:(first [apply set_table_keeps | apply write_keeps]).

Lemma insert_keeps (row : value) : keeps I (insert table_name row).
Proof. unfold insert. table_steps. Qed.

Lemma insert_many_keeps (rows : value) : keeps I (insert_many table_name rows).
Proof. unfold insert_many. table_steps. Qed.

Lemma update_loop_keeps (condition : value -> res bool) (updater : updater_arg)
    (items : list value) (i updated_count : nat) :
  keeps I (update_loop condition updater table_name i items updated_count).
Proof.
  revert i updated_count.
  induction items as [|row items IH]; intros i updated_count;
    cbn [update_loop]; [table_steps|].
  apply keeps_bind; [table_steps|]. intros [|]; [|apply IH].
  apply keeps_bind; [unfold update_func; table_steps|]. intros new_row.
  apply keeps_bind; [table_steps|]. intros table.
  apply keeps_bind; [table_steps|]. intros table'.
  apply keeps_bind; [apply set_table_keeps|]. intros _. apply IH.
Qed.

Lemma update_keeps (filters : filter_arg) (updater : updater_arg) :
  keeps I (update table_name filters updater).
Proof.
  unfold update.
  apply keeps_bind; [table_steps|]. intros [|]; cbn [negb]; [|table_steps].
  apply keeps_bind; [table_steps|]. intros condition.
  destruct updater; [| |table_steps];
    (apply keeps_bind; [table_steps|]; intros table;
     apply keeps_bind; [table_steps|]; intros items;
     apply keeps_bind; [apply update_loop_keeps|]; intros updated_count;
     table_steps).
Qed.

Lemma delete_keeps (filters : filter_arg) : keeps I (delete table_name filters).
Proof. unfold delete. table_steps. Qed.

Lemma clear_table_keeps : keeps I (clear_table table_name).
Proof. unfold clear_table. table_steps. Qed.

End Table.

End KeepsFacts.

(** *** The key ["_meta"] stays *)

Section HasMetaFacts.
Context `{PyRuntime}.

Lemma set_table_has_meta (table_name : string) (v : value) :
  keeps has_meta (set_table table_name v).
Proof.
  intros st Hst. unfold set_table, bind, get_data, lift, set_data.
  destruct (_data st) as [| | | | |d] eqn:Hd; cbn [py_setitem snd];
    try (rewrite Hd; exact Hst).
  cbn [with_data _data]. unfold has_meta in *. cbn [py_in] in *.
  rewrite dict_mem_set. injection Hst as ->. now rewrite orb_true_r.
Qed.

Lemma set_meta_has_meta (k : string) (v : value) : keeps has_meta (set_meta k v).
Proof.
  intros st Hst. unfold set_meta, bind, get_data, lift, set_data.
  destruct (py_getitem (_data st) "_meta") as [meta|]; [|exact Hst].
  destruct (py_setitem meta k v) as [meta'|]; [|exact Hst].
  destruct (_data st) as [| | | | |d] eqn:Hd; cbn [py_setitem snd];
    try (rewrite Hd; exact Hst).
  cbn [with_data _data]. unfold has_meta. cbn [py_in].
  rewrite dict_mem_set. reflexivity.
Qed.

Lemma _write_db_has_meta : keeps has_meta _write_db.
Proof. apply _write_db_keeps. intros stamp. apply set_meta_has_meta. Qed.

Ltac meta_steps :=
  keeps_steps ltac:(first [ apply set_table_has_meta | apply set_meta_has_meta
                          | apply _write_db_has_meta ]).

Lemma create_table_has_meta (table_name : string) :
  keeps has_meta (create_table table_name).
Proof. unfold create_table, meta_tables. meta_steps. Qed.

Lemma drop_table_has_meta (table_name : string) :
  table_name <> "_meta" -> keeps has_meta (drop_table table_name).
Proof.
  intros Hname st Hst. unfold drop_table.
  unfold bind at 1. unfold get_data at 1.
  unfold bind at 1. unfold exists_table at 1, bind, get_data, lift.
  destruct (py_in (VStr table_name) (_data st)) as [[|]|]; cbn [negb snd];
    [| |exact Hst].
  2: { destruct (available_tables (_data st)); exact Hst. }
  destruct (get_table table_name st) as [[table|] st1] eqn:Hget.
  2: { unfold get_table, bind, get_data, lift in Hget.
       injection Hget as _ <-. exact Hst. }
  assert (st1 = st) as ->.
  { unfold get_table, bind, get_data, lift in Hget. now injection Hget. }
  destruct (py_len table); [|exact Hst].
  destruct (_data st) as [| | | | |d] eqn:Hd; cbn [py_delitem];
    try (cbn [snd]; rewrite Hd; exact Hst).
  destruct (dict_mem d table_name); [|cbn [snd]; rewrite Hd; exact Hst].
  change (has_meta
            (_data (snd ((tables <- meta_tables ;;
                          tables' <- lift (py_remove tables (VStr table_name)) ;;
                          set_meta "tables" tables' ;;; _write_db)%M
                           (with_data (VDict (dict_del d table_name)) st))))).
  assert (Htail : keeps has_meta
            (tables <- meta_tables ;;
             tables' <- lift (py_remove tables (VStr table_name)) ;;
             set_meta "tables" tables' ;;; _write_db)%M)
    by (unfold meta_tables; meta_steps).
  apply Htail. unfold has_meta in *. cbn [with_data _data py_in] in *.
  unfold dict_mem in *. rewrite dict_get_del by congruence. exact Hst.
Qed.

Lemma after_call_has_meta (c : call) (st : State) :
  spares_meta c -> has_meta (_data st) -> has_meta (_data (after_call c st)).
Proof.
  destruct c; cbn [spares_meta call_table after_call]; intros Hc Hst.
  - now apply create_table_has_meta.
  - now apply drop_table_has_meta.
  - apply insert_keeps; [apply set_table_has_meta|apply _write_db_has_meta|].
    exact Hst.
  - apply insert_many_keeps;
      [apply set_table_has_meta|apply _write_db_has_meta|]. exact Hst.
  - apply update_keeps; [apply set_table_has_meta|apply _write_db_has_meta|].
    exact Hst.
  - apply delete_keeps; [apply set_table_has_meta|apply _write_db_has_meta|].
    exact Hst.
  - apply clear_table_keeps;
      [apply set_table_has_meta|apply _write_db_has_meta|]. exact Hst.
Qed.

Lemma after_calls_has_meta (cs : list call) (st : State) :
  Forall spares_meta cs -> has_meta (_data st) ->
  has_meta (_data (after_calls cs st)).
Proof.
  intros Hcs. revert st. induction Hcs as [|c cs Hc _ IH]; intros st Hst;
    [exact Hst|].
  apply IH. now apply after_call_has_meta.
Qed.

End HasMetaFacts.

(** *** The invariant stays *)

Section InvariantKept.
Context `{PyRuntime}.

Lemma set_table_invariant (table_name : string) (v : value) :
  table_name <> "_meta" ->
  keeps (invariant_with table_name) (set_table table_name v).
Proof.
  intros Hname st [Hinv Hin].
  destruct Hinv as (d & meta & names & Hd & Hnd & Hm & Ht & Hnames & Hiff & Hpre).
  rewrite Hd in Hin. cbn [py_in] in Hin. injection Hin as Hmem.
  rewrite (set_table_run st d table_name v Hd). cbn [snd with_data _data].
  split.
  - exists (dict_set d table_name v), meta, names. split; [reflexivity|].
    split; [now rewrite dict_keys_set_present|].
    split; [rewrite dict_get_set_ne by congruence; exact Hm|].
    split; [exact Ht|]. split; [exact Hnames|]. split; [|exact Hpre].
    intros k. rewrite Hiff, dict_mem_set.
    destruct (String.eqb_spec table_name k) as [<-|Hne]; cbn; [|reflexivity].
    rewrite Hmem. reflexivity.
  - cbn [py_in]. rewrite dict_mem_set, String.eqb_refl. reflexivity.
Qed.

Lemma _write_db_invariant_with (table_name : string) :
  keeps (invariant_with table_name) _write_db.
Proof.
  intros st [Hinv Hin].
  destruct (_write_db_invariant st Hinv) as (st' & Hw & Hinv').
  destruct Hinv as (d & meta & names & Hd & _ & Hm & _).
  destruct (_write_db_ok st d meta Hd Hm) as (st'' & Hw' & _ & Hd' & _).
  rewrite Hw in Hw'. injection Hw' as <-. rewrite Hw. cbn [snd].
  split; [exact Hinv'|]. rewrite Hd'. rewrite Hd in Hin. cbn [py_in] in *.
  injection Hin as Hmem. rewrite dict_mem_set, Hmem. now rewrite orb_true_r.
Qed.

(** An operation on a table that keeps the invariant where the store
    has the table keeps it everywhere, if it leaves the store alone where
    the table is missing. *)
Lemma invariant_by_cases {A} (m : M A) (table_name : string) (st : State) :
  keeps (invariant_with table_name) m ->
  (forall d, _data st = VDict d -> dict_mem d table_name = false ->
             _data (snd (m st)) = _data st) ->
  store_invariant (_data st) -> store_invariant (_data (snd (m st))).
Proof.
  intros Hkeeps Hmiss Hinv.
  pose proof Hinv as (d & meta & names & Hd & _).
  destruct (dict_mem d table_name) eqn:Hmem.
  - apply Hkeeps. split; [exact Hinv|]. rewrite Hd. cbn [py_in].
    now rewrite Hmem.
  - now rewrite (Hmiss d Hd Hmem).
Qed.

Lemma after_call_invariant (c : call) (st : State) :
  spares_meta c -> store_invariant (_data st) ->
  store_invariant (_data (after_call c st)).
Proof.
  destruct c as [t|t|t row|t rows|t filters updater|t filters|t];
    cbn [spares_meta call_table after_call]; intros Hc Hst.
  - now apply create_table_invariant.
  - now apply drop_table_invariant.
  - apply (invariant_by_cases _ t); [|intros d Hd Hmem|exact Hst].
    + apply insert_keeps;
        [intros v; now apply set_table_invariant
        |apply _write_db_invariant_with].
    + unfold insert. rewrite (bind_ok _ _ _ _ _ (exists_table_run st d t Hd)).
      now rewrite Hmem.
  - apply (invariant_by_cases _ t); [|intros d Hd Hmem|exact Hst].
    + apply insert_many_keeps;
        [intros v; now apply set_table_invariant
        |apply _write_db_invariant_with].
    + unfold insert_many.
      rewrite (bind_ok _ _ _ _ _ (exists_table_run st d t Hd)).
      now rewrite Hmem.
  - apply (invariant_by_cases _ t); [|intros d Hd Hmem|exact Hst].
    + apply update_keeps;
        [intros v; now apply set_table_invariant
        |apply _write_db_invariant_with].
    + unfold update. rewrite (bind_ok _ _ _ _ _ (exists_table_run st d t Hd)).
      now rewrite Hmem.
  - apply (invariant_by_cases _ t); [|intros d Hd Hmem|exact Hst].
    + apply delete_keeps;
        [intros v; now apply set_table_invariant
        |apply _write_db_invariant_with].
    + unfold delete. rewrite (bind_ok _ _ _ _ _ (exists_table_run st d t Hd)).
      now rewrite Hmem.
  - apply (invariant_by_cases _ t); [|intros d Hd Hmem|exact Hst].
    + apply clear_table_keeps;
        [intros v; now apply set_table_invariant
        |apply _write_db_invariant_with].
    + unfold clear_table.
      rewrite (bind_ok _ _ _ _ _ (exists_table_run st d t Hd)).
      now rewrite Hmem.
Qed.

Lemma after_calls_invariant (cs : list call) (st : State) :
  Forall spares_meta cs -> store_invariant (_data st) ->
  store_invariant (_data (after_calls cs st)).
Proof.
  intros Hcs. revert st. induction Hcs as [|c cs Hc _ IH]; intros st Hst;
    [exact Hst|].
  apply IH. now apply after_call_invariant.
Qed.

(** A store created on a new path meets the invariant. *)
Lemma __init___fresh_invariant (path : Path) (backup_ : bool)
    (files_ : gmap string document) (clock_ : nat -> string) (ticks_ : nat)
    (st w : State) :
  files_ !! path_str path = None ->
  __init__ path backup_ files_ clock_ ticks_ = (Ok st, w) ->
  store_invariant (_data st).
Proof.
  intros Hf Hinit.
  destruct (__init___fresh path backup_ files_ clock_ ticks_ Hf)
    as (st1 & Hi & Hd & _).
  rewrite Hi in Hinit. injection Hinit as <- _.
  eexists _, _, []. split; [exact Hd|].
  split; [repeat constructor; intros []|].
  split; [reflexivity|]. split; [reflexivity|].
  split; [constructor|]. split; [|constructor].
  intros k. unfold dict_mem. cbn [dict_get In].
  destruct (String.eqb_spec "_meta" k) as [<-|Hne]; split;
    try contradiction; try discriminate; intros [? ?]; congruence.
Qed.

End InvariantKept.


(** Nor does it hold of the list of tables on every store: the list is
    what the metadata of the file holds. *)
Example meta_listed_from_file :
  let st := snd (__init__ Example.path false Demo.odd_files Example.stamps 0) in
  fst (__init__ Example.path false Demo.odd_files Example.stamps 0) = Ok st /\
  fst (list_tables st) = Ok (VList [VStr "_meta"]).
Proof. intros st. split; [reflexivity|]. vm_compute. reflexivity. Qed.



(** ** The JSON text of a tree is read back *)

Module JsonFacts.
Import Decimal.
Import Json.

Lemma append_nil_l (a : string) : "" +:+ a = a.
Proof. reflexivity. Qed.

Lemma skip_ws_spaces (n : nat) (s : string) :
  skip_ws (spaces n +:+ s) = skip_ws s.
Proof.
  induction n as [|n IH]; [reflexivity|].
  simpl spaces. rewrite append_cons. exact IH.
Qed.

Lemma skip_ws_break (level : nat) (s : string) :
  skip_ws (break level +:+ s) = skip_ws s.
Proof.
  unfold break. rewrite append_cons. apply skip_ws_spaces.
Qed.

Lemma after_break (c : ascii) (level : nat) (s : string) :
  after c (break level +:+ s) = after c s.
Proof. unfold after. now rewrite skip_ws_break. Qed.

(** *** Strings *)

Lemma read_str_char (c : ascii) (fuel : nat) (s : string) :
  read_str (S fuel) (escape_char c +:+ s) =
  match read_str fuel s with
  | Some (str, r) => Some (String c str, r)
  | None => None
  end.
Proof.
  destruct c as [[] [] [] [] [] [] [] []]; reflexivity.
Qed.

Lemma escape_char_length (c : ascii) :
  (1 <= String.length (escape_char c))%nat.
Proof.
  destruct c as [[] [] [] [] [] [] [] []]; vm_compute; repeat constructor.
Qed.

Lemma escape_length (s : string) :
  (String.length s <= String.length (escape s))%nat.
Proof.
  induction s as [|c s IH]; [reflexivity|].
  simpl. rewrite length_append. pose proof (escape_char_length c). lia.
Qed.

Lemma read_str_escape (s : string) :
  forall (fuel : nat) (rest : string),
    (String.length s < fuel)%nat ->
    read_str fuel (escape s +:+ String quote rest) = Some (s, rest).
Proof.
  induction s as [|c s IH]; intros fuel rest Hfuel.
  - destruct fuel as [|fuel]; [simpl in Hfuel; lia|]. reflexivity.
  - destruct fuel as [|fuel]; [simpl in Hfuel; lia|].
    simpl escape. rewrite append_assoc, read_str_char, IH; [reflexivity|].
    simpl in Hfuel. lia.
Qed.

Lemma dumps_str_append (s rest : string) :
  dumps_str s +:+ rest = String quote (escape s +:+ String quote rest).
Proof.
  unfold dumps_str. now rewrite append_cons, append_assoc, append_cons.
Qed.

Lemma read_str_dumps (s rest : string) :
  read_str (S (String.length (escape s +:+ String quote rest)))
    (escape s +:+ String quote rest) = Some (s, rest).
Proof.
  apply read_str_escape. rewrite length_append.
  pose proof (escape_length s). lia.
Qed.

(** *** Integers *)

Lemma read_digits_stop (s : string) : no_digit s -> read_digits s = (Nil, s).
Proof.
  destruct s as [|c s]; [reflexivity|]. simpl. now intros ->.
Qed.

Lemma read_digits_digits (d : uint) (rest : string) :
  no_digit rest -> read_digits (digits d +:+ rest) = (d, rest).
Proof.
  intros Hrest.
  induction d as [|d IH|d IH|d IH|d IH|d IH|d IH|d IH|d IH|d IH|d IH];
    [now apply read_digits_stop|..];
    simpl digits; rewrite append_cons;
    change (read_digits (String ?c ?s))
      with (match digit_value c with
            | Some k => let '(ds, r) := read_digits s in (k ds, r)
            | None => (Nil, String c s)
            end);
    rewrite IH; reflexivity.
Qed.

Lemma uint_beq_refl (d : uint) : uint_beq d d = true.
Proof. induction d; simpl; auto. Qed.

Lemma to_int_canonical (z : Z) :
  match Z.to_int z with
  | Pos d | Neg d => unorm d = d
  end.
Proof.
  pose proof (DecimalZ.to_of (Z.to_int z)) as H.
  rewrite DecimalZ.of_to in H.
  destruct (Z.to_int z) as [d|d]; simpl in H.
  - congruence.
  - unfold unorm. destruct (nzhead d) eqn:E; congruence.
Qed.

Lemma unorm_not_nil (d : uint) : unorm d = d -> d <> Nil.
Proof.
  intros H ->. discriminate H.
Qed.

Lemma read_int_dumps (z : Z) (rest : string) :
  terminated rest -> read_int (dumps_int z +:+ rest) = Some (z, rest).
Proof.
  intros [Hdigit Hfloat].
  pose proof (to_int_canonical z) as Hnorm.
  pose proof (DecimalZ.of_to z) as Hz.
  unfold dumps_int. destruct (Z.to_int z) as [d|d].
  - assert (Hgo : read_int (digits d +:+ rest) =
                  let '(ds, r) := read_digits (digits d +:+ rest) in
                  if uint_beq (unorm ds) ds && negb (float_follows r)
                  then Some (Z.of_int (Pos ds), r) else None).
    { pose proof (unorm_not_nil d Hnorm) as Hd.
      destruct d; try congruence; simpl digits; rewrite append_cons;
        reflexivity. }
    rewrite Hgo, read_digits_digits by assumption.
    rewrite Hnorm, uint_beq_refl, Hfloat, Hz. reflexivity.
  - rewrite append_cons. unfold read_int.
    change (Ascii.eqb "-" "-") with true. cbv iota beta.
    rewrite read_digits_digits by assumption.
    rewrite Hnorm, uint_beq_refl, Hfloat, Hz. reflexivity.
Qed.

(** *** Values *)

Lemma value_head_plain (c : ascii) :
  value_head c = true ->
  is_ws c = false /\ Ascii.eqb c "]" = false /\ Ascii.eqb c "}" = false.
Proof.
  destruct c as [[] [] [] [] [] [] [] []]; vm_compute;
    (discriminate || (intros _; repeat split; reflexivity)).
Qed.

Lemma starts_value_append (a b : string) :
  starts_value a -> starts_value (a +:+ b).
Proof.
  intros (c & s & -> & Hc). exists c, (s +:+ b).
  now rewrite append_cons.
Qed.

Lemma starts_value_skip (s : string) : starts_value s -> skip_ws s = s.
Proof.
  intros (c & s' & -> & Hc). simpl.
  now destruct (value_head_plain c Hc) as (-> & _).
Qed.

Lemma starts_value_not_closed (s : string) :
  starts_value s -> after "]" s = None.
Proof.
  intros Hs. unfold after. rewrite (starts_value_skip s Hs).
  destruct Hs as (c & s' & -> & Hc).
  now destruct (value_head_plain c Hc) as (_ & -> & _).
Qed.

Lemma dumps_int_starts (z : Z) : starts_value (dumps_int z).
Proof.
  pose proof (to_int_canonical z) as Hnorm.
  unfold dumps_int. destruct (Z.to_int z) as [d|d].
  - pose proof (unorm_not_nil d Hnorm) as Hd.
    destruct d; try congruence; simpl digits; eexists _, _;
      (split; [reflexivity|reflexivity]).
  - eexists _, _. split; reflexivity.
Qed.

Lemma dumps_at_list (level : nat) (l : list value) :
  l <> [] ->
  dumps_at level (VList l) =
  String "[" (break (S level) +:+
              lines (S level) (map (dumps_at (S level)) l) +:+
              break level +:+ "]").
Proof. destruct l; [congruence|reflexivity]. Qed.

Lemma dumps_at_dict (level : nat) (d : dict) :
  d <> [] ->
  dumps_at level (VDict d) =
  String "{" (break (S level) +:+
              lines (S level)
                (map (fun kv => dumps_str (fst kv) +:+ ": " +:+
                                dumps_at (S level) (snd kv)) d) +:+
              break level +:+ "}").
Proof. destruct d; [congruence|reflexivity]. Qed.

Lemma dumps_at_starts (level : nat) (v : value) :
  starts_value (dumps_at level v).
Proof.
  destruct v as [|[]|z|s|[|x l]|[|kv d]];
    try (eexists _, _; split; reflexivity).
  apply dumps_int_starts.
Qed.

Lemma lines_cons (level : nat) (x y : string) (items : list string) :
  lines level (x :: y :: items) =
  x +:+ String "," (break level +:+ lines level (y :: items)).
Proof. reflexivity. Qed.

Lemma lines_starts (level : nat) (x : string) (items : list string) :
  starts_value x -> starts_value (lines level (x :: items)).
Proof.
  intros Hx. destruct items as [|y items]; [exact Hx|].
  rewrite lines_cons. now apply starts_value_append.
Qed.

(** Leading blanks are skipped. *)
Lemma read_value_ws (fuel : nat) (s s' : string) :
  skip_ws s = skip_ws s' -> read_value fuel s = read_value fuel s'.
Proof.
  intros E. destruct fuel as [|fuel]; [reflexivity|].
  simpl. now rewrite E.
Qed.

Lemma read_items_ws (fuel : nat) (s s' : string) :
  skip_ws s = skip_ws s' -> read_items fuel s = read_items fuel s'.
Proof.
  intros E. destruct fuel as [|fuel]; [reflexivity|].
  simpl. now rewrite (read_value_ws fuel s s' E).
Qed.

Lemma read_members_ws (fuel : nat) (s s' : string) :
  skip_ws s = skip_ws s' -> read_members fuel s = read_members fuel s'.
Proof.
  intros E. destruct fuel as [|fuel]; [reflexivity|].
  simpl. unfold after. now rewrite E.
Qed.

Lemma value_nested_ind (P : value -> Prop) :
  P VNull ->
  (forall b, P (VBool b)) ->
  (forall z, P (VInt z)) ->
  (forall s, P (VStr s)) ->
  (forall l, Forall P l -> P (VList l)) ->
  (forall d, Forall (fun kv => P (snd kv)) d -> P (VDict d)) ->
  forall v, P v.
Proof.
  intros Hnull Hbool Hint Hstr Hlist Hdict.
  fix IH 1.
  intros [|b|z|s|l|d];
    [exact Hnull|apply Hbool|apply Hint|apply Hstr| |].
  - apply Hlist. induction l as [|x l IHl]; constructor; [apply IH|exact IHl].
  - apply Hdict. induction d as [|[k x] d IHd]; constructor;
      [apply IH|exact IHd].
Qed.

Lemma size_pos (v : value) : (1 <= size v)%nat.
Proof. destruct v; simpl; lia. Qed.

Lemma terminated_break (level : nat) (s : string) :
  terminated (break level +:+ s).
Proof. unfold break. rewrite append_cons. split; reflexivity. Qed.

Lemma terminated_comma (s : string) : terminated (String "," s).
Proof. split; reflexivity. Qed.

Lemma terminated_empty : terminated "".
Proof. split; reflexivity. Qed.

Lemma read_value_int (fuel : nat) (z : Z) (rest : string) :
  terminated rest ->
  read_value (S fuel) (dumps_int z +:+ rest) = Some (VInt z, rest).
Proof.
  intros Hrest.
  pose proof (read_int_dumps z rest Hrest) as Hint.
  pose proof (to_int_canonical z) as Hnorm.
  unfold dumps_int in *. destruct (Z.to_int z) as [d|d].
  - pose proof (unorm_not_nil d Hnorm) as Hd.
    destruct d; try congruence; simpl digits in *;
      rewrite append_cons in *; simpl; simpl in Hint; now rewrite Hint.
  - rewrite append_cons in *. simpl. simpl in Hint. now rewrite Hint.
Qed.

Lemma read_items_step (fuel : nat) (s : string) :
  read_items (S fuel) s =
  match read_value fuel s with
  | Some (v, r) =>
      match after "," r with
      | Some r' =>
          match read_items fuel r' with
          | Some (vs, r'') => Some (v :: vs, r'')
          | None => None
          end
      | None =>
          match after "]" r with
          | Some r' => Some ([v], r')
          | None => None
          end
      end
  | None => None
  end.
Proof. reflexivity. Qed.

Lemma read_members_step (fuel : nat) (s : string) :
  read_members (S fuel) s =
  match after quote s with
  | Some r =>
      match read_str (S (String.length r)) r with
      | Some (key, r1) =>
          match after ":" r1 with
          | Some r2 =>
              match read_value fuel r2 with
              | Some (v, r3) =>
                  match after "," r3 with
                  | Some r4 =>
                      match read_members fuel r4 with
                      | Some (pairs, r5) => Some ((key, v) :: pairs, r5)
                      | None => None
                      end
                  | None =>
                      match after "}" r3 with
                      | Some r4 => Some ([(key, v)], r4)
                      | None => None
                      end
                  end
              | None => None
              end
          | None => None
          end
      | None => None
      end
  | None => None
  end.
Proof. reflexivity. Qed.

Lemma after_here (c : ascii) (s : string) :
  is_ws c = false -> after c (String c s) = Some s.
Proof.
  intros Hc. unfold after. simpl. rewrite Hc. now rewrite Ascii.eqb_refl.
Qed.

Lemma after_other (c c' : ascii) (s : string) :
  is_ws c' = false -> Ascii.eqb c' c = false -> after c (String c' s) = None.
Proof.
  intros Hws Hc. unfold after. simpl. now rewrite Hws, Hc.
Qed.

Lemma list_sum_cons (n : nat) (l : list nat) :
  list_sum (n :: l) = (n + list_sum l)%nat.
Proof. reflexivity. Qed.

Lemma read_items_lines (level : nat) (l : list value) :
  Forall reads_back l -> l <> [] ->
  forall (fuel : nat) (rest : string),
    (list_sum (map (fun x => S (size x)) l) <= fuel)%nat ->
    read_items fuel
      (lines (S level) (map (dumps_at (S level)) l) +:+
       (break level +:+ String "]" rest)) = Some (l, rest).
Proof.
  induction 1 as [|x l Hx Hl IH]; [congruence|]. intros _ fuel rest Hfuel.
  rewrite map_cons, list_sum_cons in Hfuel.
  destruct fuel as [|fuel]; [lia|].
  rewrite read_items_step.
  destruct l as [|y l].
  - simpl map. simpl lines.
    rewrite Hx by (try apply terminated_break; simpl in Hfuel; lia).
    rewrite !after_break.
    rewrite after_other, after_here by reflexivity. reflexivity.
  - rewrite (map_cons _ x), (map_cons _ y).
    rewrite lines_cons, append_assoc, append_cons, append_assoc.
    rewrite Hx by (try apply terminated_comma; lia).
    rewrite after_here by reflexivity.
    rewrite (read_items_ws fuel _ _ (skip_ws_break (S level) _)).
    rewrite <- (map_cons (dumps_at (S level)) y).
    rewrite IH; [reflexivity|congruence|lia].
Qed.

Lemma member_append (level : nat) (k : string) (v : value) (rest : string) :
  member level (k, v) +:+ rest =
  String quote
    (escape k +:+
     String quote (String ":" (String " " (dumps_at level v +:+ rest)))).
Proof.
  unfold member. simpl fst. simpl snd.
  now rewrite !append_assoc, dumps_str_append, !append_cons.
Qed.

Lemma member_starts (level : nat) (kv : string * value) :
  starts_value (member level kv).
Proof.
  apply starts_value_append. eexists _, _. split; reflexivity.
Qed.

Lemma starts_value_not_closed_dict (s : string) :
  starts_value s -> after "}" s = None.
Proof.
  intros Hs. unfold after. rewrite (starts_value_skip s Hs).
  destruct Hs as (c & s' & -> & Hc).
  now destruct (value_head_plain c Hc) as (_ & _ & ->).
Qed.

Lemma read_members_lines (level : nat) (d : dict) :
  Forall (fun kv => reads_back (snd kv)) d -> d <> [] ->
  forall (fuel : nat) (rest : string),
    (list_sum (map (fun kv => S (size (snd kv))) d) <= fuel)%nat ->
    read_members fuel
      (lines (S level) (map (member (S level)) d) +:+
       (break level +:+ String "}" rest)) = Some (d, rest).
Proof.
  induction 1 as [|[k x] d Hx Hd IH]; [congruence|]. intros _ fuel rest Hfuel.
  rewrite map_cons, list_sum_cons in Hfuel. simpl snd in Hfuel, Hx.
  destruct fuel as [|fuel]; [lia|].
  rewrite read_members_step.
  destruct d as [|y d].
  - simpl map. simpl lines.
    rewrite member_append, after_here by reflexivity.
    rewrite read_str_dumps, after_here by reflexivity.
    rewrite (read_value_ws fuel _ (dumps_at (S level) x +:+
                                   (break level +:+ String "}" rest)))
      by reflexivity.
    rewrite Hx by (try apply terminated_break; simpl in Hfuel; lia).
    rewrite !after_break.
    rewrite after_other, after_here by reflexivity. reflexivity.
  - rewrite (map_cons _ (k, x)), (map_cons _ y).
    rewrite lines_cons, append_assoc, append_cons, append_assoc.
    rewrite member_append, after_here by reflexivity.
    rewrite read_str_dumps, after_here by reflexivity.
    match goal with
    | |- context [read_value fuel (String " " ?s)] =>
        rewrite (read_value_ws fuel (String " " s) s) by reflexivity
    end.
    rewrite Hx by (try apply terminated_comma; lia).
    rewrite after_here by reflexivity.
    rewrite (read_members_ws fuel _ _ (skip_ws_break (S level) _)).
    rewrite <- (map_cons (member (S level)) y).
    rewrite IH; [reflexivity|congruence|lia].
Qed.

Lemma dict_set_fresh {V} (d : list (string * V)) (k : string) (v : V) :
  ~ In k (dict_keys d) -> dict_set d k v = d ++ [(k, v)].
Proof.
  induction d as [|[k' v'] d IH]; intros Hk; [reflexivity|].
  simpl. destruct (String.eqb_spec k' k) as [->|Hne].
  - exfalso. apply Hk. now left.
  - rewrite IH; [reflexivity|]. intros Hin. apply Hk. now right.
Qed.

Lemma dict_of_pairs_append (pairs acc : dict) :
  NoDup (dict_keys (acc ++ pairs)) ->
  fold_left (fun a kv => dict_set a (fst kv) (snd kv)) pairs acc
  = acc ++ pairs.
Proof.
  revert acc. induction pairs as [|[k v] pairs IH]; intros acc Hnd.
  - now rewrite List.app_nil_r.
  - simpl. rewrite dict_set_fresh.
    + rewrite IH; rewrite <- List.app_assoc; [reflexivity|exact Hnd].
    + unfold dict_keys in *. rewrite map_app in Hnd. simpl in Hnd.
      apply NoDup_remove_2 in Hnd. intros Hin. apply Hnd.
      apply in_or_app. now left.
Qed.

Lemma dict_of_pairs_nodup (d : dict) :
  NoDup (dict_keys d) -> dict_of_pairs d = d.
Proof. intros Hnd. now apply (dict_of_pairs_append d []). Qed.

Lemma read_value_str (fuel : nat) (s : string) :
  read_value (S fuel) (String quote s) =
  match read_str (S (String.length s)) s with
  | Some (str, r') => Some (VStr str, r')
  | None => None
  end.
Proof. reflexivity. Qed.

Lemma read_value_list (fuel : nat) (s : string) :
  read_value (S fuel) (String "[" s) =
  match after "]" s with
  | Some r' => Some (VList [], r')
  | None =>
      match read_items fuel s with
      | Some (items, r') => Some (VList items, r')
      | None => None
      end
  end.
Proof. reflexivity. Qed.

Lemma read_value_dict (fuel : nat) (s : string) :
  read_value (S fuel) (String "{" s) =
  match after "}" s with
  | Some r' => Some (VDict [], r')
  | None =>
      match read_members fuel s with
      | Some (pairs, r') => Some (VDict (dict_of_pairs pairs), r')
      | None => None
      end
  end.
Proof. reflexivity. Qed.

(** The reader returns every well-formed tree from its text, whatever
    follows the text. *)
Theorem read_value_dumps (v : value) : wf v -> reads_back v.
Proof.
  induction v as [|b|z|s|l IH|d IH] using value_nested_ind;
    intros Hwf level fuel rest Hfuel Hrest;
    (destruct fuel as [|fuel]; [simpl in Hfuel; lia|]).
  - simpl dumps_at. rewrite !append_cons, append_nil_l.
    destruct rest; reflexivity.
  - destruct b; simpl dumps_at; rewrite !append_cons, append_nil_l;
      destruct rest; reflexivity.
  - now apply read_value_int.
  - simpl dumps_at. rewrite dumps_str_append, read_value_str.
    now rewrite read_str_dumps.
  - destruct l as [|x l].
    { simpl dumps_at. rewrite !append_cons, append_nil_l. reflexivity. }
    inversion Hwf as [| | | |l' Hl|]; subst.
    assert (Hback : Forall reads_back (x :: l)).
    { rewrite Forall_forall in *. intros y Hy. apply IH; [exact Hy|].
      now apply Hl. }
    rewrite dumps_at_list, append_cons, !append_assoc by congruence.
    rewrite append_cons, append_nil_l, read_value_list, after_break.
    rewrite starts_value_not_closed
      by (rewrite map_cons; apply starts_value_append, lines_starts,
          dumps_at_starts).
    rewrite (read_items_ws fuel _ _ (skip_ws_break (S level) _)).
    rewrite read_items_lines; [reflexivity|exact Hback|congruence|].
    change (size (VList (x :: l)))
      with (S (list_sum (map (fun x => S (size x)) (x :: l)))) in Hfuel.
    lia.
  - destruct d as [|kv d].
    { simpl dumps_at. rewrite !append_cons, append_nil_l. reflexivity. }
    inversion Hwf as [| | | | |d' Hnd Hd]; subst.
    assert (Hback : Forall (fun kv => reads_back (snd kv)) (kv :: d)).
    { rewrite Forall_forall in *. intros y Hy. apply IH; [exact Hy|].
      now apply Hd. }
    rewrite dumps_at_dict by congruence.
    change (fun kv0 : string * value =>
              dumps_str (fst kv0) +:+ ": " +:+ dumps_at (S level) (snd kv0))
      with (member (S level)).
    rewrite append_cons, !append_assoc.
    rewrite append_cons, append_nil_l, read_value_dict, after_break.
    rewrite starts_value_not_closed_dict
      by (rewrite map_cons; apply starts_value_append, lines_starts,
          member_starts).
    rewrite (read_members_ws fuel _ _ (skip_ws_break (S level) _)).
    rewrite read_members_lines; [|exact Hback|congruence|].
    + now rewrite dict_of_pairs_nodup.
    + change (size (VDict (kv :: d)))
        with (S (list_sum (map (fun kv => S (size (snd kv))) (kv :: d))))
        in Hfuel.
      lia.
Qed.

Lemma lines_length {A} (level : nat) (f : A -> string) (g : A -> nat)
    (l : list A) :
  Forall (fun a => (g a <= String.length (f a))%nat) l ->
  (list_sum (map (fun a => S (g a)) l)
   <= String.length (lines level (map f l)) + 1)%nat.
Proof.
  induction 1 as [|a l Ha Hl IH]; [simpl; lia|].
  rewrite map_cons, list_sum_cons. destruct l as [|b l].
  - simpl. lia.
  - rewrite (map_cons f a), (map_cons f b), lines_cons.
    rewrite <- (map_cons f b).
    rewrite length_append.
    change (String.length (String "," ?s)) with (S (String.length s)).
    rewrite length_append. lia.
Qed.

Lemma size_le_length (v : value) :
  forall level, (size v <= String.length (dumps_at level v))%nat.
Proof.
  induction v as [|b|z|s|l IH|d IH] using value_nested_ind; intros level.
  - simpl. lia.
  - destruct b; simpl; lia.
  - destruct (dumps_at_starts level (VInt z)) as (c & s & -> & _).
    simpl. lia.
  - simpl. lia.
  - destruct l as [|x l]; [simpl; lia|].
    rewrite dumps_at_list by congruence.
    change (size (VList (x :: l)))
      with (S (list_sum (map (fun x => S (size x)) (x :: l)))).
    pose proof (lines_length (S level) (dumps_at (S level)) size (x :: l))
      as Hlen.
    change (String.length (String "[" ?s)) with (S (String.length s)).
    rewrite !length_append.
    change (String.length "]") with 1%nat.
    assert (Forall (fun a => (size a <= String.length (dumps_at (S level) a))%nat)
              (x :: l)) as Hall.
    { rewrite Forall_forall in *. intros y Hy. now apply IH. }
    specialize (Hlen Hall). lia.
  - destruct d as [|kv d]; [simpl; lia|].
    rewrite dumps_at_dict by congruence.
    change (fun kv0 : string * value =>
              dumps_str (fst kv0) +:+ ": " +:+ dumps_at (S level) (snd kv0))
      with (member (S level)).
    change (size (VDict (kv :: d)))
      with (S (list_sum (map (fun kv => S (size (snd kv))) (kv :: d)))).
    pose proof (lines_length (S level) (member (S level))
                  (fun kv => size (snd kv)) (kv :: d)) as Hlen.
    change (String.length (String "{" ?s)) with (S (String.length s)).
    rewrite !length_append.
    change (String.length "}") with 1%nat.
    assert (Forall (fun a => (size (snd a)
                              <= String.length (member (S level) a))%nat)
              (kv :: d)) as Hall.
    { rewrite Forall_forall in *. intros y Hy. unfold member.
      rewrite !length_append. specialize (IH y Hy (S level)). lia. }
    specialize (Hlen Hall). lia.
Qed.

(** [json.loads(json.dumps(v, indent=2)) == v] *)
Theorem loads_dumps (v : value) : wf v -> loads (dumps v) = Some v.
Proof.
  intros Hwf. unfold loads, dumps.
  pose proof (read_value_dumps v Hwf 0%nat
                (S (String.length (dumps_at 0 v))) ""
                ltac:(pose proof (size_le_length v 0); lia)
                terminated_empty) as Hread.
  rewrite append_nil_r in Hread. rewrite Hread. reflexivity.
Qed.

End JsonFacts.

(** The text codec honours the round trip that the persistence properties
    assume of [json.dump] and [json.load]. *)
Lemma text_codec_reads_back (v : value) :
  Json.wf v ->
  @json_loads Text.runtime (@json_dumps Text.runtime v) = Some v.
Proof. exact (JsonFacts.loads_dumps v). Qed.

Example users_data_read_back :
  Json.loads (Json.dumps Example.users_data) = Some Example.users_data.
Proof. vm_compute. reflexivity. Qed.

(** Written as text and opened again, the example store is read back. *)
Example text_store_reopened :
  let written := snd (@_write_db Text.runtime Example.text_store) in
  let reopened :=
    snd (@__init__ Text.runtime Example.path false (files written)
           Example.stamps 7) in
  files written !! path_str Example.path
    = Some (Json.dumps Example.users_data) /\
  @__init__ Text.runtime Example.path false (files written) Example.stamps 7
    = (Ok reopened, reopened) /\
  _data reopened = Example.users_data.
Proof. repeat split; reflexivity. Qed.

(** * More properties of the code *)

(** ** Running the operations step by step *)

Section StepFacts.
Context `{PyRuntime}.

Lemma now_run (st : State) :
  now st = (Ok (clock st (ticks st)), with_ticks (S (ticks st)) st).
Proof. reflexivity. Qed.

Lemma lift_ok {A B} (r : res A) (a : A) (k : A -> M B) (st : State) :
  r = Ok a -> bind (lift r) k st = k a st.
Proof. intros ->. reflexivity. Qed.

Lemma lift_raise {A B} (r : res A) (e : exn) (k : A -> M B) (st : State) :
  r = Raise e -> bind (lift r) k st = (Raise e, st).
Proof. intros ->. reflexivity. Qed.

Lemma with_data_same (st : State) : with_data (_data st) st = st.
Proof. destruct st; reflexivity. Qed.

Lemma dict_set_same {V} (d : list (string * V)) (k : string) (v : V) :
  dict_get d k = Some v -> dict_set d k v = d.
Proof.
  induction d as [|[k' v'] d IH]; cbn; [discriminate|].
  destruct (String.eqb k' k); [now intros [= ->] | intros Hg; now rewrite IH].
Qed.

Lemma dict_mem_get {V} (d : list (string * V)) (k : string) (v : V) :
  dict_get d k = Some v -> dict_mem d k = true.
Proof. unfold dict_mem. now intros ->. Qed.

(** The tables listed by the metadata do not change when the metadata
    gets a new [last_modified] and a table other than ["_meta"] a new
    value. *)
Lemma list_tables_of_stamped (d meta : dict) (t : string) (v stamp : value) :
  t <> "_meta" ->
  dict_get d "_meta" = Some (VDict meta) ->
  list_tables_of
    (VDict (dict_set (dict_set d t v) "_meta"
              (VDict (dict_set meta "last_modified" stamp))))
  = list_tables_of (VDict d).
Proof.
  intros Hne Hm. unfold list_tables_of. cbn [py_getitem].
  rewrite dict_get_set_eq, Hm. cbn [res_bind py_getitem].
  rewrite dict_get_set_ne by discriminate. reflexivity.
Qed.

Lemma table_not_meta (d meta : dict) (t : string) (rows : list value) :
  dict_get d "_meta" = Some (VDict meta) ->
  dict_get d t = Some (VList rows) ->
  t <> "_meta".
Proof. intros Hm Ht ->. congruence. Qed.

(** What a durable write leaves, for a table that has just been set. *)
Lemma write_after_set (st : State) (d meta : dict) (t : string) (v : value) :
  _data st = VDict d ->
  dict_get d "_meta" = Some (VDict meta) ->
  t <> "_meta" ->
  exists st',
    _write_db (with_data (VDict (dict_set d t v)) st) = (Ok tt, st') /\
    py_getitem (_data st') t = Ok v /\
    (forall k, k <> t -> k <> "_meta" ->
       py_getitem (_data st') k = py_getitem (_data st) k) /\
    list_tables_of (_data st') = list_tables_of (_data st) /\
    files st' !! path_str (db_path st)
      = Some (json_dumps (VDict (dict_set d t v))) /\
    db_path st' = db_path st /\ backup st' = backup st /\
    clock st' = clock st /\ ticks st' = S (ticks st) /\
    exists d', _data st' = VDict d' /\ dict_get d' t = Some v /\
               exists meta', dict_get d' "_meta" = Some (VDict meta').
Proof.
  intros Hd Hm Hne.
  set (st1 := with_data (VDict (dict_set d t v)) st).
  assert (Hm1 : dict_get (dict_set d t v) "_meta" = Some (VDict meta))
    by (rewrite dict_get_set_ne by exact Hne; exact Hm).
  destruct (_write_db_ok st1 _ meta eq_refl Hm1)
    as (st' & Hw & Hfile & Hdata & Hp & Hb & Hc & Htk).
  exists st'. split; [exact Hw|]. rewrite Hdata, Hd.
  split.
  { cbn [py_getitem]. rewrite dict_get_set_ne by congruence.
    now rewrite dict_get_set_eq. }
  split.
  { intros k Hk Hk'. cbn [py_getitem].
    rewrite !dict_get_set_ne by congruence. reflexivity. }
  split; [now apply list_tables_of_stamped|].
  split; [exact Hfile|]. do 4 (split; [assumption|]).
  eexists. split; [reflexivity|]. split.
  - rewrite dict_get_set_ne by congruence. apply dict_get_set_eq.
  - eexists. apply dict_get_set_eq.
Qed.

Lemma py_getitem_dict (data : value) (k : string) (v : value) :
  py_getitem data k = Ok v ->
  exists d, data = VDict d /\ dict_get d k = Some v.
Proof.
  destruct data as [| | | | |d]; cbn; try discriminate.
  destruct (dict_get d k) eqn:Hg; [|discriminate]. intros [= <-]. eauto.
Qed.

(** [select] with a filter only: the rows the filter keeps. *)
Lemma select_kept (st : State) (d : dict) (t : string)
    (rows kept : list value) (filters : filter_arg) :
  _data st = VDict d ->
  dict_get d t = Some (VList rows) ->
  apply_filters filters (VList rows) = Ok (VList kept) ->
  Forall copyable kept ->
  select t filters None None 0 None false st = (Ok kept, st).
Proof.
  intros Hd Ht Hf Hc.
  cbv [select bind get_data lift select_rows]. rewrite Hd.
  cbn [py_in res_bind]. rewrite (dict_mem_get d t _ Ht).
  cbn [negb py_getitem]. rewrite Ht. cbn [res_bind]. rewrite Hf.
  cbn [res_bind apply_sorting apply_pagination Z.ltb Z.compare
       apply_projection py_iter].
  now rewrite (map_res_copy_ok _ Hc).
Qed.

Lemma Forall_filter_copyable (p : value -> bool) (rows : list value) :
  Forall copyable rows -> Forall copyable (List.filter p rows).
Proof.
  intros Hc. apply Forall_forall. intros x Hx.
  apply filter_In in Hx as [Hx _]. rewrite Forall_forall in Hc. now apply Hc.
Qed.

End StepFacts.

(** ** [insert] and [insert_many] *)

Section InsertFacts.
Context `{PyRuntime}.

Lemma insert_run (st : State) (d meta r : dict) (t : string)
    (rows : list value) :
  _data st = VDict d ->
  dict_get d "_meta" = Some (VDict meta) ->
  dict_get d t = Some (VList rows) ->
  let table' :=
    VList (rows ++ [stamped "_inserted_at" (clock st (ticks st)) r]) in
  exists st',
    insert t (VDict r) st = (Ok tt, st') /\
    py_getitem (_data st') t = Ok table' /\
    (forall k, k <> t -> k <> "_meta" ->
       py_getitem (_data st') k = py_getitem (_data st) k) /\
    list_tables_of (_data st') = list_tables_of (_data st) /\
    files st' !! path_str (db_path st)
      = Some (json_dumps (VDict (dict_set d t table'))).
Proof.
  intros Hd Hm Ht table'.
  pose proof (table_not_meta d meta t rows Hm Ht) as Hne.
  set (st1 := with_ticks (S (ticks st)) st).
  destruct (write_after_set st1 d meta t table' Hd Hm Hne)
    as (st' & Hw & Hrows & Hother & Htables & Hfile & _).
  exists st'. split; [|repeat split; assumption].
  unfold insert.
  rewrite (bind_ok _ _ _ _ _ (exists_table_run st d t Hd)).
  rewrite (dict_mem_get d t _ Ht). cbn [negb].
  rewrite (bind_ok _ _ _ _ _ (now_run st)). fold st1.
  rewrite (bind_ok _ _ _ _ _ (get_table_run st1 d t _ Hd Ht)).
  erewrite lift_ok by reflexivity.
  rewrite (bind_ok _ _ _ _ _ (set_table_run st1 d t _ Hd)).
  exact Hw.
Qed.

(** X1.  [insert] into a table puts the row, stamped with the time of
    the call under ["_inserted_at"] (whatever the caller gave under that
    key), after the rows the table has; the other tables and the list of
    tables stay as they were, and the file then holds a store whose table
    has the new row. *)
Theorem insert_appends (st : State) (d meta r : dict) (t : string)
    (rows : list value) :
  _data st = VDict d ->
  dict_get d "_meta" = Some (VDict meta) ->
  dict_get d t = Some (VList rows) ->
  let table' :=
    VList (rows ++ [stamped "_inserted_at" (clock st (ticks st)) r]) in
  exists st' data',
    insert t (VDict r) st = (Ok tt, st') /\
    py_getitem (_data st') t = Ok table' /\
    (forall k, k <> t -> k <> "_meta" ->
       py_getitem (_data st') k = py_getitem (_data st) k) /\
    list_tables_of (_data st') = list_tables_of (_data st) /\
    files st' !! path_str (db_path st) = Some (json_dumps data') /\
    py_getitem data' t = Ok table'.
Proof.
  intros Hd Hm Ht table'.
  destruct (insert_run st d meta r t rows Hd Hm Ht)
    as (st' & Hi & Hrows & Hother & Htables & Hfile).
  exists st', (VDict (dict_set d t table')).
  repeat (split; [assumption|]).
  cbn [py_getitem]. now rewrite dict_get_set_eq.
Qed.

(** X2.  [insert] and [insert_many] check the table first and the
    argument next.  On a name that is not a key of the store they raise
    the not-found error that tells to create the table, whatever the
    argument is.  On a table that exists, [insert] refuses a row that is
    not a dictionary and [insert_many] refuses rows that are not a list,
    with a query error that names the type given.  The instance is left
    as it was in each case. *)
Theorem insert_checks (st : State) (d : dict) (t : string) (arg : value) :
  _data st = VDict d ->
  (dict_get d t = None ->
   insert t arg st = (Raise (not_found_create_first t), st) /\
   insert_many t arg st = (Raise (not_found_create_first t), st) /\
   str_contains ("create_table('" +:+ t +:+ "')")
     (message (not_found_create_first t)) = true) /\
  (dict_mem d t = true ->
   (~ is_dict arg ->
    insert t arg st =
    (Raise (QueryError ("Row must be a dictionary, got " +:+ type_name arg)),
     st)) /\
   ((forall l, arg <> VList l) ->
    insert_many t arg st =
    (Raise (QueryError ("Rows must be a list, got " +:+ type_name arg)), st))).
Proof.
  intros Hd. split.
  - intros Ht.
    assert (Hm : dict_mem d t = false) by (unfold dict_mem; now rewrite Ht).
    split; [|split].
    + unfold insert. rewrite (bind_ok _ _ _ _ _ (exists_table_run st d t Hd)).
      now rewrite Hm.
    + unfold insert_many.
      rewrite (bind_ok _ _ _ _ _ (exists_table_run st d t Hd)).
      now rewrite Hm.
    + unfold not_found_create_first, message.
      replace ("Table '" +:+ t +:+ "' does not exist. " +:+
               "Use create_table('" +:+ t +:+ "') first.")
        with (("Table '" +:+ t +:+ "' does not exist. Use ") +:+
              ("create_table('" +:+ t +:+ "')") +:+ " first.")
        by (rewrite !append_assoc; reflexivity).
      apply str_contains_middle.
  - intros Hm. split.
    + intros Hrow. unfold insert.
      rewrite (bind_ok _ _ _ _ _ (exists_table_run st d t Hd)). rewrite Hm.
      destruct arg; try reflexivity. exfalso. apply Hrow. exact I.
    + intros Hrows. unfold insert_many.
      rewrite (bind_ok _ _ _ _ _ (exists_table_run st d t Hd)). rewrite Hm.
      destruct arg; try reflexivity. exfalso. now apply (Hrows l).
Qed.

Lemma stamp_rows (stamp : string) (rs : list dict) :
  map_res (fun row =>
             match row with
             | VDict r => Ok (VDict (dict_set r "_inserted_at" (VStr stamp)))
             | _ => Raise TypeError
             end) (map VDict rs)
  = Ok (map (stamped "_inserted_at" stamp) rs).
Proof.
  induction rs as [|r rs IH]; [reflexivity|].
  cbn [map map_res res_bind]. rewrite IH. reflexivity.
Qed.

Lemma stamp_rows_fails (stamp : string) (l : list value) :
  Exists (fun row => ~ is_dict row) l ->
  map_res (fun row =>
             match row with
             | VDict r => Ok (VDict (dict_set r "_inserted_at" (VStr stamp)))
             | _ => Raise TypeError
             end) l
  = Raise TypeError.
Proof.
  induction l as [|x l IH]; intros Hex; [inversion Hex|].
  cbn [map_res].
  destruct x as [| | | | |r]; try reflexivity.
  cbn [res_bind]. rewrite IH; [reflexivity|].
  inversion Hex as [? ? Hx|? ? Hl]; subst; [|exact Hl].
  exfalso. apply Hx. exact I.
Qed.

(** X3.  [insert_many] puts the rows after the rows the table has, in
    the order given and all with the same ["_inserted_at"], the time read
    once at the call; it returns their number, leaves the other tables
    and the list of tables as they were, and writes the file, also when
    the list of rows is empty. *)
Theorem insert_many_appends (st : State) (d meta : dict) (t : string)
    (rows : list value) (rs : list dict) :
  _data st = VDict d ->
  dict_get d "_meta" = Some (VDict meta) ->
  dict_get d t = Some (VList rows) ->
  let table' :=
    VList (rows ++ map (stamped "_inserted_at" (clock st (ticks st))) rs) in
  exists st',
    insert_many t (VList (map VDict rs)) st = (Ok (length rs), st') /\
    py_getitem (_data st') t = Ok table' /\
    (forall k, k <> t -> k <> "_meta" ->
       py_getitem (_data st') k = py_getitem (_data st) k) /\
    list_tables_of (_data st') = list_tables_of (_data st) /\
    files st' !! path_str (db_path st)
      = Some (json_dumps (VDict (dict_set d t table'))).
Proof.
  intros Hd Hm Ht table'.
  pose proof (table_not_meta d meta t rows Hm Ht) as Hne.
  set (st1 := with_ticks (S (ticks st)) st).
  destruct (write_after_set st1 d meta t table' Hd Hm Hne)
    as (st' & Hw & Hrows & Hother & Htables & Hfile & _).
  exists st'. split; [|repeat split; assumption].
  unfold insert_many.
  rewrite (bind_ok _ _ _ _ _ (exists_table_run st d t Hd)).
  rewrite (dict_mem_get d t _ Ht). cbn [negb].
  rewrite (bind_ok _ _ _ _ _ (now_run st)). fold st1.
  rewrite (lift_ok _ _ _ _ (stamp_rows _ rs)).
  rewrite (bind_ok _ _ _ _ _ (get_table_run st1 d t _ Hd Ht)).
  erewrite lift_ok by reflexivity.
  rewrite (bind_ok _ _ _ _ _ (set_table_run st1 d t _ Hd)).
  rewrite (bind_ok _ _ _ _ _ Hw).
  unfold ret. now rewrite length_map.
Qed.

(** X4.  [insert_many] inserts all the rows or none: when one of them is
    not a dictionary it raises [TypeError] before the table is touched,
    so the store and the files are as they were. *)
Theorem insert_many_all_or_nothing (st : State) (d : dict) (t : string)
    (l : list value) :
  _data st = VDict d ->
  dict_mem d t = true ->
  Exists (fun row => ~ is_dict row) l ->
  exists st',
    insert_many t (VList l) st = (Raise TypeError, st') /\
    _data st' = _data st /\ files st' = files st.
Proof.
  intros Hd Hm Hex.
  exists (with_ticks (S (ticks st)) st). split; [|split; reflexivity].
  unfold insert_many.
  rewrite (bind_ok _ _ _ _ _ (exists_table_run st d t Hd)). rewrite Hm.
  cbn [negb].
  rewrite (bind_ok _ _ _ _ _ (now_run st)).
  now rewrite (lift_raise _ _ _ _ (stamp_rows_fails _ l Hex)).
Qed.

(** X5.  After [insert], [select] on the table without arguments returns
    the rows it had and then the new row, and [count] is one more than
    the number of rows it had. *)
Theorem insert_then_select (st : State) (d meta r : dict) (t : string)
    (rows : list value) :
  _data st = VDict d ->
  dict_get d "_meta" = Some (VDict meta) ->
  dict_get d t = Some (VList rows) ->
  Forall copyable rows ->
  exists st',
    insert t (VDict r) st = (Ok tt, st') /\
    select t FNone None None 0 None false st'
      = (Ok (rows ++ [stamped "_inserted_at" (clock st (ticks st)) r]), st') /\
    count t FNone st' = (Ok (S (length rows)), st').
Proof.
  intros Hd Hm Ht Hc.
  destruct (insert_run st d meta r t rows Hd Hm Ht)
    as (st' & Hi & Hrows & _).
  destruct (py_getitem_dict _ _ _ Hrows) as (d' & Hd' & Ht').
  assert (Hsel : select t FNone None None 0 None false st'
                 = (Ok (rows ++ [stamped "_inserted_at" (clock st (ticks st)) r]),
                    st')).
  { apply (select_kept st' d' t _ _ FNone Hd' Ht'); [reflexivity|].
    apply Forall_app. split; [exact Hc|]. repeat constructor. }
  exists st'. split; [exact Hi|]. split; [exact Hsel|].
  unfold count. rewrite (bind_ok _ _ _ _ _ Hsel). unfold ret.
  rewrite length_app. cbn [length]. now rewrite Nat.add_1_r.
Qed.

End InsertFacts.

(** ** [select] and [count] with a filter *)

Section FilterFacts.
Context `{PyRuntime}.

(** X6.  With a filter that decides every row of the table, [select]
    with the filter only returns the rows on which it holds, in the order
    of the table, and [count] returns their number; without a filter
    [count] is the number of rows of the table. *)
Theorem count_is_number_matching (st : State) (d filters : dict) (t : string)
    (rows : list value) (p : value -> bool) :
  _data st = VDict d ->
  dict_get d t = Some (VList rows) ->
  Forall copyable rows ->
  (forall row, In row rows -> condition_func filters row = Ok (p row)) ->
  select t (FDict filters) None None 0 None false st
    = (Ok (List.filter p rows), st) /\
  count t (FDict filters) st = (Ok (length (List.filter p rows)), st) /\
  count t FNone st = (Ok (length rows), st).
Proof.
  intros Hd Ht Hc Hp.
  assert (Hsel : select t (FDict filters) None None 0 None false st
                 = (Ok (List.filter p rows), st)).
  { apply (select_kept st d t rows _ _ Hd Ht).
    - cbn [apply_filters py_iter res_bind].
      now rewrite (filter_res_decided _ p rows Hp).
    - now apply Forall_filter_copyable. }
  split; [exact Hsel|]. split.
  - unfold count. now rewrite (bind_ok _ _ _ _ _ Hsel).
  - unfold count.
    now rewrite (bind_ok _ _ _ _ _
                   (select_kept st d t rows rows FNone Hd Ht eq_refl Hc)).
Qed.

Lemma plain_condition (v c : value) :
  plain c -> _match_condition v c = Ok (py_eq v c).
Proof.
  destruct c as [| | |s| |]; cbn; try reflexivity; [|contradiction].
  now intros ->.
Qed.

Lemma plain_no_exists (c : value) : plain c -> exists_operand c = None.
Proof. destruct c; cbn; try reflexivity. contradiction. Qed.

(** X7.  A filter [{field: c}] whose [c] is neither a mapping of
    operators nor a string with [*] or [?] is an equality test: on a
    table of records, [select] returns the records that have the field
    with a value equal to [c], in the order of the table.  A record
    without the field is not returned, also when [c] is [None]. *)
Theorem equality_filter_selects (st : State) (d : dict) (t field : string)
    (c : value) (rs : list dict) :
  _data st = VDict d ->
  dict_get d t = Some (VList (map VDict rs)) ->
  plain c ->
  select t (FDict [(field, c)]) None None 0 None false st
    = (Ok (List.filter (has_value field c) (map VDict rs)), st).
Proof.
  intros Hd Ht Hc.
  apply (select_kept st d t (map VDict rs) _ _ Hd Ht).
  - cbn [apply_filters py_iter res_bind].
    rewrite (filter_res_decided _ (has_value field c)); [reflexivity|].
    intros row Hrow. apply in_map_iff in Hrow as (r & <- & _).
    cbn [condition_func has_value]. rewrite (plain_no_exists c Hc).
    cbn [py_in res_bind]. unfold dict_mem.
    destruct (dict_get r field) as [v|] eqn:Hv; cbn [negb]; [|reflexivity].
    cbn [py_getitem]. rewrite Hv. cbn [res_bind].
    rewrite (plain_condition v c Hc). cbn [res_bind].
    destruct (py_eq v c); reflexivity.
  - apply Forall_filter_copyable, Forall_forall. intros row Hrow.
    apply in_map_iff in Hrow as (r & <- & _). exact I.
Qed.

Lemma apply_sorting_nil (order_by : option string) (reverse : bool) :
  apply_sorting order_by reverse (VList []) = Ok (VList []).
Proof.
  unfold apply_sorting. destruct order_by as [field|]; [|reflexivity].
  destruct (String.eqb field ""); [reflexivity|].
  destruct reverse; reflexivity.
Qed.

Lemma apply_pagination_nil (offset : Z) (limit : option Z) :
  apply_pagination offset limit (VList []) = Ok (VList []).
Proof.
  unfold apply_pagination.
  destruct (0 <? offset); cbn [py_slice_from res_bind];
    rewrite ?skipn_nil; destruct limit as [m|]; cbn [py_slice_to];
    rewrite ?firstn_nil; reflexivity.
Qed.

(** X8.  A filter with a field that no record of the table has, under a
    condition that holds no [$exists], matches nothing: [select] returns
    no rows and raises nothing, whatever the fields of the filter after
    that one, the projection, the page and the sort order are.  The
    fields before it are evaluated first, in the order of the filter:
    they may hold or fail on a record, but must not raise on any.  So the
    key ["$or"] of a filter is read as the name of a field, not as an
    operator. *)
Theorem absent_field_selects_nothing (st : State) (d before rest : dict)
    (t field : string) (condition : value) (rs : list dict)
    fields limit offset order_by reverse :
  _data st = VDict d ->
  dict_get d t = Some (VList (map VDict rs)) ->
  Forall (fun r => dict_get r field = None) rs ->
  exists_operand condition = None ->
  Forall (fun r => exists b, condition_func before (VDict r) = Ok b) rs ->
  select t (FDict (before ++ (field, condition) :: rest)) fields limit offset
         order_by reverse st = (Ok [], st) /\
  count t (FDict (before ++ (field, condition) :: rest)) st = (Ok 0%nat, st).
Proof.
  intros Hd Ht Habsent He Hbefore.
  assert (Hf : apply_filters (FDict (before ++ (field, condition) :: rest))
                 (VList (map VDict rs)) = Ok (VList [])).
  { cbn [apply_filters py_iter res_bind].
    rewrite (filter_res_decided _ (fun _ => false)).
    - clear. induction (map VDict rs) as [|x l IH]; [reflexivity|].
      cbn [List.filter]. exact IH.
    - intros row Hrow. apply in_map_iff in Hrow as (r & <- & Hr).
      rewrite Forall_forall in Habsent, Hbefore.
      destruct (Hbefore r Hr) as [[|] Hb].
      + rewrite (condition_func_app _ _ _ Hb).
        exact (condition_func_absent field condition rest r He (Habsent r Hr)).
      + exact (condition_func_app_false _ _ _ Hb). }
  assert (Hsel : forall fields limit offset order_by reverse,
            select t (FDict (before ++ (field, condition) :: rest)) fields
                   limit offset order_by reverse st = (Ok [], st)).
  { intros. cbv [select bind get_data lift select_rows]. rewrite Hd.
    cbn [py_in res_bind]. rewrite (dict_mem_get d t _ Ht).
    cbn [negb py_getitem]. rewrite Ht. cbn [res_bind]. rewrite Hf.
    cbn [res_bind]. rewrite apply_sorting_nil. cbn [res_bind].
    rewrite apply_pagination_nil. cbn [res_bind].
    unfold apply_projection. cbn [py_iter res_bind].
    match goal with |- context [match ?f with Some _ => _ | None => _ end] =>
      destruct f end; reflexivity. }
  split; [apply Hsel|].
  unfold count. now rewrite (bind_ok _ _ _ _ _ (Hsel None None 0 None false)).
Qed.

End FilterFacts.

(** ** The operators that compare *)

Section OperatorFacts.
Context `{PyRuntime}.

Lemma py_cmp_none (op op' : cmpop) (a : value) :
  forall b, py_cmp op a b = None -> py_cmp op' a b = None.
Proof.
  induction a as [|x|x|s|la IH|da _] using JsonFacts.value_nested_ind;
    intros b; destruct b as [|y|y|u|lb|db]; cbn [py_cmp];
    try discriminate; try reflexivity.
  revert lb. induction IH as [|x la Hx _ IHla]; intros lb; [discriminate|].
  destruct lb as [|y lb]; [discriminate|].
  destruct (py_eq x y); [apply IHla | apply Hx].
Qed.

(** X9.  A mapping of the operators [$eq], [$ne], [$gt], [$gte], [$lt]
    and [$lte] never raises, whatever the value of the field and the
    operands are. *)
Theorem comparisons_never_raise (v : value) (ops : dict) :
  Forall (fun kv => In (fst kv) comparison_operators) ops ->
  exists b, match_operators v ops = Ok b.
Proof.
  induction 1 as [|[op operand] ops Hop _ [b IH]]; [now exists true|].
  cbn [fst comparison_operators In] in Hop.
  destruct Hop as [<-|[<-|[<-|[<-|[<-|[<-|[]]]]]]].
  - change (match_operators v (("$eq", operand) :: ops))
      with (if negb (py_eq v operand) then Ok false
            else match_operators v ops).
    destruct (negb _); eauto.
  - change (match_operators v (("$ne", operand) :: ops))
      with (if py_eq v operand then Ok false else match_operators v ops).
    destruct (py_eq _ _); eauto.
  - change (match_operators v (("$gt", operand) :: ops))
      with (if negb (holds (py_cmp Gt v operand)) then Ok false
            else match_operators v ops).
    destruct (negb _); eauto.
  - change (match_operators v (("$gte", operand) :: ops))
      with (if negb (holds (py_cmp Ge v operand)) then Ok false
            else match_operators v ops).
    destruct (negb _); eauto.
  - change (match_operators v (("$lt", operand) :: ops))
      with (if negb (holds (py_cmp Lt v operand)) then Ok false
            else match_operators v ops).
    destruct (negb _); eauto.
  - change (match_operators v (("$lte", operand) :: ops))
      with (if negb (holds (py_cmp Le v operand)) then Ok false
            else match_operators v ops).
    destruct (negb _); eauto.
Qed.

(** X10.  When the value of the field and the operand have no order (a
    string and a number, say), each of [$gt], [$gte], [$lt] and [$lte] is
    false: the [TypeError] of the comparison is caught.  So [$lt] and
    [$gte] are then both false. *)
Theorem unordered_compare_false (v operand : value) (rest : dict) :
  py_cmp Lt v operand = None ->
  match_operators v (("$gt", operand) :: rest) = Ok false /\
  match_operators v (("$gte", operand) :: rest) = Ok false /\
  match_operators v (("$lt", operand) :: rest) = Ok false /\
  match_operators v (("$lte", operand) :: rest) = Ok false.
Proof.
  intros Hlt.
  change (match_operators v (("$gt", operand) :: rest))
    with (if negb (holds (py_cmp Gt v operand)) then Ok false
          else match_operators v rest).
  change (match_operators v (("$gte", operand) :: rest))
    with (if negb (holds (py_cmp Ge v operand)) then Ok false
          else match_operators v rest).
  change (match_operators v (("$lt", operand) :: rest))
    with (if negb (holds (py_cmp Lt v operand)) then Ok false
          else match_operators v rest).
  change (match_operators v (("$lte", operand) :: rest))
    with (if negb (holds (py_cmp Le v operand)) then Ok false
          else match_operators v rest).
  rewrite (py_cmp_none Lt Gt v operand Hlt), (py_cmp_none Lt Ge v operand Hlt),
    (py_cmp_none Lt Le v operand Hlt), Hlt.
  repeat split; reflexivity.
Qed.

(** X11.  [$between] takes a list of exactly two bounds and includes
    both: on integers it holds when [lo <= x <= hi].  An operand that is
    not a list of two values raises a query error. *)
Theorem between_is_inclusive (v operand : value) (x lo hi : Z) (rest : dict) :
  match_operators (VInt x) (("$between", VList [VInt lo; VInt hi]) :: rest)
    = (if (lo <=? x) && (x <=? hi) then match_operators (VInt x) rest
       else Ok false) /\
  ((forall a b, operand <> VList [a; b]) ->
   match_operators v (("$between", operand) :: rest)
     = Raise (QueryError "$between requires array of exactly 2 values")).
Proof.
  split.
  - change (match_operators (VInt x)
              (("$between", VList [VInt lo; VInt hi]) :: rest))
      with (if negb (holds (py_cmp Le (VInt lo) (VInt x)) &&
                     holds (py_cmp Le (VInt x) (VInt hi)))
            then Ok false else match_operators (VInt x) rest).
    cbn [py_cmp cmp_Z holds].
    destruct (lo <=? x); destruct (x <=? hi); reflexivity.
  - intros Hop.
    change (match_operators v (("$between", operand) :: rest))
      with (match operand with
            | VList [min_val; max_val] =>
                if negb (holds (py_cmp Le min_val v) &&
                         holds (py_cmp Le v max_val))
                then Ok false
                else match_operators v rest
            | _ => Raise (QueryError
                            "$between requires array of exactly 2 values")
            end).
    destruct operand as [| | | |[|a [|b [|c l]]]|]; try reflexivity.
    exfalso. now apply (Hop a b).
Qed.

End OperatorFacts.

(** ** The page *)

Section PageFacts.
Context `{PyRuntime}.

(** X12.  Without a filter and a sort order, [select] ignores an offset
    of zero or less, returns no rows for an offset at or beyond the
    number of rows, and returns no rows for a limit of zero: none of them
    is an error. *)
Theorem page_bounds (st : State) (d : dict) (t : string) (rows : list value)
    (offset : Z) (limit : option Z) :
  _data st = VDict d ->
  dict_get d t = Some (VList rows) ->
  Forall copyable rows ->
  (offset <= 0 ->
   select t FNone None None offset None false st = (Ok rows, st)) /\
  (Z.of_nat (length rows) <= offset ->
   select t FNone None limit offset None false st = (Ok [], st)) /\
  select t FNone None (Some 0) offset None false st = (Ok [], st).
Proof.
  intros Hd Ht Hc.
  assert (Hrun : forall limit offset,
            select t FNone None limit offset None false st
            = ((rows' <- apply_pagination offset limit (VList rows) ;;
                apply_projection None rows')%res, st)).
  { intros. cbv [select bind get_data lift select_rows]. rewrite Hd.
    cbn [py_in res_bind]. rewrite (dict_mem_get d t _ Ht).
    cbn [negb py_getitem]. rewrite Ht. reflexivity. }
  split; [|split].
  - intros Ho. rewrite Hrun. unfold apply_pagination.
    destruct (Z.ltb_spec 0 offset); [lia|]. cbn [res_bind].
    unfold apply_projection. cbn [py_iter res_bind].
    now rewrite (map_res_copy_ok _ Hc).
  - intros Ho. rewrite Hrun. unfold apply_pagination.
    destruct (Z.ltb_spec 0 offset) as [Hpos|Hle].
    + cbn [py_slice_from res_bind].
      rewrite skipn_all2 by lia.
      destruct limit as [m|]; cbn [py_slice_to]; rewrite ?firstn_nil;
        reflexivity.
    + assert (rows = []) as -> by (destruct rows; [reflexivity|cbn in Ho; lia]).
      cbn [res_bind]. destruct limit as [m|]; cbn [py_slice_to];
        rewrite ?firstn_nil; reflexivity.
  - rewrite Hrun. unfold apply_pagination.
    destruct (0 <? offset); cbn [py_slice_from res_bind py_slice_to];
      unfold slice_end; cbn [Z.ltb Z.compare Z.to_nat firstn]; reflexivity.
Qed.

End PageFacts.

(** ** [delete] and [clear_table] *)

Section DeleteFacts.
Context `{PyRuntime}.

Lemma filter_none {A} (p : A -> bool) (l : list A) :
  List.filter p l = [] -> List.filter (fun x => negb (p x)) l = l.
Proof.
  induction l as [|x l IH]; [reflexivity|]. cbn [List.filter].
  destruct (p x); [discriminate|]. intros Hl. cbn [negb]. now rewrite IH.
Qed.

Lemma delete_steps (st : State) (d : dict) (t : string) (rows : list value)
    (filters : filter_arg) (cond : value -> res bool) (p : value -> bool) :
  _data st = VDict d ->
  dict_get d t = Some (VList rows) ->
  build_condition filters = Ok cond ->
  (forall row, In row rows -> cond row = Ok (p row)) ->
  delete t filters st =
  let kept := List.filter (fun row => negb (p row)) rows in
  let deleted_count := length (List.filter p rows) in
  ((if Nat.ltb 0 deleted_count then _write_db else ret tt) ;;;
   ret deleted_count)%M
    (with_data (VDict (dict_set d t (VList kept))) st).
Proof.
  intros Hd Ht Hb Hp. unfold delete.
  rewrite (bind_ok _ _ _ _ _ (exists_table_run st d t Hd)).
  rewrite (dict_mem_get d t _ Ht). cbn [negb].
  rewrite (bind_ok _ _ _ _ _ (get_table_run st d t _ Hd Ht)).
  erewrite lift_ok by reflexivity.
  rewrite (lift_ok _ _ _ _ Hb).
  erewrite lift_ok by reflexivity.
  erewrite lift_ok
    by (apply (filter_res_decided _ (fun row => negb (p row)));
        intros row Hrow; rewrite (Hp row Hrow); reflexivity).
  rewrite (bind_ok _ _ _ _ _ (set_table_run st d t _ Hd)).
  cbv zeta.
  replace (length rows - length (List.filter (fun row => negb (p row)) rows))%nat
    with (length (List.filter p rows))
    by (pose proof (filter_length p rows); lia).
  reflexivity.
Qed.

Lemma delete_nothing (st : State) (d : dict) (t : string)
    (rows : list value) (filters : filter_arg) (cond : value -> res bool)
    (p : value -> bool) :
  _data st = VDict d ->
  dict_get d t = Some (VList rows) ->
  build_condition filters = Ok cond ->
  (forall row, In row rows -> cond row = Ok (p row)) ->
  List.filter p rows = [] ->
  delete t filters st = (Ok 0%nat, st).
Proof.
  intros Hd Ht Hb Hp Hf.
  rewrite (delete_steps st d t rows filters cond p Hd Ht Hb Hp).
  cbv zeta. rewrite Hf. cbn [length Nat.ltb Nat.leb].
  rewrite (filter_none p rows Hf).
  rewrite (dict_set_same d t _ Ht), <- Hd, with_data_same. reflexivity.
Qed.

(** X13.  [delete] removes the rows on which the filter holds and keeps
    the others in their order; it returns the number of rows removed.
    When that number is not zero the file is written, with the rows that
    are left; the other tables and the list of tables stay as they
    were. *)
Theorem delete_removes_matching (st : State) (d meta : dict) (t : string)
    (rows : list value) (filters : filter_arg) (cond : value -> res bool)
    (p : value -> bool) :
  _data st = VDict d ->
  dict_get d "_meta" = Some (VDict meta) ->
  dict_get d t = Some (VList rows) ->
  build_condition filters = Ok cond ->
  (forall row, In row rows -> cond row = Ok (p row)) ->
  List.filter p rows <> [] ->
  let kept := List.filter (fun row => negb (p row)) rows in
  exists st',
    delete t filters st = (Ok (length (List.filter p rows)), st') /\
    py_getitem (_data st') t = Ok (VList kept) /\
    (length kept + length (List.filter p rows) = length rows)%nat /\
    (forall k, k <> t -> k <> "_meta" ->
       py_getitem (_data st') k = py_getitem (_data st) k) /\
    list_tables_of (_data st') = list_tables_of (_data st) /\
    files st' !! path_str (db_path st)
      = Some (json_dumps (VDict (dict_set d t (VList kept)))).
Proof.
  intros Hd Hm Ht Hb Hp Hsome kept.
  pose proof (table_not_meta d meta t rows Hm Ht) as Hne.
  destruct (write_after_set st d meta t (VList kept) Hd Hm Hne)
    as (st' & Hw & Hrows & Hother & Htables & Hfile & _).
  exists st'. split; [|split; [exact Hrows|split]].
  - rewrite (delete_steps st d t rows filters cond p Hd Ht Hb Hp). cbv zeta.
    destruct (List.filter p rows) as [|x l] eqn:Hf; [congruence|].
    cbn [length Nat.ltb Nat.leb]. fold kept.
    now rewrite (bind_ok _ _ _ _ _ Hw).
  - pose proof (filter_length p rows). unfold kept. lia.
  - repeat split; assumption.
Qed.

(** X14.  After [delete] with a filter dictionary, no row of the table
    matches the filter any more: [select] with the same filter returns
    no rows and [count] returns zero. *)
Theorem delete_then_none_match (st : State) (d meta filters : dict)
    (t : string) (rows : list value) (p : value -> bool) :
  _data st = VDict d ->
  dict_get d "_meta" = Some (VDict meta) ->
  dict_get d t = Some (VList rows) ->
  (forall row, In row rows -> condition_func filters row = Ok (p row)) ->
  exists n st',
    delete t (FDict filters) st = (Ok n, st') /\
    select t (FDict filters) None None 0 None false st' = (Ok [], st') /\
    count t (FDict filters) st' = (Ok 0%nat, st').
Proof.
  intros Hd Hm Ht Hp.
  set (kept := List.filter (fun row => negb (p row)) rows).
  assert (Hnone : forall st' d',
            _data st' = VDict d' -> dict_get d' t = Some (VList kept) ->
            select t (FDict filters) None None 0 None false st' = (Ok [], st')).
  { intros st' d' Hd' Ht'.
    apply (select_kept st' d' t kept [] _ Hd' Ht'); [|constructor].
    cbn [apply_filters py_iter res_bind].
    rewrite (filter_res_decided _ p).
    - replace (List.filter p kept) with (@nil value); [reflexivity|].
      unfold kept. clear. induction rows as [|x l IH]; [reflexivity|].
      cbn [List.filter]. destruct (p x) eqn:Hx; cbn [negb List.filter];
        [exact IH|]. now rewrite Hx.
    - intros row Hrow. apply Hp. unfold kept in Hrow.
      now apply filter_In in Hrow as [Hrow _]. }
  assert (Hcount : forall st',
            select t (FDict filters) None None 0 None false st' = (Ok [], st') ->
            count t (FDict filters) st' = (Ok 0%nat, st')).
  { intros st' Hsel. unfold count. now rewrite (bind_ok _ _ _ _ _ Hsel). }
  destruct (List.filter p rows) as [|x l] eqn:Hf.
  - exists 0%nat, st.
    assert (Hkept : kept = rows) by (apply filter_none; exact Hf).
    split; [|split].
    + exact (delete_nothing st d t rows (FDict filters) _ p Hd Ht eq_refl Hp Hf).
    + apply (Hnone st d Hd). now rewrite Hkept.
    + apply Hcount, (Hnone st d Hd). now rewrite Hkept.
  - pose proof (table_not_meta d meta t rows Hm Ht) as Hne.
    destruct (write_after_set st d meta t (VList kept) Hd Hm Hne)
      as (st' & Hw & _ & _ & _ & _ & _ & _ & _ & _ & d' & Hd' & Ht' & _).
    exists (length (x :: l)), st'. split; [|split].
    + rewrite (delete_steps st d t rows (FDict filters) _ p Hd Ht eq_refl Hp).
      cbv zeta. rewrite Hf. cbn [length Nat.ltb Nat.leb]. fold kept.
      now rewrite (bind_ok _ _ _ _ _ Hw).
    + exact (Hnone st' d' Hd' Ht').
    + exact (Hcount st' (Hnone st' d' Hd' Ht')).
Qed.

End DeleteFacts.

(** ** [update] *)

Section UpdateFacts.
Context `{PyRuntime}.

Lemma dict_set_set {V} (d : list (string * V)) (k : string) (v v' : V) :
  dict_set (dict_set d k v) k v' = dict_set d k v'.
Proof.
  induction d as [|[k0 v0] d IH]; cbn.
  - now rewrite String.eqb_refl.
  - destruct (String.eqb k0 k) eqn:Hk; cbn; rewrite Hk; [reflexivity|].
    now rewrite IH.
Qed.

Lemma state_eq (st st' : State) :
  db_path st' = db_path st -> backup st' = backup st ->
  _data st' = _data st -> files st' = files st ->
  clock st' = clock st -> ticks st' = ticks st -> st' = st.
Proof.
  destruct st, st'; cbn. intros -> -> -> -> -> ->. reflexivity.
Qed.

Lemma update_loop_none (cond : value -> res bool) (updater : updater_arg)
    (t : string) (items : list value) :
  (forall row, In row items -> cond row = Ok false) ->
  forall (i count : nat) (st : State),
    update_loop cond updater t i items count st = (Ok count, st).
Proof.
  induction items as [|row rest IH]; intros Hp i count st; [reflexivity|].
  cbn [update_loop].
  rewrite (lift_ok _ _ _ _ (Hp row (or_introl eq_refl))).
  apply IH. intros r Hr. apply Hp. now right.
Qed.

Lemma update_loop_run (cond : value -> res bool) (p : value -> bool)
    (u : dict) (t : string) (items : list value) :
  (forall row, In row items -> cond row = Ok (p row)) ->
  (forall row, In row items -> p row = true -> is_dict row) ->
  forall (done : list value) (st : State) (d : dict) (count : nat),
    _data st = VDict d ->
    dict_get d t = Some (VList (done ++ items)) ->
    exists st' items',
      update_loop cond (UDict u) t (length done) items count st
        = (Ok (count + length (List.filter p items))%nat, st') /\
      _data st' = VDict (dict_set d t (VList (done ++ items'))) /\
      files st' = files st /\ db_path st' = db_path st /\
      backup st' = backup st /\ clock st' = clock st /\
      ticks st' = (ticks st + length (List.filter p items))%nat /\
      Forall2 (updated_from p u) items items'.
Proof.
  induction items as [|row rest IH]; intros Hp Hdict done st d count Hd Ht.
  - exists st, []. cbn [update_loop List.filter length].
    rewrite !Nat.add_0_r. split; [reflexivity|].
    split; [rewrite (dict_set_same d t _ Ht); exact Hd|].
    repeat split; constructor.
  - assert (Hp' : forall r, In r rest -> cond r = Ok (p r))
      by (intros r Hr; apply Hp; now right).
    assert (Hdict' : forall r, In r rest -> p r = true -> is_dict r)
      by (intros r Hr; apply Hdict; now right).
    cbn [update_loop List.filter].
    rewrite (lift_ok _ _ _ _ (Hp row (or_introl eq_refl))).
    destruct (p row) eqn:Hrow.
    + pose proof (Hdict row (or_introl eq_refl) Hrow) as Hr.
      destruct row as [| | | | |r]; try contradiction.
      set (new_row := merged u (clock st (ticks st)) r).
      set (st1 := with_ticks (S (ticks st)) st).
      set (d1 := dict_set d t (VList (done ++ new_row :: rest))).
      set (st2 := with_data (VDict d1) st1).
      destruct (IH Hp' Hdict' (done ++ [new_row]) st2 d1 (S count) eq_refl)
        as (st' & items' & Hloop & Hdata & Hfiles & Hpath & Hbackup & Hclock
            & Hticks & Hall).
      { unfold d1. rewrite dict_get_set_eq, <- app_assoc. reflexivity. }
      exists st', (new_row :: items').
      rewrite length_app, Nat.add_1_r in Hloop.
      split.
      { cbn [update_func].
        unfold bind at 1. unfold bind at 1. rewrite (now_run st). fold st1.
        cbn [ret]. fold new_row.
        rewrite (bind_ok _ _ _ _ _ (get_table_run st1 d t _ Hd Ht)).
        erewrite lift_ok.
        2: { cbn [py_setitem_index]. rewrite length_app. cbn [length].
             replace (length done <? length done + S (length rest))%nat
               with true by (symmetry; apply Nat.ltb_lt; lia).
             rewrite <- (Nat.add_0_r (length done)) at 1.
             rewrite insert_app_r. reflexivity. }
        rewrite (bind_ok _ _ _ _ _ (set_table_run st1 d t _ Hd)).
        etransitivity; [exact Hloop|]. cbn [length]. f_equal. f_equal. lia. }
      split.
      { rewrite Hdata. unfold d1. rewrite dict_set_set, <- app_assoc.
        reflexivity. }
      repeat (split; [assumption|]).
      split; [rewrite Hticks; cbn; lia|].
      constructor; [|exact Hall].
      unfold updated_from. rewrite Hrow. now exists r, (clock st (ticks st)).
    + destruct (IH Hp' Hdict' (done ++ [row]) st d count Hd)
        as (st' & items' & Hloop & Hdata & Hrest).
      { rewrite <- app_assoc. exact Ht. }
      exists st', (row :: items').
      rewrite length_app, Nat.add_1_r in Hloop.
      split; [exact Hloop|].
      split; [rewrite Hdata, <- app_assoc; reflexivity|].
      destruct Hrest as (? & ? & ? & ? & ? & Hall).
      repeat (split; [assumption|]).
      constructor; [|exact Hall].
      unfold updated_from. now rewrite Hrow.
Qed.

(** X15.  [update] with a dictionary of fields rewrites in place the rows
    on which the filter holds, each merged with the fields and stamped,
    and leaves every other row as it is: the table keeps its length and
    its order.  It returns the number of rows rewritten and, that number
    being not zero, writes the file; the other tables and the list of
    tables stay as they were. *)
Theorem update_rewrites_matching (st : State) (d meta u : dict) (t : string)
    (rows : list value) (filters : filter_arg) (cond : value -> res bool)
    (p : value -> bool) :
  _data st = VDict d ->
  dict_get d "_meta" = Some (VDict meta) ->
  dict_get d t = Some (VList rows) ->
  build_condition filters = Ok cond ->
  (forall row, In row rows -> cond row = Ok (p row)) ->
  (forall row, In row rows -> p row = true -> is_dict row) ->
  List.filter p rows <> [] ->
  exists st' rows',
    update t filters (UDict u) st = (Ok (length (List.filter p rows)), st') /\
    py_getitem (_data st') t = Ok (VList rows') /\
    Forall2 (updated_from p u) rows rows' /\
    length rows' = length rows /\
    (forall k, k <> t -> k <> "_meta" ->
       py_getitem (_data st') k = py_getitem (_data st) k) /\
    list_tables_of (_data st') = list_tables_of (_data st) /\
    files st' !! path_str (db_path st)
      = Some (json_dumps (VDict (dict_set d t (VList rows')))).
Proof.
  intros Hd Hm Ht Hb Hp Hdict Hsome.
  pose proof (table_not_meta d meta t rows Hm Ht) as Hne.
  destruct (update_loop_run cond p u t rows Hp Hdict [] st d 0%nat Hd Ht)
    as (st1 & rows' & Hloop & Hdata & Hfiles & Hpath & Hbackup & Hclock
        & Hticks & Hall).
  cbn [app length] in Hloop, Hdata.
  assert (Hst1 : st1 = with_data (VDict (dict_set d t (VList rows')))
                         (with_data (VDict d) st1)) by (now destruct st1; cbn in *; subst).
  destruct (write_after_set (with_data (VDict d) st1) d meta t (VList rows')
              eq_refl Hm Hne)
    as (st' & Hw & Hrows & Hother & Htables & Hfile & _).
  rewrite <- Hst1 in Hw.
  exists st', rows'. split; [|split; [exact Hrows|split; [exact Hall|split]]].
  - unfold update.
    rewrite (bind_ok _ _ _ _ _ (exists_table_run st d t Hd)).
    rewrite (dict_mem_get d t _ Ht). cbn [negb].
    rewrite (lift_ok _ _ _ _ Hb).
    rewrite (bind_ok _ _ _ _ _ (get_table_run st d t _ Hd Ht)).
    erewrite lift_ok by reflexivity.
    rewrite (bind_ok _ _ _ _ _ Hloop). cbn [Nat.add].
    destruct (List.filter p rows) as [|x l]; [congruence|].
    cbn [length Nat.ltb Nat.leb].
    now rewrite (bind_ok _ _ _ _ _ Hw).
  - symmetry. exact (Forall2_length Hall).
  - split.
    { intros k Hk Hk'. rewrite (Hother k Hk Hk'). cbn [_data with_data].
      now rewrite Hd. }
    split.
    { rewrite Htables. cbn [_data with_data]. now rewrite Hd. }
    rewrite <- Hpath. exact Hfile.
Qed.

Lemma dict_get_merge (u r : dict) (k : string) :
  NoDup (dict_keys u) ->
  dict_get (dict_merge r u) k =
  match dict_get u k with
  | Some v => Some v
  | None => dict_get r k
  end.
Proof.
  unfold dict_merge. revert r.
  induction u as [|[k0 v0] u IH]; intros r Hnd; [reflexivity|].
  inversion Hnd as [|? ? Hnotin Hnd']; subst.
  cbn [fold_left fst snd dict_get]. rewrite (IH _ Hnd'), dict_get_set.
  destruct (String.eqb_spec k0 k) as [->|Hne]; [|reflexivity].
  destruct (dict_get u k) eqn:Hg; [|reflexivity].
  exfalso. apply Hnotin. apply dict_mem_keys. unfold dict_mem.
  now rewrite Hg.
Qed.

(** X16.  The row that [update] makes from a record and a dictionary of
    fields has every field of the updater with the updater's value, every
    other field of the record with the value it had, and the time of the
    update under ["_updated_at"], whatever the record or the updater hold
    under that key. *)
Theorem updated_row_fields (st : State) (r u : dict) :
  NoDup (dict_keys u) ->
  exists row',
    update_func (UDict u) (VDict r) st
      = (Ok row', with_ticks (S (ticks st)) st) /\
    py_getitem row' "_updated_at" = Ok (VStr (clock st (ticks st))) /\
    (forall k v, k <> "_updated_at" -> dict_get u k = Some v ->
       py_getitem row' k = Ok v) /\
    (forall k, k <> "_updated_at" -> dict_get u k = None ->
       py_getitem row' k = py_getitem (VDict r) k).
Proof.
  intros Hnd. exists (merged u (clock st (ticks st)) r).
  split; [reflexivity|]. unfold merged. cbn [py_getitem].
  split; [now rewrite dict_get_set_eq|].
  split.
  - intros k v Hk Hu. rewrite dict_get_set_ne by congruence.
    now rewrite (dict_get_merge u r k Hnd), Hu.
  - intros k Hk Hu. rewrite dict_get_set_ne by congruence.
    now rewrite (dict_get_merge u r k Hnd), Hu.
Qed.

(** X17.  When the filter holds on no row, [update] and [delete]
    return zero and leave the instance and the files as they were: the
    updater is not called, the clock is not read and nothing is
    written. *)
Theorem no_match_no_change (st : State) (d : dict) (t : string)
    (rows : list value) (filters : filter_arg) (cond : value -> res bool) :
  _data st = VDict d ->
  dict_get d t = Some (VList rows) ->
  build_condition filters = Ok cond ->
  (forall row, In row rows -> cond row = Ok false) ->
  delete t filters st = (Ok 0%nat, st) /\
  (forall updater, updater <> UOther ->
     update t filters updater st = (Ok 0%nat, st)).
Proof.
  intros Hd Ht Hb Hp. split.
  { exact (delete_nothing st d t rows filters cond (fun _ => false)
             Hd Ht Hb Hp (filter_false rows)). }
  intros updater Hu. unfold update.
  rewrite (bind_ok _ _ _ _ _ (exists_table_run st d t Hd)).
  rewrite (dict_mem_get d t _ Ht). cbn [negb].
  rewrite (lift_ok _ _ _ _ Hb).
  destruct updater as [u|f|]; [| |congruence].
  - rewrite (bind_ok _ _ _ _ _ (get_table_run st d t _ Hd Ht)).
    erewrite lift_ok by reflexivity.
    now rewrite (bind_ok _ _ _ _ _ (update_loop_none cond _ t rows Hp 0 0 st)%nat).
  - rewrite (bind_ok _ _ _ _ _ (get_table_run st d t _ Hd Ht)).
    erewrite lift_ok by reflexivity.
    now rewrite (bind_ok _ _ _ _ _ (update_loop_none cond _ t rows Hp 0 0 st)%nat).
Qed.

(** X18.  [update] and [delete] need a filter: given [None], or anything
    that is neither a dictionary nor a callable, they raise a query error
    and leave the instance as it was, where [select] takes [None] for no
    filter.  [update] then checks the updater in the same way. *)
Theorem update_delete_need_filter (st : State) (d : dict) (t : string)
    (rows : list value) (filters : filter_arg) :
  _data st = VDict d ->
  dict_get d t = Some (VList rows) ->
  (filters = FNone \/ filters = FOther ->
   (forall updater,
      update t filters updater st
        = (Raise (QueryError "Filters must be dict or callable"), st)) /\
   delete t filters st
     = (Raise (QueryError "Filters must be dict or callable"), st)) /\
  ((exists cond, build_condition filters = Ok cond) ->
   update t filters UOther st
     = (Raise (QueryError "Updater must be dict or callable"), st)).
Proof.
  intros Hd Ht. split.
  - intros Hf.
    assert (Hb : build_condition filters
                 = Raise (QueryError "Filters must be dict or callable"))
      by (destruct Hf as [-> | ->]; reflexivity).
    split.
    + intros updater. unfold update.
      rewrite (bind_ok _ _ _ _ _ (exists_table_run st d t Hd)).
      rewrite (dict_mem_get d t _ Ht). cbn [negb].
      now rewrite (lift_raise _ _ _ _ Hb).
    + unfold delete.
      rewrite (bind_ok _ _ _ _ _ (exists_table_run st d t Hd)).
      rewrite (dict_mem_get d t _ Ht). cbn [negb].
      rewrite (bind_ok _ _ _ _ _ (get_table_run st d t _ Hd Ht)).
      erewrite lift_ok by reflexivity.
      now rewrite (lift_raise _ _ _ _ Hb).
  - intros [cond Hb]. unfold update.
    rewrite (bind_ok _ _ _ _ _ (exists_table_run st d t Hd)).
    rewrite (dict_mem_get d t _ Ht). cbn [negb].
    now rewrite (lift_ok _ _ _ _ Hb).
Qed.

End UpdateFacts.

Section ClearFacts.
Context `{PyRuntime}.

(** X19.  [clear_table] returns the number of rows the table had and
    leaves it without rows; the name stays a table of the store, the
    other tables and the list of tables stay as they were, and the file
    is written, also when the table had no rows. *)
Theorem clear_table_empties (st : State) (d meta : dict) (t : string)
    (rows : list value) :
  _data st = VDict d ->
  dict_get d "_meta" = Some (VDict meta) ->
  dict_get d t = Some (VList rows) ->
  exists st',
    clear_table t st = (Ok (length rows), st') /\
    py_getitem (_data st') t = Ok (VList []) /\
    exists_table t st' = (Ok true, st') /\
    (forall k, k <> t -> k <> "_meta" ->
       py_getitem (_data st') k = py_getitem (_data st) k) /\
    list_tables_of (_data st') = list_tables_of (_data st) /\
    files st' !! path_str (db_path st)
      = Some (json_dumps (VDict (dict_set d t (VList [])))).
Proof.
  intros Hd Hm Ht.
  pose proof (table_not_meta d meta t rows Hm Ht) as Hne.
  destruct (write_after_set st d meta t (VList []) Hd Hm Hne)
    as (st' & Hw & Hrows & Hother & Htables & Hfile & _ & _ & _ & _
        & d' & Hd' & Ht' & _).
  exists st'. split; [|split; [exact Hrows|split]].
  - unfold clear_table.
    rewrite (bind_ok _ _ _ _ _ (exists_table_run st d t Hd)).
    rewrite (dict_mem_get d t _ Ht). cbn [negb].
    rewrite (bind_ok _ _ _ _ _ (get_table_run st d t _ Hd Ht)).
    erewrite lift_ok by reflexivity.
    rewrite (bind_ok _ _ _ _ _ (set_table_run st d t _ Hd)).
    now rewrite (bind_ok _ _ _ _ _ Hw).
  - rewrite (exists_table_run st' d' t Hd').
    now rewrite (dict_mem_get d' t _ Ht').
  - repeat split; assumption.
Qed.

End ClearFacts.

(** ** [create_table] and [drop_table] *)

Section TableLifeFacts.
Context `{PyRuntime}.

(** Sorting names returns the same names in ascending order. *)
Lemma sorted_names_ascending (names : list string) :
  exists names',
    py_sorted Ok false (VList (map VStr names)) = Ok (map VStr names') /\
    Permutation names names' /\
    ascending (map VStr names').
Proof.
  destruct (py_sorted_total Ok (fun x => x) (fun k => exists s, k = VStr s)
              false (map VStr names)) as [out Hout].
  - intros a b [s ->] [u ->]. cbn. eauto.
  - apply Forall_forall. reflexivity.
  - apply Forall_forall. intros x Hx. apply in_map_iff in Hx as (s & <- & _).
    eauto.
  - destruct (py_sorted_spec Ok (fun x => x) false _ _
                ltac:(apply Forall_forall; reflexivity) Hout) as [Hperm Hasc].
    rewrite map_id in Hasc.
    apply Permutation_sym, Permutation_map_inv in Hperm
      as (names' & -> & Hperm').
    exists names'. split; [exact Hout|]. split; [now symmetry | exact Hasc].
Qed.

Lemma create_table_run (st : State) (d meta : dict) (names : list string)
    (t : string) :
  _data st = VDict d ->
  dict_get d "_meta" = Some (VDict meta) ->
  dict_get meta "tables" = Some (VList (map VStr names)) ->
  dict_get d t = None ->
  str_startswith t "_" = false ->
  exists st' names' d',
    create_table t st = (Ok tt, st') /\
    Permutation (names ++ [t]) names' /\
    ascending (map VStr names') /\
    _data st' = VDict d' /\
    dict_get d' t = Some (VList []) /\
    (exists meta', dict_get d' "_meta" = Some (VDict meta') /\
                   dict_get meta' "tables" = Some (VList (map VStr names'))) /\
    (forall k, k <> t -> k <> "_meta" -> dict_get d' k = dict_get d k) /\
    (exists data', files st' !! path_str (db_path st) = Some (json_dumps data')
                   /\ py_getitem data' t = Ok (VList [])).
Proof.
  intros Hd Hm Ht Hnew Hunder.
  assert (Hmem : dict_mem d t = false) by (unfold dict_mem; now rewrite Hnew).
  assert (Hne : t <> "_meta") by (intros ->; congruence).
  set (d1 := dict_set d t (VList [])).
  set (st1 := with_data (VDict d1) st).
  assert (Hm1 : dict_get d1 "_meta" = Some (VDict meta))
    by (unfold d1; rewrite dict_get_set_ne by exact Hne; exact Hm).
  set (meta2 := dict_set meta "tables" (VList (map VStr names ++ [VStr t]))).
  set (d2 := dict_set d1 "_meta" (VDict meta2)).
  set (st2 := with_data (VDict d2) st1).
  assert (Hm2 : dict_get d2 "_meta" = Some (VDict meta2))
    by apply dict_get_set_eq.
  assert (Ht2 : dict_get meta2 "tables"
                = Some (VList (map VStr (names ++ [t])))).
  { unfold meta2. rewrite dict_get_set_eq, map_app. reflexivity. }
  destruct (sorted_names_ascending (names ++ [t]))
    as (names' & Hsorted & Hperm & Hasc).
  set (meta3 := dict_set meta2 "tables" (VList (map VStr names'))).
  set (d3 := dict_set d2 "_meta" (VDict meta3)).
  set (st3 := with_data (VDict d3) st2).
  assert (Hm3 : dict_get d3 "_meta" = Some (VDict meta3))
    by apply dict_get_set_eq.
  destruct (_write_db_ok st3 d3 meta3 eq_refl Hm3)
    as (st' & Hw & Hfile & Hdata & _).
  exists st', names'. eexists.
  split.
  { unfold create_table.
    rewrite (bind_ok _ _ _ _ _ (exists_table_run st d t Hd)).
    rewrite Hmem, Hunder.
    rewrite (bind_ok _ _ _ _ _ (set_table_run st d t (VList []) Hd)).
    fold d1 st1.
    rewrite (bind_ok _ _ _ _ _ (meta_tables_run st1 d1 meta _ eq_refl Hm1 Ht)).
    erewrite lift_ok by reflexivity.
    rewrite (bind_ok _ _ _ _ _
               (set_meta_run st1 d1 meta "tables" _ eq_refl Hm1)).
    fold meta2 d2 st2.
    rewrite (bind_ok _ _ _ _ _
               (meta_tables_run st2 d2 meta2 _ eq_refl Hm2 Ht2)).
    rewrite (lift_ok _ _ _ _ Hsorted).
    rewrite (bind_ok _ _ _ _ _
               (set_meta_run st2 d2 meta2 "tables" _ eq_refl Hm2)).
    fold meta3 d3 st3. exact Hw. }
  split; [exact Hperm|]. split; [exact Hasc|]. split; [exact Hdata|].
  split.
  { rewrite dict_get_set_ne by congruence. unfold d3, d2.
    rewrite !dict_get_set_ne by congruence. apply dict_get_set_eq. }
  split.
  { eexists. split; [apply dict_get_set_eq|].
    rewrite dict_get_set_ne by discriminate. apply dict_get_set_eq. }
  split.
  { intros k Hk Hk'. rewrite dict_get_set_ne by congruence. unfold d3, d2, d1.
    rewrite !dict_get_set_ne by congruence. reflexivity. }
  exists (VDict d3). split; [exact Hfile|].
  cbn [py_getitem]. unfold d3, d2.
  rewrite !dict_get_set_ne by congruence. unfold d1.
  now rewrite dict_get_set_eq.
Qed.

(** X20.  [create_table] with a name that is no key of the store and
    does not start with an underscore adds a table without rows and
    lists the name: afterwards the list of tables holds the names it had
    and the new one, in ascending order whatever order it had; the other
    tables stay as they were and the file holds the new table. *)
Theorem create_table_adds (st : State) (d meta : dict) (names : list string)
    (t : string) :
  _data st = VDict d ->
  dict_get d "_meta" = Some (VDict meta) ->
  dict_get meta "tables" = Some (VList (map VStr names)) ->
  dict_get d t = None ->
  str_startswith t "_" = false ->
  exists st' names',
    create_table t st = (Ok tt, st') /\
    py_getitem (_data st') t = Ok (VList []) /\
    exists_table t st' = (Ok true, st') /\
    list_tables st' = (Ok (VList (map VStr names')), st') /\
    Permutation (names ++ [t]) names' /\
    ascending (map VStr names') /\
    (forall k, k <> t -> k <> "_meta" ->
       py_getitem (_data st') k = py_getitem (_data st) k) /\
    exists data',
      files st' !! path_str (db_path st) = Some (json_dumps data') /\
      py_getitem data' t = Ok (VList []).
Proof.
  intros Hd Hm Ht Hnew Hunder.
  destruct (create_table_run st d meta names t Hd Hm Ht Hnew Hunder)
    as (st' & names' & d' & Hc & Hperm & Hasc & Hd' & Ht' & (meta' & Hm' & Hl')
        & Hother & Hfile).
  exists st', names'. split; [exact Hc|].
  split; [rewrite Hd'; cbn [py_getitem]; now rewrite Ht'|].
  split.
  { rewrite (exists_table_run st' d' t Hd').
    now rewrite (dict_mem_get d' t _ Ht'). }
  split; [exact (list_tables_names st' d' meta' names' Hd' Hm' Hl')|].
  split; [exact Hperm|]. split; [exact Hasc|].
  split; [|exact Hfile].
  intros k Hk Hk'. rewrite Hd', Hd. cbn [py_getitem].
  now rewrite (Hother k Hk Hk').
Qed.

(** X21.  [create_table] refuses a name that is a key of the store with
    the error of a table that exists, and otherwise a name that starts
    with an underscore with a query error; the instance is left as it
    was.  The first test comes first: ["_meta"] is refused as a table
    that exists. *)
Theorem create_table_refuses (st : State) (d : dict) (t : string) :
  _data st = VDict d ->
  (dict_mem d t = true ->
   exists msg,
     create_table t st = (Raise (TableExistsError msg), st) /\
     str_contains ("'" +:+ t +:+ "' already exists") msg = true) /\
  (dict_mem d t = false -> str_startswith t "_" = true ->
   create_table t st =
   (Raise (QueryError
             "Table names cannot start with underscore (reserved for internal use)"),
    st)).
Proof.
  intros Hd. split.
  - intros Hmem. eexists. split.
    + unfold create_table.
      rewrite (bind_ok _ _ _ _ _ (exists_table_run st d t Hd)).
      rewrite Hmem. reflexivity.
    + replace ("Table '" +:+ t +:+ "' already exists. " +:+
               "Use drop_table() first or choose a different name.")
        with ("Table " +:+ ("'" +:+ t +:+ "' already exists") +:+
              ". Use drop_table() first or choose a different name.")
        by (rewrite !append_assoc; reflexivity).
      apply str_contains_middle.
  - intros Hmem Hunder. unfold create_table.
    rewrite (bind_ok _ _ _ _ _ (exists_table_run st d t Hd)).
    rewrite Hmem, Hunder. reflexivity.
Qed.

(** X22.  On a store that meets the invariant, [drop_table] of a table
    removes its key from the store and its name from the list of tables,
    which keeps the other names in their order; the other tables stay as
    they were and the file is written without the table. *)
Theorem drop_table_removes (st : State) (t : string) (rows : list value) :
  store_invariant (_data st) ->
  py_getitem (_data st) t = Ok (VList rows) ->
  exists st' names names' data',
    drop_table t st = (Ok tt, st') /\
    exists_table t st' = (Ok false, st') /\
    list_tables st = (Ok (VList (map VStr names)), st) /\
    list_tables st' = (Ok (VList (map VStr names')), st') /\
    (forall k, In k names' <-> k <> t /\ In k names) /\
    remove_first (VStr t) (map VStr names) = Some (map VStr names') /\
    (forall k, k <> t -> k <> "_meta" ->
       py_getitem (_data st') k = py_getitem (_data st) k) /\
    files st' !! path_str (db_path st) = Some (json_dumps data') /\
    py_in (VStr t) data' = Ok false.
Proof.
  intros (d & meta & names & Hd & Hnd & Hm & Ht & Hnames & Hiff & Hpre) Hrows.
  rewrite Hd in Hrows. cbn [py_getitem] in Hrows.
  destruct (dict_get d t) as [table|] eqn:Htable; [|discriminate].
  injection Hrows as ->.
  assert (Hne : t <> "_meta") by (intros ->; congruence).
  assert (Hmem : dict_mem d t = true) by exact (dict_mem_get d t _ Htable).
  assert (Hin : In t names) by (apply Hiff; split; assumption).
  destruct (remove_first_names t names Hin) as (names' & Hrm & Hspec).
  destruct (Hspec Hnames) as [_ Hiff'].
  set (d1 := dict_del d t).
  set (st1 := with_data (VDict d1) st).
  destruct (dict_keys_del d t Hnd) as [_ Hmem1].
  assert (Hm1 : dict_get d1 "_meta" = Some (VDict meta))
    by (unfold d1; rewrite dict_get_del by congruence; exact Hm).
  set (meta2 := dict_set meta "tables" (VList (map VStr names'))).
  set (d2 := dict_set d1 "_meta" (VDict meta2)).
  set (st2 := with_data (VDict d2) st1).
  assert (Hm2 : dict_get d2 "_meta" = Some (VDict meta2))
    by apply dict_get_set_eq.
  destruct (_write_db_ok st2 d2 meta2 eq_refl Hm2)
    as (st' & Hw & Hfile & Hdata & _).
  assert (Hgone : forall m, dict_mem (dict_set d2 "_meta" m) t = false).
  { intros m. rewrite dict_mem_set. unfold d2. rewrite dict_mem_set.
    unfold d1. rewrite Hmem1, String.eqb_refl.
    destruct (String.eqb_spec "_meta" t); [congruence|reflexivity]. }
  exists st', names, names', (VDict d2).
  split.
  { unfold drop_table. unfold bind at 1. unfold get_data at 1.
    rewrite (bind_ok _ _ _ _ _ (exists_table_run st d t Hd)).
    rewrite Hmem. cbn [negb].
    rewrite (bind_ok _ _ _ _ _ (get_table_run st d t _ Hd Htable)).
    erewrite lift_ok by reflexivity.
    erewrite lift_ok by (rewrite Hd; cbn [py_delitem]; rewrite Hmem;
                         reflexivity).
    unfold bind at 1. unfold set_data at 1. fold d1 st1.
    rewrite (bind_ok _ _ _ _ _ (meta_tables_run st1 d1 meta _ eq_refl Hm1 Ht)).
    erewrite lift_ok by (cbn [py_remove]; rewrite Hrm; reflexivity).
    rewrite (bind_ok _ _ _ _ _
               (set_meta_run st1 d1 meta "tables" _ eq_refl Hm1)).
    fold meta2 d2 st2. exact Hw. }
  split.
  { rewrite (exists_table_run st' _ t Hdata). now rewrite Hgone. }
  split; [exact (list_tables_names st d meta names Hd Hm Ht)|].
  split.
  { apply (list_tables_names st' _ _ names' Hdata (dict_get_set_eq _ _ _)).
    rewrite dict_get_set_ne by discriminate. apply dict_get_set_eq. }
  split; [exact Hiff'|]. split; [exact Hrm|].
  split.
  { intros k Hk Hk'. rewrite Hdata, Hd. cbn [py_getitem].
    rewrite dict_get_set_ne by congruence. unfold d2.
    rewrite dict_get_set_ne by congruence. unfold d1.
    now rewrite dict_get_del by congruence. }
  split; [exact Hfile|].
  cbn [py_in]. unfold d2. rewrite dict_mem_set. unfold d1.
  rewrite Hmem1, String.eqb_refl.
  destruct (String.eqb_spec "_meta" t); [congruence|reflexivity].
Qed.

End TableLifeFacts.

(** ** The files *)

Section FileFacts.
Context `{PyRuntime}.

Lemma backup_path_other (p : Path) :
  path_suffix p <> ".backup" ->
  path_str (with_suffix p ".backup") <> path_str p.
Proof.
  unfold path_str, with_suffix. cbn. intros Hs Heq.
  apply String.app_inj in Heq. congruence.
Qed.

Lemma tmp_path_not_backup (p : Path) :
  path_str (with_suffix p (path_suffix p +:+ ".tmp"))
  <> path_str (with_suffix p ".backup").
Proof.
  unfold path_str, with_suffix. cbn. intros Heq.
  apply String.app_inj in Heq.
  pose proof (f_equal String.length Heq) as Hlen.
  rewrite length_append in Hlen. cbn in Hlen.
  destruct (path_suffix p) as [|c1 [|c2 [|c3 [|c4 s]]]]; cbn in Hlen;
    try lia.
  rewrite !append_cons in Heq. discriminate Heq.
Qed.

(** The files that a durable write leaves. *)
Lemma _write_db_files (st : State) (d meta : dict) :
  _data st = VDict d ->
  dict_get d "_meta" = Some (VDict meta) ->
  let p := db_path st in
  let tmp := path_str (with_suffix p (path_suffix p +:+ ".tmp")) in
  let doc := json_dumps (_data st) in
  exists st',
    _write_db st = (Ok tt, st') /\
    files st' =
      <[path_str p := doc]>
        (base.delete tmp
           (<[tmp := doc]>
              (match files st !! path_str p with
               | Some old =>
                   if backup st
                   then <[path_str (with_suffix p ".backup") := old]>
                          (base.delete (path_str p) (files st))
                   else files st
               | None => files st
               end))).
Proof.
  intros Hd Hm p tmp doc. subst p tmp doc.
  cbv [_write_db bind get path_exists ret get_data file_write file_replace
       now set_meta lift set_files set_data raise
       db_path backup _data files clock ticks with_files with_data with_ticks].
  destruct st as [dbp bk data fs clk tk]. cbn in Hd. subst data.
  destruct (fs !! path_str dbp) as [old|] eqn:Hold.
  - rewrite bool_decide_eq_true_2 by eauto. destruct bk; cbn [andb].
    + rewrite Hold. rewrite lookup_insert_eq.
      cbn [py_getitem]. rewrite Hm. cbn [py_setitem].
      eexists. split; reflexivity.
    + rewrite lookup_insert_eq. cbn [py_getitem]. rewrite Hm.
      cbn [py_setitem]. eexists. split; reflexivity.
  - rewrite bool_decide_eq_false_2 by (intros [? ?]; discriminate).
    rewrite andb_false_r. rewrite lookup_insert_eq.
    cbn [py_getitem]. rewrite Hm. cbn [py_setitem].
    eexists. split; reflexivity.
Qed.

(** X23.  With backups on, a durable write over an existing database
    file keeps the previous content of the file as the [.backup] file
    beside it, puts the store in the database file, and leaves no
    [.tmp] file. *)
Theorem write_keeps_backup (st : State) (d meta : dict) (old : document) :
  _data st = VDict d ->
  dict_get d "_meta" = Some (VDict meta) ->
  backup st = true ->
  files st !! path_str (db_path st) = Some old ->
  path_suffix (db_path st) <> ".backup" ->
  let p := db_path st in
  exists st',
    _write_db st = (Ok tt, st') /\
    files st' !! path_str (with_suffix p ".backup") = Some old /\
    files st' !! path_str p = Some (json_dumps (_data st)) /\
    files st' !! path_str (with_suffix p (path_suffix p +:+ ".tmp")) = None.
Proof.
  intros Hd Hm Hb Hold Hsuffix p. subst p.
  destruct (_write_db_files st d meta Hd Hm) as (st' & Hw & Hfiles).
  cbv zeta in Hfiles. rewrite Hold, Hb in Hfiles.
  pose proof (tmp_path_fresh (db_path st)) as Htmp.
  pose proof (backup_path_other (db_path st) Hsuffix) as Hbak.
  pose proof (tmp_path_not_backup (db_path st)) as Htb.
  exists st'. split; [exact Hw|]. rewrite Hfiles.
  split; [|split].
  - rewrite lookup_insert_ne by congruence.
    rewrite lookup_delete_ne by congruence.
    rewrite lookup_insert_ne by congruence.
    apply lookup_insert_eq.
  - apply lookup_insert_eq.
  - rewrite lookup_insert_ne by congruence. apply lookup_delete_eq.
Qed.

(** X24.  A durable write touches the database file, its [.tmp] file
    and, with backups on, its [.backup] file, and no other file; with
    backups off the [.backup] file too is left as it is. *)
Theorem write_touches_only_its_files (st : State) (d meta : dict) :
  _data st = VDict d ->
  dict_get d "_meta" = Some (VDict meta) ->
  let p := db_path st in
  exists st',
    _write_db st = (Ok tt, st') /\
    forall k,
      k <> path_str p ->
      k <> path_str (with_suffix p (path_suffix p +:+ ".tmp")) ->
      (backup st = true -> k <> path_str (with_suffix p ".backup")) ->
      files st' !! k = files st !! k.
Proof.
  intros Hd Hm p. subst p.
  destruct (_write_db_files st d meta Hd Hm) as (st' & Hw & Hfiles).
  cbv zeta in Hfiles.
  exists st'. split; [exact Hw|]. intros k Hk Htmp Hbak. rewrite Hfiles.
  rewrite lookup_insert_ne by congruence.
  rewrite lookup_delete_ne by congruence.
  rewrite lookup_insert_ne by congruence.
  destruct (files st !! path_str (db_path st)) as [old|]; [|reflexivity].
  destruct (backup st); [|reflexivity].
  rewrite lookup_insert_ne by (specialize (Hbak eq_refl); congruence).
  now rewrite lookup_delete_ne by congruence.
Qed.

(** X25.  Opening a path whose file cannot be loaded raises, and the
    files are left as they are.  For a file that is UTF-8 text but not
    JSON the exception is the error of CafeDB for a corrupted file.  For
    a file that is not UTF-8 text it is the [UnicodeDecodeError] of the
    read, which [_read_db] does not catch: no error of CafeDB. *)
Theorem open_corrupted_file (path : Path) (backup_ : bool)
    (files_ : gmap string document) (clock_ : nat -> string) (ticks_ : nat)
    (doc : document) :
  files_ !! path_str path = Some doc ->
  json_loads doc = None ->
  exists e w,
    __init__ path backup_ files_ clock_ ticks_ = (Raise e, w) /\
    files w = files_ /\
    (is_utf8 doc = true ->
     exists msg, e = CafeDBError msg /\
                 str_startswith msg "Corrupted database file" = true) /\
    (is_utf8 doc = false -> e = UnicodeDecodeError).
Proof.
  intros Hf Hj.
  assert (Hinit : __init__ path backup_ files_ clock_ ticks_ =
            ((if is_utf8 doc then Raise (CafeDBError "Corrupted database file")
              else Raise UnicodeDecodeError),
             {| db_path := path; backup := backup_; _data := VNull;
                files := files_; clock := clock_; ticks := ticks_ |})).
  { cbv [__init__ bind get path_exists ret _read_db set_data ensure_meta
         get_data lift raise
         db_path backup _data files clock ticks with_files with_data
         with_ticks].
    rewrite Hf. rewrite bool_decide_eq_true_2 by eauto. cbv iota beta.
    rewrite Hf. cbv iota beta. rewrite Hj.
    destruct (is_utf8 doc); reflexivity. }
  destruct (is_utf8 doc) eqn:Hutf.
  - eexists _, _. split; [exact Hinit|]. split; [reflexivity|].
    split; [|discriminate]. intros _. eexists. split; reflexivity.
  - eexists _, _. split; [exact Hinit|]. split; [reflexivity|].
    split; [discriminate|]. reflexivity.
Qed.

(** X26.  Opening a file that holds a store without the key ["_meta"]
    gives the store of the file with new metadata that lists no table:
    the tables of the file stay keys of the store, and the file is not
    written. *)
Theorem open_without_meta (path : Path) (backup_ : bool)
    (files_ : gmap string document) (clock_ : nat -> string) (ticks_ : nat)
    (doc : document) (d : dict) :
  files_ !! path_str path = Some doc ->
  json_loads doc = Some (VDict d) ->
  dict_mem d "_meta" = false ->
  exists st,
    __init__ path backup_ files_ clock_ ticks_ = (Ok st, st) /\
    files st = files_ /\
    list_tables st = (Ok (VList []), st) /\
    py_getitem (_data st) "_meta" = Ok (fresh_meta (clock_ ticks_)) /\
    (forall k, k <> "_meta" ->
       py_getitem (_data st) k = py_getitem (VDict d) k /\
       exists_table k st = (Ok (dict_mem d k), st)).
Proof.
  intros Hf Hj Hmem. eexists. split; [|split; [|split; [|split]]].
  - cbv [__init__ bind get path_exists ret _read_db set_data ensure_meta
         get_data lift raise now
         db_path backup _data files clock ticks with_files with_data
         with_ticks].
    rewrite Hf. rewrite bool_decide_eq_true_2 by eauto. cbv iota beta.
    rewrite Hf. cbv iota beta. rewrite Hj. cbn [py_in]. rewrite Hmem.
    cbn [negb py_setitem]. reflexivity.
  - reflexivity.
  - cbv [list_tables bind get_data lift list_tables_of _data].
    cbn [py_getitem]. rewrite dict_get_set_eq. reflexivity.
  - cbn [_data py_getitem]. now rewrite dict_get_set_eq.
  - intros k Hk. split.
    + cbn [_data py_getitem]. now rewrite dict_get_set_ne by congruence.
    + cbv [exists_table bind get_data lift _data]. cbn [py_in].
      rewrite dict_mem_set.
      destruct (String.eqb_spec "_meta" k); [congruence|reflexivity].
Qed.

End FileFacts.

(** ** A transaction that fails after a write *)

Section RollbackFacts.
Context `{PyRuntime}.

(** X27.  The rollback of a transaction restores the store in memory
    only.  When the body inserts a row and then raises, the transaction
    raises the same exception and the store in memory is as on entry,
    but the file holds the store with the row: [insert] has written it
    and the rollback writes nothing. *)
Theorem rollback_leaves_file {A} (st : State) (d meta r : dict) (t : string)
    (rows : list value) (e : exn) :
  _data st = VDict d ->
  dict_get d "_meta" = Some (VDict meta) ->
  dict_get d t = Some (VList rows) ->
  json_loads (json_dumps (_data st)) = Some (_data st) ->
  exists st2 data',
    transaction (A := A) (insert t (VDict r) ;;; raise e)%M st
      = (Raise e, st2) /\
    _data st2 = _data st /\
    py_getitem (_data st2) t = Ok (VList rows) /\
    files st2 !! path_str (db_path st) = Some (json_dumps data') /\
    py_getitem data' t
      = Ok (VList (rows ++ [stamped "_inserted_at" (clock st (ticks st)) r])).
Proof.
  intros Hd Hm Ht Hj.
  destruct (insert_run st d meta r t rows Hd Hm Ht)
    as (st' & Hi & _ & _ & _ & Hfile).
  exists (with_data (_data st) st'). eexists.
  split; [|split; [reflexivity|split; [|split; [exact Hfile|]]]].
  - cbv [transaction]. unfold bind at 1. unfold get_data at 1. rewrite Hj.
    unfold bind at 1. unfold bind at 1. rewrite Hi. reflexivity.
  - cbn [_data with_data]. rewrite Hd. cbn [py_getitem]. now rewrite Ht.
  - cbn [py_getitem]. now rewrite dict_get_set_eq.
Qed.

End RollbackFacts.

(** ** [info] *)

Section InfoFacts.
Context `{PyRuntime}.

Lemma tables_info_loop_run (d : dict) (names : list string) :
  forall (counts : list nat) (acc : dict),
    Forall2 (fun name n =>
               exists rows, dict_get d name = Some (VList rows) /\
                            n = length rows) names counts ->
    NoDup names ->
    (forall name, In name names -> ~ In name (dict_keys acc)) ->
    tables_info_loop (VDict d) (map VStr names) acc
    = Ok (acc ++ map row_count_entry (combine names counts)).
Proof.
  induction names as [|name names IH]; intros counts acc Hall Hnd Hfresh.
  - inversion Hall; subst. cbn. now rewrite List.app_nil_r.
  - inversion Hall as [|? n ? counts' (rows & Hrows & ->) Hall']; subst.
    inversion Hnd as [|? ? Hnotin Hnd']; subst.
    cbn [map tables_info_loop table_rows py_getitem]. rewrite Hrows.
    cbn [res_bind py_len].
    rewrite (JsonFacts.dict_set_fresh acc name _
               (Hfresh name (or_introl eq_refl))).
    rewrite (IH counts' _ Hall' Hnd').
    + cbn [combine map]. rewrite <- List.app_assoc. reflexivity.
    + intros k Hk. unfold dict_keys. rewrite map_app, in_app_iff.
      intros [Hin|[<-|[]]]; [|contradiction].
      exact (Hfresh k (or_intror Hk) Hin).
Qed.

Lemma sum_rows_run (d : dict) (names : list string) :
  forall (counts : list nat) (acc : Z),
    Forall2 (fun name n =>
               exists rows, dict_get d name = Some (VList rows) /\
                            n = length rows) names counts ->
    sum_rows (VDict d) (map VStr names) acc
    = Ok (acc + Z.of_nat (list_sum counts)).
Proof.
  induction names as [|name names IH]; intros counts acc Hall.
  - inversion Hall; subst. cbn. now rewrite Z.add_0_r.
  - inversion Hall as [|? n ? counts' (rows & Hrows & ->) Hall']; subst.
    cbn [map sum_rows table_rows py_getitem]. rewrite Hrows.
    cbn [res_bind py_len]. rewrite (IH counts' _ Hall').
    rewrite JsonFacts.list_sum_cons. f_equal. lia.
Qed.

(** X28.  On a store whose metadata lists its tables once each, every
    one of them a list of rows, [info] returns and changes nothing.  Its
    report gives the path, the three fields of the metadata ([None] for
    one that is missing), for every table its number of rows, the number
    of tables and, as the total, the sum of the numbers of rows. *)
Theorem info_reports_counts (st : State) (d meta : dict)
    (names : list string) (counts : list nat) :
  _data st = VDict d ->
  dict_get d "_meta" = Some (VDict meta) ->
  dict_get meta "tables" = Some (VList (map VStr names)) ->
  NoDup names ->
  Forall2 (fun name n =>
             exists rows, dict_get d name = Some (VList rows) /\
                          n = length rows) names counts ->
  info st =
  (Ok (VDict [("path", VStr (path_str (db_path st)));
              ("created", field_or_null meta "created");
              ("last_modified", field_or_null meta "last_modified");
              ("version", field_or_null meta "version");
              ("tables",
               VDict (map row_count_entry (combine names counts)));
              ("table_count", VInt (Z.of_nat (length names)));
              ("total_rows", VInt (Z.of_nat (list_sum counts)))]),
   st).
Proof.
  intros Hd Hm Ht Hnd Hall.
  assert (Hlist : list_tables_of (VDict d) = Ok (VList (map VStr names))).
  { unfold list_tables_of. cbn [py_getitem]. rewrite Hm.
    cbn [res_bind py_getitem]. rewrite Ht. reflexivity. }
  assert (Hget : forall k,
            py_get (VDict meta) k VNull = Ok (field_or_null meta k)).
  { intros k. unfold py_get, field_or_null.
    destruct (dict_get meta k); reflexivity. }
  unfold info. unfold bind at 1. unfold get at 1. rewrite Hd.
  rewrite (lift_ok _ _ _ _ Hlist).
  erewrite lift_ok by reflexivity.
  rewrite (lift_ok _ _ _ _
             (tables_info_loop_run d names counts [] Hall Hnd
                (fun _ _ Hin => Hin))).
  erewrite lift_ok by (cbn [py_getitem]; rewrite Hm; reflexivity).
  rewrite (lift_ok _ _ _ _ (Hget "created")).
  erewrite lift_ok by (cbn [py_getitem]; rewrite Hm; reflexivity).
  rewrite (lift_ok _ _ _ _ (Hget "last_modified")).
  erewrite lift_ok by (cbn [py_getitem]; rewrite Hm; reflexivity).
  rewrite (lift_ok _ _ _ _ (Hget "version")).
  rewrite (lift_ok _ _ _ _ Hlist).
  erewrite lift_ok by reflexivity.
  rewrite (lift_ok _ _ _ _ Hlist).
  erewrite lift_ok by reflexivity.
  rewrite (lift_ok _ _ _ _ (sum_rows_run d names counts 0 Hall)).
  cbn [py_len app]. rewrite length_map, Z.add_0_l. reflexivity.
Qed.

End InfoFacts.

(** ** The gradebook script *)

Section UsageFacts.
Context `{PyRuntime}.

(** X29.  [setup_database] of the gradebook script guards
    [create_table] with [except ValueError], which the error of a table
    that exists is not: on a store that has the table [students] it
    raises that error, leaves the instance as it was and does not reach
    the table [grades]. *)
Theorem setup_database_again_raises (st : State) (d : dict) :
  _data st = VDict d ->
  dict_mem d "students" = true ->
  exists msg,
    setup_database st = (Raise (TableExistsError msg), st).
Proof.
  intros Hd Hmem. eexists. unfold setup_database.
  unfold bind at 1. unfold except_ValueError_pass at 1.
  unfold create_table at 1.
  rewrite (bind_ok _ _ _ _ _ (exists_table_run st d "students" Hd)).
  rewrite Hmem. reflexivity.
Qed.

(** X30.  On a store that has neither table, [setup_database] creates
    [students] and [grades] without rows; the list of tables then holds
    the names it had and the two, in ascending order. *)
Theorem setup_database_creates (st : State) (d meta : dict)
    (names : list string) :
  _data st = VDict d ->
  dict_get d "_meta" = Some (VDict meta) ->
  dict_get meta "tables" = Some (VList (map VStr names)) ->
  dict_get d "students" = None ->
  dict_get d "grades" = None ->
  exists st' names',
    setup_database st = (Ok tt, st') /\
    py_getitem (_data st') "students" = Ok (VList []) /\
    py_getitem (_data st') "grades" = Ok (VList []) /\
    list_tables st' = (Ok (VList (map VStr names')), st') /\
    Permutation (names ++ ["students"; "grades"]) names' /\
    ascending (map VStr names').
Proof.
  intros Hd Hm Ht Hs Hg.
  destruct (create_table_run st d meta names "students" Hd Hm Ht Hs eq_refl)
    as (st1 & names1 & d1 & Hc1 & Hperm1 & _ & Hd1 & Hs1 & (meta1 & Hm1 & Hl1)
        & Hother1 & _).
  assert (Hg1 : dict_get d1 "grades" = None)
    by (rewrite Hother1 by discriminate; exact Hg).
  destruct (create_table_run st1 d1 meta1 names1 "grades" Hd1 Hm1 Hl1 Hg1
              eq_refl)
    as (st2 & names2 & d2 & Hc2 & Hperm2 & Hasc2 & Hd2 & Hg2
        & (meta2 & Hm2 & Hl2) & Hother2 & _).
  exists st2, names2. split; [|split; [|split; [|split; [|split]]]].
  - unfold setup_database. unfold bind at 1.
    unfold except_ValueError_pass at 1. rewrite Hc1.
    unfold except_ValueError_pass. rewrite Hc2. reflexivity.
  - rewrite Hd2. cbn [py_getitem].
    rewrite Hother2 by discriminate. now rewrite Hs1.
  - rewrite Hd2. cbn [py_getitem]. now rewrite Hg2.
  - exact (list_tables_names st2 d2 meta2 names2 Hd2 Hm2 Hl2).
  - rewrite <- Hperm2.
    change (names ++ ["students"; "grades"])
      with (names ++ ["students"] ++ ["grades"]).
    rewrite List.app_assoc. now apply Permutation_app_tail.
  - exact Hasc2.
Qed.

End UsageFacts.

(** ** The properties on the example store *)

Lemma insert_appends_witness :
  exists st',
    insert "users" (VDict [("name", VStr "Carol")]) Example.store
      = (Ok tt, st') /\
    py_getitem (_data st') "users"
      = Ok (VList [Example.alice; Example.bob;
                   VDict [("name", VStr "Carol");
                          ("_inserted_at", VStr "T1")]]).
Proof.
  destruct (insert_appends Example.store _ _ [("name", VStr "Carol")]
              "users" _ eq_refl eq_refl eq_refl)
    as (st' & data' & Hi & Hrows & _).
  exists st'. split; [exact Hi | exact Hrows].
Defined.

Lemma insert_checks_witness :
  insert "orders" (VInt 3) Example.store
    = (Raise (not_found_create_first "orders"), Example.store) /\
  insert "users" (VInt 3) Example.store
    = (Raise (QueryError "Row must be a dictionary, got int"), Example.store).
Proof.
  split.
  - destruct (insert_checks Example.store _ "orders" (VInt 3) eq_refl)
      as [Hmissing _].
    exact (proj1 (Hmissing eq_refl)).
  - destruct (insert_checks Example.store _ "users" (VInt 3) eq_refl)
      as [_ Hthere].
    exact (proj1 (Hthere eq_refl) (fun Hdict => Hdict)).
Defined.

Lemma insert_many_appends_witness :
  exists st',
    insert_many "users"
      (VList [VDict [("name", VStr "Carol")]; VDict [("name", VStr "Dan")]])
      Example.store = (Ok 2%nat, st') /\
    py_getitem (_data st') "users"
      = Ok (VList [Example.alice; Example.bob;
                   VDict [("name", VStr "Carol"); ("_inserted_at", VStr "T1")];
                   VDict [("name", VStr "Dan"); ("_inserted_at", VStr "T1")]]).
Proof.
  destruct (insert_many_appends Example.store _ _ "users" _
              [[("name", VStr "Carol")]; [("name", VStr "Dan")]]
              eq_refl eq_refl eq_refl)
    as (st' & Hi & Hrows & _).
  exists st'. split; [exact Hi | exact Hrows].
Defined.

Lemma insert_many_all_or_nothing_witness :
  exists st',
    insert_many "users" (VList [VDict [("name", VStr "Carol")]; VInt 3])
      Example.store = (Raise TypeError, st') /\
    _data st' = Example.users_data.
Proof.
  destruct (insert_many_all_or_nothing Example.store _ "users"
              [VDict [("name", VStr "Carol")]; VInt 3] eq_refl eq_refl)
    as (st' & Hi & Hdata & _).
  - apply Exists_cons_tl, Exists_cons_hd. exact (fun Hdict => Hdict).
  - exists st'. split; [exact Hi | exact Hdata].
Defined.

Lemma insert_then_select_witness :
  exists st',
    insert "users" (VDict [("name", VStr "Carol")]) Example.store
      = (Ok tt, st') /\
    count "users" FNone st' = (Ok 3%nat, st').
Proof.
  destruct (insert_then_select Example.store _ _ [("name", VStr "Carol")]
              "users" _ eq_refl eq_refl eq_refl)
    as (st' & Hi & _ & Hcount).
  - repeat constructor.
  - exists st'. split; [exact Hi | exact Hcount].
Defined.

Lemma count_is_number_matching_witness :
  count "users" (FDict [("age", VDict [("$gte", VInt 30)])]) Example.store
    = (Ok 1%nat, Example.store) /\
  count "users" FNone Example.store = (Ok 2%nat, Example.store).
Proof.
  destruct (count_is_number_matching Example.store _
              [("age", VDict [("$gte", VInt 30)])] "users" _
              (fun row =>
                 match condition_func [("age", VDict [("$gte", VInt 30)])] row
                 with Ok b => b | Raise _ => false end)
              eq_refl eq_refl)
    as (_ & Hcount & Hall).
  - repeat constructor.
  - intros row [<-|[<-|[]]]; reflexivity.
  - split; [exact Hcount | exact Hall].
Defined.

Lemma equality_filter_selects_witness :
  select "users" (FDict [("name", VStr "Bob")]) None None 0 None false
         Example.store
    = (Ok [Example.bob], Example.store).
Proof.
  exact (equality_filter_selects Example.store _ "users" "name" (VStr "Bob")
           [[("name", VStr "Alice"); ("age", VInt 28)];
            [("name", VStr "Bob"); ("age", VInt 34)]]
           eq_refl eq_refl eq_refl).
Defined.

(** The filter of the demonstration, with the key ["$or"]. *)
Lemma absent_field_selects_nothing_witness :
  select "users"
    (FDict [("age", VDict [("$gte", VInt 30)]);
            ("$or", VList [VDict [("name", VStr "Bob")];
                           VDict [("age", VDict [("$gte", VInt 18)])]])])
    None None 0 None false Example.store
    = (Ok [], Example.store).
Proof.
  refine (proj1 (absent_field_selects_nothing Example.store _
                   [("age", VDict [("$gte", VInt 30)])] [] "users" "$or"
                   (VList [VDict [("name", VStr "Bob")];
                           VDict [("age", VDict [("$gte", VInt 18)])]])
                   [[("name", VStr "Alice"); ("age", VInt 28)];
                      [("name", VStr "Bob"); ("age", VInt 34)]]
                   None None 0 None false eq_refl eq_refl _ eq_refl _)).
  - repeat constructor.
  - repeat constructor; eexists; reflexivity.
Defined.

Lemma comparisons_never_raise_witness :
  exists b,
    match_operators (VStr "x") [("$gt", VInt 3); ("$ne", VNull)] = Ok b.
Proof.
  apply comparisons_never_raise.
  repeat constructor; cbn; tauto.
Defined.

Lemma unordered_compare_false_witness :
  match_operators (VStr "x") [("$lt", VInt 3)] = Ok false /\
  match_operators (VStr "x") [("$gte", VInt 3)] = Ok false.
Proof.
  destruct (unordered_compare_false (VStr "x") (VInt 3) [] eq_refl)
    as (_ & Hgte & Hlt & _).
  split; [exact Hlt | exact Hgte].
Defined.

Lemma page_bounds_witness :
  select "users" FNone None None (-5) None false Example.store
    = (Ok [Example.alice; Example.bob], Example.store) /\
  select "users" FNone None (Some 1) 2 None false Example.store
    = (Ok [], Example.store).
Proof.
  split.
  - destruct (page_bounds Example.store _ "users" _ (-5) None eq_refl eq_refl)
      as (Hneg & _); [repeat constructor|].
    apply Hneg. lia.
  - destruct (page_bounds Example.store _ "users" _ 2 (Some 1) eq_refl eq_refl)
      as (_ & Hbeyond & _); [repeat constructor|].
    apply Hbeyond. cbn. lia.
Defined.

Lemma delete_removes_matching_witness :
  exists st',
    delete "users" (FDict [("name", VStr "Bob")]) Example.store
      = (Ok 1%nat, st') /\
    py_getitem (_data st') "users" = Ok (VList [Example.alice]).
Proof.
  destruct (delete_removes_matching Example.store _ _ "users" _
              (FDict [("name", VStr "Bob")]) _
              (fun row =>
                 match condition_func [("name", VStr "Bob")] row
                 with Ok b => b | Raise _ => false end)
              eq_refl eq_refl eq_refl eq_refl)
    as (st' & Hdel & Hrows & _).
  - intros row [<-|[<-|[]]]; reflexivity.
  - discriminate.
  - exists st'. split; [exact Hdel | exact Hrows].
Defined.

Lemma delete_then_none_match_witness :
  exists n st',
    delete "users" (FDict [("name", VStr "Bob")]) Example.store = (Ok n, st') /\
    count "users" (FDict [("name", VStr "Bob")]) st' = (Ok 0%nat, st').
Proof.
  destruct (delete_then_none_match Example.store _ _ [("name", VStr "Bob")]
              "users" _
              (fun row =>
                 match condition_func [("name", VStr "Bob")] row
                 with Ok b => b | Raise _ => false end)
              eq_refl eq_refl eq_refl)
    as (n & st' & Hdel & _ & Hcount).
  - intros row [<-|[<-|[]]]; reflexivity.
  - exists n, st'. split; [exact Hdel | exact Hcount].
Defined.

Lemma update_rewrites_matching_witness :
  exists st' rows',
    update "users" (FDict [("name", VStr "Bob")]) (UDict [("age", VInt 35)])
           Example.store = (Ok 1%nat, st') /\
    py_getitem (_data st') "users" = Ok (VList rows') /\
    length rows' = 2%nat.
Proof.
  destruct (update_rewrites_matching Example.store _ _ [("age", VInt 35)]
              "users" _ (FDict [("name", VStr "Bob")]) _
              (fun row =>
                 match condition_func [("name", VStr "Bob")] row
                 with Ok b => b | Raise _ => false end)
              eq_refl eq_refl eq_refl eq_refl)
    as (st' & rows' & Hupd & Hrows & _ & Hlen & _).
  - intros row [<-|[<-|[]]]; reflexivity.
  - intros row [<-|[<-|[]]] _; exact I.
  - discriminate.
  - exists st', rows'. split; [exact Hupd|]. split; [exact Hrows | exact Hlen].
Defined.

Lemma updated_row_fields_witness :
  exists row',
    update_func (UDict [("age", VInt 35)]) Example.bob Example.store
      = (Ok row', with_ticks 2 Example.store) /\
    py_getitem row' "age" = Ok (VInt 35) /\
    py_getitem row' "name" = Ok (VStr "Bob") /\
    py_getitem row' "_updated_at" = Ok (VStr "T1").
Proof.
  destruct (updated_row_fields Example.store
              [("name", VStr "Bob"); ("age", VInt 34)] [("age", VInt 35)])
    as (row' & Hrun & Hstamp & Hnew & Hold).
  - repeat constructor. cbn. tauto.
  - exists row'. split; [exact Hrun|].
    split; [apply Hnew; [discriminate | reflexivity]|].
    split; [|exact Hstamp].
    rewrite Hold; [reflexivity | discriminate | reflexivity].
Defined.

Lemma no_match_no_change_witness :
  delete "users" (FDict [("name", VStr "Zed")]) Example.store
    = (Ok 0%nat, Example.store) /\
  update "users" (FDict [("name", VStr "Zed")]) (UDict [("age", VInt 1)])
         Example.store = (Ok 0%nat, Example.store).
Proof.
  destruct (no_match_no_change Example.store _ "users" _
              (FDict [("name", VStr "Zed")]) _ eq_refl eq_refl eq_refl)
    as (Hdel & Hupd).
  - intros row [<-|[<-|[]]]; reflexivity.
  - split; [exact Hdel | apply Hupd; discriminate].
Defined.

Lemma update_delete_need_filter_witness :
  update "users" FNone (UDict []) Example.store
    = (Raise (QueryError "Filters must be dict or callable"), Example.store) /\
  delete "users" FNone Example.store
    = (Raise (QueryError "Filters must be dict or callable"), Example.store) /\
  update "users" (FDict []) UOther Example.store
    = (Raise (QueryError "Updater must be dict or callable"), Example.store).
Proof.
  destruct (update_delete_need_filter Example.store _ "users" _ FNone
              eq_refl eq_refl) as (Hnone & _).
  destruct (Hnone (or_introl eq_refl)) as (Hupd & Hdel).
  destruct (update_delete_need_filter Example.store _ "users" _ (FDict [])
              eq_refl eq_refl) as (_ & Hother).
  split; [apply Hupd|]. split; [exact Hdel|].
  apply Hother. eexists. reflexivity.
Defined.

Lemma clear_table_empties_witness :
  exists st',
    clear_table "users" Example.store = (Ok 2%nat, st') /\
    py_getitem (_data st') "users" = Ok (VList []) /\
    exists_table "users" st' = (Ok true, st').
Proof.
  destruct (clear_table_empties Example.store _ _ "users" _
              eq_refl eq_refl eq_refl)
    as (st' & Hclear & Hrows & Hexists & _).
  exists st'. split; [exact Hclear|]. split; [exact Hrows | exact Hexists].
Defined.

Lemma create_table_adds_witness :
  exists st' names',
    create_table "orders" Example.store = (Ok tt, st') /\
    list_tables st' = (Ok (VList (map VStr names')), st') /\
    Permutation ["users"; "orders"] names' /\
    ascending (map VStr names').
Proof.
  destruct (create_table_adds Example.store _ _ ["users"] "orders"
              eq_refl eq_refl eq_refl eq_refl eq_refl)
    as (st' & names' & Hc & _ & _ & Hlist & Hperm & Hasc & _).
  exists st', names'. split; [exact Hc|]. split; [exact Hlist|].
  split; [exact Hperm | exact Hasc].
Defined.

Lemma create_table_refuses_witness :
  (exists msg,
     create_table "users" Example.store
       = (Raise (TableExistsError msg), Example.store)) /\
  create_table "_cache" Example.store
    = (Raise (QueryError
                "Table names cannot start with underscore (reserved for internal use)"),
       Example.store).
Proof.
  split.
  - destruct (create_table_refuses Example.store _ "users" eq_refl)
      as [Hthere _].
    destruct (Hthere eq_refl) as (msg & Hc & _). exists msg. exact Hc.
  - destruct (create_table_refuses Example.store _ "_cache" eq_refl)
      as [_ Hunder].
    exact (Hunder eq_refl eq_refl).
Defined.

Lemma drop_table_removes_witness :
  exists st',
    drop_table "users" Example.store = (Ok tt, st') /\
    exists_table "users" st' = (Ok false, st') /\
    list_tables st' = (Ok (VList []), st').
Proof.
  destruct (drop_table_removes Example.store "users" _
              example_store_invariant eq_refl)
    as (st' & names & names' & data' & Hdrop & Hgone & Hbefore & Hafter
        & _ & Hrm & _).
  exists st'. split; [exact Hdrop|]. split; [exact Hgone|].
  assert (Hnames : map VStr names = [VStr "users"]).
  { assert (Hl : list_tables Example.store
                 = (Ok (VList [VStr "users"]), Example.store)) by reflexivity.
    rewrite Hl in Hbefore. now injection Hbefore as <-. }
  rewrite Hnames in Hrm. cbn in Hrm. injection Hrm as Hrm.
  rewrite <- Hrm in Hafter. exact Hafter.
Defined.

Lemma write_keeps_backup_witness :
  exists st',
    _write_db Demo.saved_store = (Ok tt, st') /\
    files st' !! "demo.backup" = Some Demo.first_version /\
    files st' !! "demo.json" = Some Example.users_data /\
    files st' !! "demo.json.tmp" = None.
Proof.
  destruct (write_keeps_backup Demo.saved_store _ _ Demo.first_version
              eq_refl eq_refl eq_refl eq_refl)
    as (st' & Hw & Hbak & Hdb & Htmp).
  - discriminate.
  - exists st'. split; [exact Hw|]. split; [exact Hbak|].
    split; [exact Hdb | exact Htmp].
Defined.

Lemma write_touches_only_its_files_witness :
  exists st',
    _write_db Demo.saved_store = (Ok tt, st') /\
    files st' !! "notes.txt" = Some (VStr "keep").
Proof.
  destruct (write_touches_only_its_files Demo.saved_store _ _ eq_refl eq_refl)
    as (st' & Hw & Hother).
  exists st'. split; [exact Hw|].
  refine (eq_trans (Hother "notes.txt" _ _ _) eq_refl);
    [discriminate | discriminate | intros _; discriminate].
Defined.

Lemma open_corrupted_file_witness :
  (exists msg w,
     @__init__ Text.runtime Example.path true Demo.broken_files
       Example.stamps 0 = (Raise (CafeDBError msg), w) /\
     files w = Demo.broken_files) /\
  (exists w,
     @__init__ Binary.runtime Example.path true Demo.binary_files
       Example.stamps 0 = (Raise UnicodeDecodeError, w) /\
     files w = Demo.binary_files).
Proof.
  split.
  - destruct (@open_corrupted_file Text.runtime Example.path true
                Demo.broken_files Example.stamps 0%nat "{oops" eq_refl eq_refl)
      as (e & w & Hinit & Hfiles & Htext & _).
    destruct (Htext eq_refl) as (msg & -> & _).
    exists msg, w. split; [exact Hinit | exact Hfiles].
  - destruct (@open_corrupted_file Binary.runtime Example.path true
                Demo.binary_files Example.stamps 0%nat Binary.Undecodable
                eq_refl eq_refl)
      as (e & w & Hinit & Hfiles & _ & Hbytes).
    rewrite (Hbytes eq_refl) in Hinit.
    exists w. split; [exact Hinit | exact Hfiles].
Defined.

Lemma open_without_meta_witness :
  exists st,
    @__init__ Reference.runtime Example.path true Demo.bare_files
      Example.stamps 0 = (Ok st, st) /\
    files st = Demo.bare_files /\
    list_tables st = (Ok (VList []), st) /\
    exists_table "users" st = (Ok true, st).
Proof.
  destruct (@open_without_meta Reference.runtime Example.path true
              Demo.bare_files Example.stamps
              0%nat _ [("users", VList [Example.alice])]
              eq_refl eq_refl eq_refl)
    as (st & Hinit & Hfiles & Hlist & _ & Htables).
  exists st. split; [exact Hinit|]. split; [exact Hfiles|].
  split; [exact Hlist|].
  exact (proj2 (Htables "users" ltac:(discriminate))).
Defined.

Lemma rollback_leaves_file_witness :
  exists st2 data',
    transaction (A := unit)
      (insert "users" (VDict [("name", VStr "Carol")]) ;;;
       raise (UserError "stop"))%M Example.store
      = (Raise (UserError "stop"), st2) /\
    py_getitem (_data st2) "users"
      = Ok (VList [Example.alice; Example.bob]) /\
    files st2 !! "demo.json" = Some (json_dumps data') /\
    py_getitem data' "users"
      = Ok (VList [Example.alice; Example.bob;
                   VDict [("name", VStr "Carol");
                          ("_inserted_at", VStr "T1")]]).
Proof.
  destruct (rollback_leaves_file (A := unit) Example.store _ _
              [("name", VStr "Carol")] "users" _ (UserError "stop")
              eq_refl eq_refl eq_refl eq_refl)
    as (st2 & data' & Hrun & _ & Hrows & Hfile & Hdata).
  exists st2, data'. split; [exact Hrun|]. split; [exact Hrows|].
  split; [exact Hfile | exact Hdata].
Defined.

Lemma info_reports_counts_witness :
  info Example.store =
  (Ok (VDict [("path", VStr "demo.json");
              ("created", VStr "T0");
              ("last_modified", VNull);
              ("version", VStr "1.0.0");
              ("tables", VDict [("users", VDict [("row_count", VInt 2)])]);
              ("table_count", VInt 1);
              ("total_rows", VInt 2)]),
   Example.store).
Proof.
  refine (info_reports_counts Example.store _ _ ["users"] [2%nat]
            eq_refl eq_refl eq_refl _ _).
  - repeat constructor. intros [].
  - constructor; [|constructor]. eexists. split; reflexivity.
Defined.

Lemma setup_database_again_raises_witness :
  exists msg,
    setup_database Demo.gradebook = (Raise (TableExistsError msg), Demo.gradebook).
Proof.
  exact (setup_database_again_raises Demo.gradebook _ eq_refl eq_refl).
Defined.

Lemma setup_database_creates_witness :
  exists st' names',
    setup_database Example.store = (Ok tt, st') /\
    py_getitem (_data st') "students" = Ok (VList []) /\
    list_tables st' = (Ok (VList (map VStr names')), st') /\
    Permutation ["users"; "students"; "grades"] names'.
Proof.
  destruct (setup_database_creates Example.store _ _ ["users"]
              eq_refl eq_refl eq_refl eq_refl eq_refl)
    as (st' & names' & Hrun & Hs & _ & Hlist & Hperm & _).
  exists st', names'. split; [exact Hrun|]. split; [exact Hs|].
  split; [exact Hlist | exact Hperm].
Defined.
